(** * update-template-script.py: a shallow embedding and its properties

    The script reads a PowerShell file as text, parses [template.json],
    rebinds [template['variables']['$fxv#2']] to the script text and writes
    the document back with [json.dump(..., indent=2, ensure_ascii=False)].

    The embedding follows the script statement by statement.  The parts of
    the Python runtime it leans on are modelled next to it:
    - [str] as a list of code points (lone surrogates included, as in
      CPython);
    - the objects [json.loads] builds (dict with insertion order, list, str,
      int, float, bool, None) and the three operations the script applies to
      them: [in], subscription and item assignment;
    - [json.dumps] / [json.dump] and [json.loads] on text;
    - text-mode files opened with [encoding='utf-8'] and the default
      [newline=None].

    Binary floating point is not interpreted: a float is carried as an
    IEEE value and its conversion from and to text is a parameter.  The two
    limits of the interpreter that [json.loads] can hit, on the digits of
    an integer literal and on the nesting of arrays and objects, are
    parameters as well ([Interpreter]). *)

From Stdlib Require Import NArith ZArith List String Ascii Bool Lia.
From Stdlib Require Import Decimal DecimalFacts DecimalN SpecFloat.
From stdpp Require Import base strings gmap.

Import ListNotations.
Local Open Scope N_scope.

(** ** Python strings *)

(** A [str] is a sequence of code points [0 .. 0x10FFFF]. *)
Definition pystr := list N.

(** ASCII literals of the script, as [str]. *)
Definition py (s : string) : pystr :=
  List.map N_of_ascii (list_ascii_of_string s).

Definition code_point (c : N) : Prop := c < 1114112.

(** The ASCII characters the JSON grammar names. *)
Abbreviation ch_backspace := 8 (only parsing).
Abbreviation ch_tab := 9 (only parsing).
Abbreviation ch_lf := 10 (only parsing).
Abbreviation ch_formfeed := 12 (only parsing).
Abbreviation ch_cr := 13 (only parsing).
Abbreviation ch_space := 32 (only parsing).
Abbreviation ch_quote := 34 (only parsing).
Abbreviation ch_plus := 43 (only parsing).
Abbreviation ch_comma := 44 (only parsing).
Abbreviation ch_minus := 45 (only parsing).
Abbreviation ch_dot := 46 (only parsing).
Abbreviation ch_slash := 47 (only parsing).
Abbreviation ch_0 := 48 (only parsing).
Abbreviation ch_9 := 57 (only parsing).
Abbreviation ch_colon := 58 (only parsing).
Abbreviation ch_lbracket := 91 (only parsing).
Abbreviation ch_backslash := 92 (only parsing).
Abbreviation ch_rbracket := 93 (only parsing).
Abbreviation ch_lbrace := 123 (only parsing).
Abbreviation ch_rbrace := 125 (only parsing).

(** A text between double quotes. *)
Definition quoted (s : pystr) : pystr := ch_quote :: s ++ [ch_quote].

(** U+D800 .. U+DBFF, U+DC00 .. U+DFFF. *)
Definition is_high_surrogate (c : N) : bool := (55296 <=? c) && (c <=? 56319).
Definition is_low_surrogate (c : N) : bool := (56320 <=? c) && (c <=? 57343).
Definition is_surrogate (c : N) : bool := (55296 <=? c) && (c <=? 57343).

Definition pystr_eqb (a b : pystr) : bool := bool_decide (a = b).

(** [s.startswith(p)], and [p in s] for two strings: substring search. *)
Fixpoint starts_with (p s : pystr) : bool :=
  match p, s with
  | [], _ => true
  | _ :: _, [] => false
  | a :: p', b :: s' => (a =? b) && starts_with p' s'
  end.

Fixpoint is_substring (p s : pystr) : bool :=
  starts_with p s ||
  match s with
  | [] => false
  | _ :: s' => is_substring p s'
  end.

(** ** Parsed documents *)

Unset Elimination Schemes.
Inductive json : Type :=
| JNull
| JBool (b : bool)
| JInt (z : Z)
| JFloat (f : spec_float)
| JStr (s : pystr)
| JList (l : list json)
| JDict (d : list (pystr * json)).
Set Elimination Schemes.

(** A [dict] keeps its keys in insertion order; assigning to a key that is
    present keeps its position, a new key goes last. *)
Fixpoint dict_get (k : pystr) (d : list (pystr * json)) : option json :=
  match d with
  | [] => None
  | (k', v) :: d' => if pystr_eqb k k' then Some v else dict_get k d'
  end.

Definition dict_has (k : pystr) (d : list (pystr * json)) : bool :=
  match dict_get k d with Some _ => true | None => false end.

Fixpoint dict_set (k : pystr) (v : json) (d : list (pystr * json)) :
  list (pystr * json) :=
  match d with
  | [] => [(k, v)]
  | (k', v') :: d' =>
      if pystr_eqb k k' then (k', v) :: d' else (k', v') :: dict_set k v d'
  end.

(** [dict(pairs)], as the decoder builds an object from its members. *)
Definition dict_of_pairs (pairs : list (pystr * json)) : list (pystr * json) :=
  fold_left (fun d kv => dict_set (fst kv) (snd kv) d) pairs [].

Definition keys (d : list (pystr * json)) : list pystr := List.map fst d.

(** ** Exceptions and the three object operations of the script *)

Inductive exn : Type :=
| FileNotFoundError
| PermissionError
| UnicodeDecodeError
| UnicodeEncodeError
| JSONDecodeError
| TypeError
| KeyError
| ValueError
| RecursionError.

(** [key in obj], [key] a string.  [None], booleans and numbers are not
    iterable. *)
Definition py_contains (key : pystr) (obj : json) : exn + bool :=
  match obj with
  | JDict d => inr (dict_has key d)
  | JList l =>
      inr (existsb (fun x => match x with
                             | JStr s => pystr_eqb s key
                             | _ => false
                             end) l)
  | JStr s => inr (is_substring key s)
  | JNull | JBool _ | JInt _ | JFloat _ => inl TypeError
  end.

(** [obj[key]], [key] a string: only a dict can be subscripted by a
    string. *)
Definition py_getitem (obj : json) (key : pystr) : exn + json :=
  match obj with
  | JDict d =>
      match dict_get key d with
      | Some v => inr v
      | None => inl KeyError
      end
  | _ => inl TypeError
  end.

(** [obj[key] = v], [key] a string. *)
Definition py_setitem (obj : json) (key : pystr) (v : json) : exn + json :=
  match obj with
  | JDict d => inr (JDict (dict_set key v d))
  | _ => inl TypeError
  end.

Definition K_variables : pystr := py "variables".
Definition K_fxv2 : pystr := py "$fxv#2".

(** ** Text of numbers *)

(** The decimal digits ['0'] .. ['9'] are the codes 48 .. 57. *)
Fixpoint chars_of_uint (d : uint) : pystr :=
  match d with
  | Nil => []
  | D0 d => 48 :: chars_of_uint d
  | D1 d => 49 :: chars_of_uint d
  | D2 d => 50 :: chars_of_uint d
  | D3 d => 51 :: chars_of_uint d
  | D4 d => 52 :: chars_of_uint d
  | D5 d => 53 :: chars_of_uint d
  | D6 d => 54 :: chars_of_uint d
  | D7 d => 55 :: chars_of_uint d
  | D8 d => 56 :: chars_of_uint d
  | D9 d => 57 :: chars_of_uint d
  end.

(** [int.__repr__]. *)
Definition int_repr (z : Z) : pystr :=
  match z with
  | Z0 => [ch_0]
  | Zpos p => chars_of_uint (N.to_uint (Npos p))
  | Zneg p => ch_minus :: chars_of_uint (N.to_uint (Npos p))
  end.

(** What is taken from the interpreter.  Python's [float(text)] on a
    number literal and [float.__repr__] on a finite float are left
    uninterpreted.  [int_max_str_digits] is
    [sys.get_int_max_str_digits()]: [int(text)] raises [ValueError] on more
    digits than that, 0 meaning no limit (4300 unless the interpreter is
    told otherwise).  [recursion_depth] is how many arrays and objects
    inside one another [json.loads] enters before the interpreter raises
    [RecursionError]: what [sys.getrecursionlimit()] leaves at the call on
    line 30 (994 when the script is run by an unmodified CPython 3.11). *)
Class Interpreter := {
  float_of_literal : pystr -> spec_float;
  float_repr : spec_float -> pystr;
  int_max_str_digits : nat;
  recursion_depth : nat
}.

(** ** json.encoder *)

(** A digit of ["0123456789abcdef"]; ['a'] is the code 97. *)
Definition hexdigit (d : N) : N := if d <? 10 then ch_0 + d else 87 + d.

(** ['{0:04x}'.format(n)] for [n < 0x10000]. *)
Definition hex4 (n : N) : pystr :=
  [hexdigit (n / 4096 mod 16); hexdigit (n / 256 mod 16);
   hexdigit (n / 16 mod 16); hexdigit (n mod 16)].

(** A backslash, [u] (the code 117) and four digits. *)
Definition u_escape (n : N) : pystr := ch_backslash :: 117 :: hex4 n.

(** [ESCAPE_DCT]: the short escapes, and [\u00XX] for the other control
    characters. *)
Definition escape_dct (c : N) : option pystr :=
  if c =? ch_backslash then Some [ch_backslash; ch_backslash]
  else if c =? ch_quote then Some [ch_backslash; ch_quote]
  else if c =? ch_backspace then Some (ch_backslash :: py "b")
  else if c =? ch_formfeed then Some (ch_backslash :: py "f")
  else if c =? ch_lf then Some (ch_backslash :: py "n")
  else if c =? ch_cr then Some (ch_backslash :: py "r")
  else if c =? ch_tab then Some (ch_backslash :: py "t")
  else if c <? ch_space then Some (u_escape c)
  else None.

(** One character under [encode_basestring] ([ensure_ascii=False]):
    everything outside [ESCAPE_DCT] is kept as it is. *)
Definition escape_char (c : N) : pystr :=
  match escape_dct c with
  | Some e => e
  | None => [c]
  end.

(** One character under [encode_basestring_ascii] ([ensure_ascii=True]):
    what is not printable ASCII becomes [\uXXXX], a code point above the
    BMP becomes a surrogate pair of escapes. *)
Definition escape_char_ascii (c : N) : pystr :=
  match escape_dct c with
  | Some e => e
  | None =>
      if (ch_space <=? c) && (c <=? 126) then [c]
      else if c <? 65536 then u_escape c
      else
        let n := c - 65536 in
        u_escape (N.lor 55296 (N.land (N.shiftr n 10) 1023))
        ++ u_escape (N.lor 56320 (N.land n 1023))
  end.

Definition encode_basestring (s : pystr) : pystr :=
  ch_quote :: flat_map escape_char s ++ [ch_quote].

Definition encode_basestring_ascii (s : pystr) : pystr :=
  ch_quote :: flat_map escape_char_ascii s ++ [ch_quote].

(** The encoder's [floatstr] with [allow_nan=True]. *)
Definition floatstr `{Interpreter} (f : spec_float) : pystr :=
  match f with
  | S754_nan => py "NaN"
  | S754_infinity false => py "Infinity"
  | S754_infinity true => py "-Infinity"
  | _ => float_repr f
  end.

(** ['\n' + ' ' * (indent * level)] with [indent=2]. *)
Definition newline_indent (level : nat) : pystr :=
  ch_lf :: repeat ch_space (2 * level)%nat.

(** [json.dumps(obj, indent=2, ensure_ascii=False)] at nesting [level]:
    item separator [','], key separator [': ']. *)
Fixpoint dumps_at `{Interpreter} (level : nat) (v : json) : pystr :=
  match v with
  | JNull => py "null"
  | JBool true => py "true"
  | JBool false => py "false"
  | JInt z => int_repr z
  | JFloat f => floatstr f
  | JStr s => encode_basestring s
  | JList [] => py "[]"
  | JList (x :: xs) =>
      ch_lbracket :: newline_indent (S level) ++ dumps_at (S level) x
      ++ flat_map (fun y => ch_comma :: newline_indent (S level)
                            ++ dumps_at (S level) y) xs
      ++ newline_indent level ++ [ch_rbracket]
  | JDict [] => py "{}"
  | JDict ((k, x) :: kxs) =>
      ch_lbrace :: newline_indent (S level)
      ++ encode_basestring k ++ [ch_colon; ch_space] ++ dumps_at (S level) x
      ++ flat_map (fun ky => ch_comma :: newline_indent (S level)
                             ++ encode_basestring (fst ky)
                             ++ [ch_colon; ch_space]
                             ++ dumps_at (S level) (snd ky)) kxs
      ++ newline_indent level ++ [ch_rbrace]
  end.

Definition dumps_indent2 `{Interpreter} (v : json) : pystr := dumps_at 0 v.

(** The same text in the pieces [json.dump] hands to [f.write], one call
    for each: [_iterencode], [_iterencode_list] and [_iterencode_dict] of
    [_make_iterencode].  In an array the bracket or the separator comes in
    one piece with the element that follows it, unless that element is
    itself an array or an object; in an object the brace, the separator,
    the key, the colon and the value are pieces of their own. *)
Fixpoint iterencode `{Interpreter} (level : nat) (v : json) : list pystr :=
  match v with
  | JList [] => [py "[]"]
  | JList (x :: xs) =>
      match x with
      | JList _ | JDict _ =>
          (ch_lbracket :: newline_indent (S level)) :: iterencode (S level) x
      | _ => [(ch_lbracket :: newline_indent (S level)) ++ dumps_at (S level) x]
      end
      ++ flat_map (fun y =>
                     match y with
                     | JList _ | JDict _ =>
                         (ch_comma :: newline_indent (S level))
                         :: iterencode (S level) y
                     | _ => [(ch_comma :: newline_indent (S level))
                             ++ dumps_at (S level) y]
                     end) xs
      ++ [newline_indent level; [ch_rbracket]]
  | JDict [] => [py "{}"]
  | JDict ((k, x) :: kxs) =>
      [ch_lbrace] :: newline_indent (S level)
      :: encode_basestring k :: [ch_colon; ch_space] :: iterencode (S level) x
      ++ flat_map (fun ky =>
                     (ch_comma :: newline_indent (S level))
                     :: encode_basestring (fst ky) :: [ch_colon; ch_space]
                     :: iterencode (S level) (snd ky)) kxs
      ++ [newline_indent level; [ch_rbrace]]
  | _ => [dumps_at level v]
  end.

(** [json.dumps(text)] with the defaults, for a string. *)
Definition json_dumps_str (text : pystr) : pystr := encode_basestring_ascii text.

(** ** json.decoder *)

(** Outcome of a scanner: the value read and the text after it, a
    [JSONDecodeError], another exception raised on the way (the
    [ValueError] of [int()], [RecursionError]), or a budget of the
    definition that ran out (never the case from [json_loads], see
    [json_loads_total]). *)
Inductive scan (A : Type) : Type :=
| Got (a : A) (rest : pystr)
| Bad
| Raised (e : exn)
| OutOfFuel.
Arguments Got {A} a rest.
Arguments Bad {A}.
Arguments Raised {A} e.
Arguments OutOfFuel {A}.

Definition scan_map {A B} (f : A -> B) (r : scan A) : scan B :=
  match r with
  | Got a rest => Got (f a) rest
  | Bad => Bad
  | Raised e => Raised e
  | OutOfFuel => OutOfFuel
  end.

(** What a decoder is set up with: whether the constants [NaN],
    [Infinity] and [-Infinity] are read (they are by the default
    [parse_constant]), and the limit of [int()] on the digits of a literal
    (0: none). *)
Record decoder : Type := Decoder {
  allow_constants : bool;
  max_str_digits : nat
}.

(** [WHITESPACE]: space, tab, line feed, carriage return. *)
Definition is_ws (c : N) : bool :=
  (c =? ch_space) || (c =? ch_tab) || (c =? ch_lf) || (c =? ch_cr).

Fixpoint skip_ws (s : pystr) : pystr :=
  match s with
  | c :: r => if is_ws c then skip_ws r else s
  | [] => []
  end.

(** ['0'..'9'], ['a'..'f'] (97 .. 102), ['A'..'F'] (65 .. 70). *)
Definition hexval (c : N) : option N :=
  if (ch_0 <=? c) && (c <=? ch_9) then Some (c - ch_0)
  else if (97 <=? c) && (c <=? 102) then Some (c - 87)
  else if (65 <=? c) && (c <=? 70) then Some (c - 55)
  else None.

(** [_decode_uXXXX]: exactly four hexadecimal digits. *)
Definition decode_hex4 (a b c d : N) : option N :=
  match hexval a, hexval b, hexval c, hexval d with
  | Some x, Some y, Some z, Some w => Some (x * 4096 + y * 256 + z * 16 + w)
  | _, _, _, _ => None
  end.

(** [BACKSLASH]: the character a short escape stands for; the letters
    [b f n r t] are the codes 98, 102, 110, 114, 116. *)
Definition backslash (e : N) : option N :=
  if e =? ch_quote then Some ch_quote
  else if e =? ch_backslash then Some ch_backslash
  else if e =? ch_slash then Some ch_slash
  else if e =? 98 then Some ch_backspace
  else if e =? 102 then Some ch_formfeed
  else if e =? 110 then Some ch_lf
  else if e =? 114 then Some ch_cr
  else if e =? 116 then Some ch_tab
  else None.

(** [scanstring] with [strict=True], entered after the opening quote.  A
    [\uXXXX] high surrogate directly followed by a [\uXXXX] low surrogate
    is joined into one code point. *)
Fixpoint scanstring (s : pystr) : scan pystr :=
  match s with
  | [] => Bad
  | c :: r =>
      if c =? ch_quote then Got [] r
      else if c =? ch_backslash then
        match r with
        | [] => Bad
        | e :: r1 =>
            if e =? 117 then
              match r1 with
              | h1 :: h2 :: h3 :: h4 :: r2 =>
                  match decode_hex4 h1 h2 h3 h4 with
                  | None => Bad
                  | Some uni =>
                      if is_high_surrogate uni then
                        match r2 with
                        | b :: u :: g1 :: g2 :: g3 :: g4 :: r3 =>
                            if (b =? ch_backslash) && (u =? 117) then
                              match decode_hex4 g1 g2 g3 g4 with
                              | None => Bad
                              | Some uni2 =>
                                  if is_low_surrogate uni2 then
                                    scan_map
                                      (cons (65536 + N.lor
                                               (N.shiftl (uni - 55296) 10)
                                               (uni2 - 56320)))
                                      (scanstring r3)
                                  else scan_map (cons uni) (scanstring r2)
                              end
                            else scan_map (cons uni) (scanstring r2)
                        | _ => scan_map (cons uni) (scanstring r2)
                        end
                      else scan_map (cons uni) (scanstring r2)
                  end
              | _ => Bad
              end
            else
              match backslash e with
              | Some ch => scan_map (cons ch) (scanstring r1)
              | None => Bad
              end
        end
      else if c <? ch_space then Bad
      else scan_map (cons c) (scanstring r)
  end.

Definition is_digit (c : N) : bool := (ch_0 <=? c) && (c <=? ch_9).

Fixpoint span_digits (s : pystr) : pystr * pystr :=
  match s with
  | c :: r =>
      if is_digit c then let (ds, r') := span_digits r in (c :: ds, r')
      else ([], s)
  | [] => ([], [])
  end.

Fixpoint uint_of_digits (ds : pystr) : uint :=
  match ds with
  | [] => Nil
  | c :: r =>
      let d := uint_of_digits r in
      if c =? ch_0 then D0 d else if c =? 49 then D1 d
      else if c =? 50 then D2 d else if c =? 51 then D3 d
      else if c =? 52 then D4 d else if c =? 53 then D5 d
      else if c =? 54 then D6 d else if c =? 55 then D7 d
      else if c =? 56 then D8 d else D9 d
  end.

(** [int(text)] on the integer part of a number literal. *)
Definition int_of_literal (neg : bool) (ds : pystr) : Z :=
  let n := Z.of_N (N.of_uint (uint_of_digits ds)) in
  if neg then Z.opp n else n.

(** The three groups of [NUMBER_RE]: an optional minus sign and an integer
    part ([0], or a non-zero digit and any digits); optionally a dot and
    one or more digits; optionally [e] or [E], an optional sign and one or
    more digits. *)
Definition match_integer (s : pystr) : option (pystr * pystr) :=
  match s with
  | c :: r =>
      if c =? ch_0 then Some ([ch_0], r)
      else if is_digit c then
        let (ds, r') := span_digits r in Some (c :: ds, r')
      else None
  | [] => None
  end.

Definition match_frac (s : pystr) : pystr * pystr :=
  match s with
  | dot :: d :: r =>
      if (dot =? ch_dot) && is_digit d then
        let (ds, r') := span_digits r in (dot :: d :: ds, r')
      else ([], s)
  | _ => ([], s)
  end.

(** [e] and [E] are the codes 101 and 69. *)
Definition match_exp (s : pystr) : pystr * pystr :=
  match s with
  | e :: r =>
      if (e =? 101) || (e =? 69) then
        let (sg, r1) :=
          match r with
          | c :: r' =>
              if (c =? ch_minus) || (c =? ch_plus) then ([c], r') else ([], r)
          | [] => ([], r)
          end in
        match span_digits r1 with
        | ([], _) => ([], s)
        | (ds, r2) => (e :: sg ++ ds, r2)
        end
      else ([], s)
  | [] => ([], s)
  end.

(** The digits of the integer part of the number literal at the head of
    [s], and [int()] refusing more than [limit] of them. *)
Definition integer_part (s : pystr) : pystr :=
  match match_integer (match s with
                       | c :: r => if c =? ch_minus then r else s
                       | [] => s
                       end) with
  | Some (ds, _) => ds
  | None => []
  end.

Definition exceeds (limit n : nat) : bool :=
  (0 <? limit)%nat && (limit <? n)%nat.

Definition match_number `{Interpreter} (s : pystr) : option (json * pystr) :=
  let (neg, s1) :=
    match s with
    | c :: r => if c =? ch_minus then (true, r) else (false, s)
    | [] => (false, s)
    end in
  match match_integer s1 with
  | None => None
  | Some (ds, r1) =>
      let (frac, r2) := match_frac r1 in
      let (ex, r3) := match_exp r2 in
      match frac, ex with
      | [], [] => Some (JInt (int_of_literal neg ds), r3)
      | _, _ =>
          Some (JFloat (float_of_literal
                          ((if neg then [ch_minus] else [])
                           ++ ds ++ frac ++ ex)),
                r3)
      end
  end.

(** The branches of [scan_once] that do not recurse; [s] starts with
    neither [{] nor [[].  An integer literal goes through [int()], which
    raises [ValueError] on too many digits. *)
Definition scan_atom `{Interpreter} (o : decoder) (s : pystr) : scan json :=
  match s with
  | [] => Bad
  | c :: r =>
      if c =? ch_quote then scan_map JStr (scanstring r)
      else if starts_with (py "null") s then Got JNull (skipn 4 s)
      else if starts_with (py "true") s then Got (JBool true) (skipn 4 s)
      else if starts_with (py "false") s then Got (JBool false) (skipn 5 s)
      else
        match match_number s with
        | Some (JInt z, rest) =>
            if exceeds (max_str_digits o) (length (integer_part s))
            then Raised ValueError
            else Got (JInt z) rest
        | Some (v, rest) => Got v rest
        | None =>
            if allow_constants o then
              if starts_with (py "NaN") s
              then Got (JFloat S754_nan) (skipn 3 s)
              else if starts_with (py "Infinity") s
              then Got (JFloat (S754_infinity false)) (skipn 8 s)
              else if starts_with (py "-Infinity") s
              then Got (JFloat (S754_infinity true)) (skipn 9 s)
              else Bad
            else Bad
        end
  end.

(** [scan_once], [JSONArray] and [JSONObject].  [scan_items] is entered at
    the first character of an element, [scan_pairs] after the opening
    quote of a key.  [depth] is how many arrays and objects may still be
    entered: the scanner asks the interpreter at every [{] and [[], before
    it looks at what follows. *)
Fixpoint scan_once `{Interpreter} (o : decoder) (depth fuel : nat)
    (s : pystr) : scan json :=
  match fuel with
  | O => OutOfFuel
  | S n =>
      match s with
      | [] => Bad
      | c :: r =>
          if c =? ch_lbrace then
            match depth with
            | O => Raised RecursionError
            | S d =>
                match skip_ws r with
                | c1 :: r1 =>
                    if c1 =? ch_rbrace then Got (JDict []) r1
                    else if c1 =? ch_quote then
                      scan_map (fun ps => JDict (dict_of_pairs ps))
                               (scan_pairs o d n r1)
                    else Bad
                | [] => Bad
                end
            end
          else if c =? ch_lbracket then
            match depth with
            | O => Raised RecursionError
            | S d =>
                match skip_ws r with
                | c1 :: r1 =>
                    if c1 =? ch_rbracket then Got (JList []) r1
                    else scan_map JList (scan_items o d n (c1 :: r1))
                | [] => Bad
                end
            end
          else scan_atom o s
      end
  end
with scan_items `{Interpreter} (o : decoder) (depth fuel : nat)
    (s : pystr) : scan (list json) :=
  match fuel with
  | O => OutOfFuel
  | S n =>
      match scan_once o depth n s with
      | Got v r =>
          match skip_ws r with
          | c :: r1 =>
              if c =? ch_rbracket then Got [v] r1
              else if c =? ch_comma
              then scan_map (cons v) (scan_items o depth n (skip_ws r1))
              else Bad
          | [] => Bad
          end
      | Bad => Bad
      | Raised e => Raised e
      | OutOfFuel => OutOfFuel
      end
  end
with scan_pairs `{Interpreter} (o : decoder) (depth fuel : nat)
    (s : pystr) : scan (list (pystr * json)) :=
  match fuel with
  | O => OutOfFuel
  | S n =>
      match scanstring s with
      | Got k r =>
          match skip_ws r with
          | c :: r1 =>
              if c =? ch_colon then
                match scan_once o depth n (skip_ws r1) with
                | Got v r2 =>
                    match skip_ws r2 with
                    | c2 :: r3 =>
                        if c2 =? ch_rbrace then Got [(k, v)] r3
                        else if c2 =? ch_comma then
                          match skip_ws r3 with
                          | q :: r4 =>
                              if q =? ch_quote
                              then scan_map (cons (k, v))
                                            (scan_pairs o depth n r4)
                              else Bad
                          | [] => Bad
                          end
                        else Bad
                    | [] => Bad
                    end
                | Bad => Bad
                | Raised e => Raised e
                | OutOfFuel => OutOfFuel
                end
              else Bad
          | [] => Bad
          end
      | Bad => Bad
      | Raised e => Raised e
      | OutOfFuel => OutOfFuel
      end
  end.

(** One value between optional whitespace, nothing after it.  Of two
    nested calls of the scanners one at least consumes a character, so a
    budget of twice the length of the text is never used up
    ([json_loads_total]). *)
Definition decode `{Interpreter} (o : decoder) (depth : nat) (text : pystr) :
  scan json :=
  match scan_once o depth (S (2 * length text)) (skip_ws text) with
  | Got v rest =>
      match skip_ws rest with
      | [] => Got v []
      | _ :: _ => Bad
      end
  | Bad => Bad
  | Raised e => Raised e
  | OutOfFuel => OutOfFuel
  end.

(** [json.loads(text)], as line 30 calls it: the default decoder, in the
    interpreter that runs the script. *)
Definition json_decoder `{Interpreter} : decoder :=
  {| allow_constants := true; max_str_digits := int_max_str_digits |}.

Definition json_loads `{Interpreter} (text : pystr) : scan json :=
  decode json_decoder recursion_depth text.

(** ** Files and the console *)

(** What a path holds.  Every [open] of the script fixes
    [encoding='utf-8'], so a file is seen as its decoded characters
    ([Text]); [NotUtf8] is a file whose bytes do not decode, [Denied] a
    file that [open] refuses in every mode. *)
Inductive file : Type :=
| Text (body : pystr)
| NotUtf8
| Denied.

(** Why [open(path, 'w')] fails on a path that can be read or does not
    exist: the file or its directory is read-only ([PermissionError]), or
    there is no such directory ([FileNotFoundError]). *)
Inductive refusal : Type := ReadOnly | NoDirectory.

Definition refusal_exn (r : refusal) : exn :=
  match r with
  | ReadOnly => PermissionError
  | NoDirectory => FileNotFoundError
  end.

(** [os.linesep] is ['\n'] or ['\r\n']. *)
Inductive platform : Type := Posix | Windows.

Inductive event : Type :=
| Print (msg : string)
| OpenRead (path : string)
| OpenWrite (path : string).

(** The files, the console, the platform, and the paths that cannot be
    opened for writing.  The script changes no permission and no
    directory, so [w_refused] is the same before and after a run. *)
Record world : Type := World {
  w_files : gmap string file;
  w_log : list event;
  w_os : platform;
  w_refused : gmap string refusal
}.

Definition log (e : event) (w : world) : world :=
  World (w_files w) (w_log w ++ [e]) (w_os w) (w_refused w).

Definition set_file (path : string) (f : file) (w : world) : world :=
  World (<[path := f]> (w_files w)) (w_log w) (w_os w) (w_refused w).

(** A statement either completes with a value or raises. *)
Inductive result (A : Type) : Type :=
| Ret (a : A) (w : world)
| Raise (e : exn) (w : world).
Arguments Ret {A} a w.
Arguments Raise {A} e w.

Definition io (A : Type) : Type := world -> result A.

Definition ret {A} (a : A) : io A := fun w => Ret a w.

Definition bind {A B} (c : io A) (k : A -> io B) : io B :=
  fun w =>
    match c w with
    | Ret a w' => k a w'
    | Raise e w' => Raise e w'
    end.

Notation "x <~ c ;; k" := (bind c (fun x => k))
  (at level 100, c at next level, right associativity).
Notation "c ;;; k" := (bind c (fun _ => k))
  (at level 100, right associativity).

Definition lift {A} (r : exn + A) : io A :=
  fun w => match r with inl e => Raise e w | inr a => Ret a w end.

Definition print (msg : string) : io unit :=
  fun w => Ret tt (log (Print msg) w).

(** Reading with [newline=None]: ['\r\n'] and a lone ['\r'] come back as
    ['\n']. *)
Fixpoint universal_newlines (s : pystr) : pystr :=
  match s with
  | [] => []
  | c :: r =>
      if c =? ch_cr then
        match r with
        | c' :: r' =>
            if c' =? ch_lf then ch_lf :: universal_newlines r'
            else ch_lf :: universal_newlines r
        | [] => [ch_lf]
        end
      else c :: universal_newlines r
  end.

(** Writing with [newline=None]: ['\n'] goes out as [os.linesep]. *)
Definition linesep (os : platform) : pystr :=
  match os with Posix => [ch_lf] | Windows => [ch_cr; ch_lf] end.

Definition translate_newlines (os : platform) (s : pystr) : pystr :=
  flat_map (fun c => if c =? ch_lf then linesep os else [c]) s.

(** UTF-8 has no encoding for a surrogate code point. *)
Definition encodable (s : pystr) : bool :=
  forallb (fun c => negb (is_surrogate c)) s.

(** [with open(path, 'r', encoding='utf-8') as f: f.read()] *)
Definition open_read (path : string) : io pystr :=
  fun w =>
    match w_files w !! path with
    | None => Raise FileNotFoundError w
    | Some Denied => Raise PermissionError w
    | Some NotUtf8 => Raise UnicodeDecodeError (log (OpenRead path) w)
    | Some (Text body) => Ret (universal_newlines body) (log (OpenRead path) w)
    end.

(** [open(path, 'w', encoding='utf-8')]: the file is created or emptied,
    unless the path cannot be opened for writing. *)
Definition open_write (path : string) : io unit :=
  fun w =>
    match w_files w !! path with
    | Some Denied => Raise PermissionError w
    | _ =>
        match w_refused w !! path with
        | Some r => Raise (refusal_exn r) w
        | None => Ret tt (set_file path (Text []) (log (OpenWrite path) w))
        end
    end.

(** What reaches the file of the pieces handed to [f.write] one after the
    other: each piece is encoded as it is written, and the first that
    UTF-8 cannot encode raises; the pieces before it are flushed when the
    [with] block closes the file. *)
Fixpoint written (chunks : list pystr) : pystr :=
  match chunks with
  | c :: r => if encodable c then c ++ written r else []
  | [] => []
  end.

(** [json.dump(obj, f, indent=2, ensure_ascii=False)] into the file just
    opened at [path], and the end of the [with] block. *)
Definition json_dump `{Interpreter} (obj : json) (path : string) : io unit :=
  fun w =>
    let chunks := iterencode 0 obj in
    let w' := set_file path
                (Text (translate_newlines (w_os w) (written chunks))) w in
    if forallb encodable chunks then Ret tt w'
    else Raise UnicodeEncodeError w'.

(** ** The script *)

(** [read_powershell_script] *)
Definition read_powershell_script (filepath : string) : io pystr :=
  open_read filepath.

(** [escape_for_json]: [json.dumps(text)[1:-1]]. *)
Definition slice_1_m1 (s : pystr) : pystr := removelast (tl s).

Definition escape_for_json (text : pystr) : pystr :=
  slice_1_m1 (json_dumps_str text).

(** The test ['variables' in template and '$fxv#2' in template['variables']]
    with the short-circuit of [and]. *)
Definition has_target_key (template : json) : exn + bool :=
  match py_contains K_variables template with
  | inl e => inl e
  | inr false => inr false
  | inr true =>
      match py_getitem template K_variables with
      | inl e => inl e
      | inr vars => py_contains K_fxv2 vars
      end
  end.

(** [template['variables']['$fxv#2'] = ps_script].  The inner dict is
    changed in place; the template built by [json.loads] is a tree, so the
    template afterwards is the same tree with that dict in its place. *)
Definition assign_target (template : json) (ps_script : pystr) : exn + json :=
  match py_getitem template K_variables with
  | inl e => inl e
  | inr vars =>
      match py_setitem vars K_fxv2 (JStr ps_script) with
      | inl e => inl e
      | inr vars' => py_setitem template K_variables vars'
      end
  end.

(** [update_template] *)
Definition update_template `{Interpreter}
    (template_path script_path output_path : string) : io bool :=
  print ("Reading PowerShell script from: " +:+ script_path) ;;;
  ps_script <~ read_powershell_script script_path ;;
  print ("Reading template from: " +:+ template_path) ;;;
  template_content <~ open_read template_path ;;
  print "Parsing template JSON..." ;;;
  template <~ (fun w => match json_loads template_content with
                        | Got v _ => Ret v w
                        | Raised e => Raise e w
                        | Bad | OutOfFuel => Raise JSONDecodeError w
                        end) ;;
  print "Updating $fxv#2 variable..." ;;;
  found <~ lift (has_target_key template) ;;
  if found : bool then
    template' <~ lift (assign_target template ps_script) ;;
    print "[SUCCESS] Successfully updated $fxv#2" ;;;
    print ("Writing updated template to: " +:+ output_path) ;;;
    open_write output_path ;;;
    json_dump template' output_path ;;;
    print "[SUCCESS] Template updated successfully!" ;;;
    ret true
  else
    print "[ERROR] Could not find $fxv#2 in template variables" ;;;
    ret false.

(** How the interpreter ends: [sys.exit(status)], or an exception nobody
    caught, which prints a traceback and gives status 1. *)
Record exit : Type := Exit {
  status : Z;
  uncaught : option exn;
  final : world
}.

(** [sys.exit(0 if success else 1)] after the call, or the exception that
    came out of it. *)
Definition exit_of (r : result bool) : exit :=
  match r with
  | Ret success w' => Exit (if success then 0%Z else 1%Z) None w'
  | Raise e w' => Exit 1%Z (Some e) w'
  end.

(** The [__main__] block.  [sys_path0] is [sys.path[0]], [argv] is
    [sys.argv]. *)
Definition main `{Interpreter} (sys_path0 : string) (argv : list string)
    (w : world) : exit :=
  let script_dir := if bool_decide (sys_path0 = "") then "." else sys_path0 in
  let template_path := script_dir +:+ "/../template.json" in
  let script_path := script_dir +:+ "/uploadSettings-enhanced.ps1" in
  let output_path := script_dir +:+ "/../template.json" in
  exit_of (update_template template_path script_path output_path w).

(** ** Vocabulary of the statements *)

(** The value under [variables] / [$fxv#2], when the template is an object
    whose [variables] member is an object that has the key. *)
Definition target_value (template : json) : option json :=
  match template with
  | JDict d =>
      match dict_get K_variables d with
      | Some (JDict vars) => dict_get K_fxv2 vars
      | _ => None
      end
  | _ => None
  end.

Definition has_target (template : json) : Prop :=
  exists old, target_value template = Some old.

(** [T'] is [T] with the string [s] under [variables] / [$fxv#2] and
    nothing else changed: same keys in the same order at both levels, same
    values under every other key. *)
Definition patched (T : json) (s : pystr) (T' : json) : Prop :=
  exists d vars d' vars',
    T = JDict d /\ dict_get K_variables d = Some (JDict vars) /\
    T' = JDict d' /\ dict_get K_variables d' = Some (JDict vars') /\
    keys d' = keys d /\
    (forall k, k <> K_variables -> dict_get k d' = dict_get k d) /\
    keys vars' = keys vars /\
    (forall k, k <> K_fxv2 -> dict_get k vars' = dict_get k vars) /\
    dict_get K_fxv2 vars' = Some (JStr s).

(** The shapes on which the presence test of the script is false: the
    [else] branch is taken. *)
Definition lacks (key : pystr) (obj : json) : bool :=
  match obj with
  | JDict d => negb (dict_has key d)
  | JList l =>
      negb (existsb (fun x => match x with
                              | JStr s => pystr_eqb s key
                              | _ => false
                              end) l)
  | JStr s => negb (is_substring key s)
  | _ => false
  end.

Definition reports_missing (template : json) : bool :=
  lacks K_variables template ||
  match template with
  | JDict d =>
      match dict_get K_variables d with
      | Some vars => lacks K_fxv2 vars
      | None => false
      end
  | _ => false
  end.

(** A property of every value inside a document, the document included. *)
Fixpoint every (P : json -> Prop) (v : json) : Prop :=
  P v /\
  match v with
  | JList l =>
      (fix go (l : list json) : Prop :=
         match l with
         | [] => True
         | x :: l' => every P x /\ go l'
         end) l
  | JDict d =>
      (fix go (d : list (pystr * json)) : Prop :=
         match d with
         | [] => True
         | kx :: d' => every P (snd kx) /\ go d'
         end) d
  | _ => True
  end.

(** No object of the document has a key twice: true of whatever
    [json.loads] returns. *)
Definition unique_keys (v : json) : Prop :=
  match v with
  | JDict d => NoDup (keys d)
  | _ => True
  end.

Definition wf_json : json -> Prop := every unique_keys.

(** What may follow a value in the output of the encoder: the end of the
    text, a comma or a line feed. *)
Definition delimited (rest : pystr) : bool :=
  match rest with
  | [] => true
  | c :: _ => (c =? ch_comma) || (c =? ch_lf)
  end.

(** The text the encoder writes for the float [f] is read back as [f] by
    the decoder [o] and holds no carriage return. *)
Definition float_scans `{Interpreter} (o : decoder) (v : json) : Prop :=
  match v with
  | JFloat f =>
      (forall rest, delimited rest = true ->
                    scan_atom o (floatstr f ++ rest) = Got (JFloat f) rest) /\
      Forall (fun c => c <> ch_cr) (floatstr f)
  | _ => True
  end.

(** The same for [json.loads].  Python promises it of [float.__repr__];
    here it is a condition on [Interpreter]. *)
Definition float_reads_back `{Interpreter} : json -> Prop :=
  float_scans json_decoder.

Definition floats_ok `{Interpreter} : json -> Prop := every float_reads_back.

(** The digits of [abs(z)] in base ten, and an integer that [int()] reads
    under the limit [limit]. *)
Definition int_digits (z : Z) : nat := nb_digits (N.to_uint (Z.abs_N z)).

Definition int_fits (limit : nat) (v : json) : Prop :=
  match v with
  | JInt z => exceeds limit (int_digits z) = false
  | _ => True
  end.

(** Arrays and objects are inside one another at most [d] deep. *)
Fixpoint nested_within (d : nat) (v : json) {struct v} : Prop :=
  match v with
  | JList l =>
      match d with
      | O => False
      | S d' =>
          (fix go (l : list json) : Prop :=
             match l with
             | [] => True
             | x :: l' => nested_within d' x /\ go l'
             end) l
      end
  | JDict kxs =>
      match d with
      | O => False
      | S d' =>
          (fix go (kxs : list (pystr * json)) : Prop :=
             match kxs with
             | [] => True
             | kx :: kxs' => nested_within d' (snd kx) /\ go kxs'
             end) kxs
      end
  | _ => True
  end.

(** What holds of every document the decoder [o] returns when it may
    enter [d] arrays and objects. *)
Definition decoded (o : decoder) (d : nat) (v : json) : Prop :=
  wf_json v /\ every (int_fits (max_str_digits o)) v /\ nested_within d v.

(** What reading back one value means, for any nesting and any
    continuation the encoder can produce. *)
Definition read_back `{Interpreter} (o : decoder) (v : json) : Prop :=
  float_scans o v /\
  forall level rest d, delimited rest = true -> nested_within d v ->
    exists n0, forall n, (n0 <= n)%nat ->
      scan_once o d n (dumps_at level v ++ rest) = Got v rest.

(** Valid JSON in the sense of RFC 8259: the grammar [json.loads] reads,
    without the three constants that are not JSON and without the limits
    of an interpreter (a text nests less deep than it is long). *)
Definition rfc8259 : decoder :=
  {| allow_constants := false; max_str_digits := 0 |}.

Definition valid_json `{Interpreter} (text : pystr) : bool :=
  match decode rfc8259 (length text) text with
  | Got _ _ => true
  | _ => false
  end.

(** A value that is not one of the floats [nan], [inf] and [-inf]. *)
Definition finite_float (v : json) : Prop :=
  match v with
  | JFloat S754_nan | JFloat (S754_infinity _) => False
  | _ => True
  end.

(** [open(path, 'w')] does not fail on [path]. *)
Definition writable (path : string) (w : world) : Prop :=
  w_files w !! path <> Some Denied /\ w_refused w !! path = None.

(** No high surrogate directly before a low surrogate. *)
Fixpoint no_surrogate_pair (s : pystr) : bool :=
  match s with
  | a :: r =>
      match r with
      | b :: _ => negb (is_high_surrogate a && is_low_surrogate b)
      | [] => true
      end && no_surrogate_pair r
  | [] => true
  end.

(** What follows a [\uXXXX] escape does not complete a surrogate pair. *)
Definition no_low_escape (X : pystr) : Prop :=
  forall g1 g2 g3 g4 X',
    X = ch_backslash :: 117 :: g1 :: g2 :: g3 :: g4 :: X' ->
    exists u2, decode_hex4 g1 g2 g3 g4 = Some u2 /\ is_low_surrogate u2 = false.

(** The exception [json.loads] ends on, when it returns no value. *)
Definition decoder_exn (r : scan json) : exn :=
  match r with
  | Raised e => e
  | _ => JSONDecodeError
  end.

(** The events a run adds to the log. *)
Definition is_open_write (e : event) : bool :=
  match e with OpenWrite _ => true | _ => false end.

Definition writes_nothing (w w' : world) : Prop :=
  w_files w' = w_files w /\
  exists evs, w_log w' = w_log w ++ evs /\
              forallb (fun e => negb (is_open_write e)) evs = true.

Definition script_dir_of (sys_path0 : string) : string :=
  if bool_decide (sys_path0 = "") then "." else sys_path0.

Definition template_path_of (sys_path0 : string) : string :=
  script_dir_of sys_path0 +:+ "/../template.json".

Definition script_path_of (sys_path0 : string) : string :=
  script_dir_of sys_path0 +:+ "/uploadSettings-enhanced.ps1".

(** The world after more events on the console and the file table. *)
Definition logged (evs : list event) (w : world) : world :=
  World (w_files w) (w_log w ++ evs) (w_os w) (w_refused w).

(** What a run logs up to the call of [json.loads], once both files have
    been read. *)
Definition read_events (template_path script_path : string) : list event :=
  [Print ("Reading PowerShell script from: " +:+ script_path);
   OpenRead script_path;
   Print ("Reading template from: " +:+ template_path);
   OpenRead template_path;
   Print "Parsing template JSON..."].

Definition missing_events : list event :=
  [Print "Updating $fxv#2 variable...";
   Print "[ERROR] Could not find $fxv#2 in template variables"].

Definition update_events (output_path : string) : list event :=
  [Print "Updating $fxv#2 variable...";
   Print "[SUCCESS] Successfully updated $fxv#2";
   Print ("Writing updated template to: " +:+ output_path);
   OpenWrite output_path].

Definition done_events : list event :=
  [Print "[SUCCESS] Template updated successfully!"].

Definition world_of {A} (r : result A) : world :=
  match r with Ret _ w => w | Raise _ w => w end.

(** An event that opens nothing but the script or the template for
    reading and nothing but the output for writing. *)
Definition event_within (template_path script_path output_path : string)
    (ev : event) : Prop :=
  match ev with
  | Print _ => True
  | OpenRead q => q = script_path \/ q = template_path
  | OpenWrite q => q = output_path
  end.

(** ** Concrete inputs *)

(** An interpreter with the limits of an unmodified CPython 3.11 and a
    float conversion that knows one float, 0.0.  The runs below are on
    documents without floats, where it is never consulted. *)
Definition no_floats : Interpreter :=
  {| float_of_literal := fun _ => S754_zero false;
     float_repr := fun _ => py "0.0";
     int_max_str_digits := 4300;
     recursion_depth := 994 |}.

(** A store with the script and the template, every path of which can be
    opened for writing. *)
Definition world_with (os : platform) (script template : pystr) : world :=
  World (<["./uploadSettings-enhanced.ps1" := Text script]>
           (<["./../template.json" := Text template]> ∅)) [] os ∅.

(** [{"variables": {"$fxv#2": "old"}}] *)
Definition tpl_old : pystr :=
  py "{" ++ quoted K_variables ++ py ": {" ++ quoted K_fxv2 ++ py ": "
  ++ quoted (py "old") ++ py "}}".

(** [{"variables": {}}] *)
Definition tpl_empty_vars : pystr :=
  py "{" ++ quoted K_variables ++ py ": {}}".

(** [{"variables": null}] *)
Definition tpl_null_vars : pystr :=
  py "{" ++ quoted K_variables ++ py ": null}".

(** [{"variables": {"$fxv#2": 7, "other": [1, 2]}, "schema": null}] *)
Definition tpl_number : pystr :=
  py "{" ++ quoted K_variables ++ py ": {" ++ quoted K_fxv2 ++ py ": 7, "
  ++ quoted (py "other") ++ py ": [1, 2]}, " ++ quoted (py "schema")
  ++ py ": null}".

(** [Write-Host "hi"], then a Windows line end, then [exit] *)
Definition script_crlf : pystr :=
  py "Write-Host " ++ quoted (py "hi") ++ [ch_cr; ch_lf] ++ py "exit".


(** A float conversion that knows 1.5 (the binary fraction 3 * 2^-1). *)
Definition float_1_5 : spec_float := S754_finite false 3 (-1).

Definition floats_1_5 : Interpreter :=
  {| float_of_literal :=
       fun text => if pystr_eqb text (py "1.5") then float_1_5
                   else S754_zero false;
     float_repr :=
       fun f => match f with
                | S754_finite false 3%positive (-1)%Z => py "1.5"
                | _ => py "0.0"
                end;
     int_max_str_digits := 4300;
     recursion_depth := 994 |}.

(** [{"variables": {"$fxv#2": "old", "ratio": 1.5, "limit": Infinity}}] *)
Definition tpl_floats : pystr :=
  py "{" ++ quoted K_variables ++ py ": {" ++ quoted K_fxv2 ++ py ": "
  ++ quoted (py "old") ++ py ", " ++ quoted (py "ratio") ++ py ": 1.5, "
  ++ quoted (py "limit") ++ py ": Infinity}}".

Definition doc_floats : json :=
  JDict [(K_variables,
          JDict [(K_fxv2, JStr (py "old"));
                 (py "ratio", JFloat float_1_5);
                 (py "limit", JFloat (S754_infinity false))])].

(** The same script with a bare line feed. *)
Definition script_lf : pystr :=
  py "Write-Host " ++ quoted (py "hi") ++ [ch_lf] ++ py "exit".

(** ** More inputs and vocabulary *)


(** U+FEFF, the byte order mark some editors put first in a file. *)
Definition byte_order_mark : N := 65279.


Definition doc_surrogate : json :=
  JDict [(K_variables, JDict [(K_fxv2, JStr (py "old"))]);
         (py "metadata", JDict [(py "note", JStr [55357])])].

(** A store that has the script and no template. *)
Definition world_without_template : world :=
  World (<["./uploadSettings-enhanced.ps1" := Text script_lf]> ∅) [] Posix ∅.

(** [{"variables": {"$fxv#2": "old", "$fxv#2": "older"}}], the target
    key twice. *)
Definition tpl_twice : pystr :=
  py "{" ++ quoted K_variables ++ py ": {" ++ quoted K_fxv2 ++ py ": "
  ++ quoted (py "old") ++ py ", " ++ quoted K_fxv2 ++ py ": "
  ++ quoted (py "older") ++ py "}}".

(** An interpreter whose float conversion knows that 1e400 is too large
    for a float: [float('1e400')] is [inf]. *)
Definition floats_1e400 : Interpreter :=
  {| float_of_literal :=
       fun text => if pystr_eqb text (py "1e400") then S754_infinity false
                   else S754_zero false;
     float_repr := fun _ => py "0.0";
     int_max_str_digits := 4300;
     recursion_depth := 994 |}.

(** [{"variables": {"$fxv#2": "old", "limit": 1e400}}] *)
Definition tpl_1e400 : pystr :=
  py "{" ++ quoted K_variables ++ py ": {" ++ quoted K_fxv2 ++ py ": "
  ++ quoted (py "old") ++ py ", " ++ quoted (py "limit") ++ py ": 1e400}}".



(** The store of [world_with] with the template read-only. *)
Definition world_read_only (os : platform) (script template : pystr) : world :=
  World (<["./uploadSettings-enhanced.ps1" := Text script]>
           (<["./../template.json" := Text template]> ∅)) [] os
        (<["./../template.json" := ReadOnly]> ∅).

(** [{"variables": {"$fxv#2": 111...1}}] with 4301 digits, one more than
    [int()] converts by default. *)
Definition tpl_long_integer : pystr :=
  py "{" ++ quoted K_variables ++ py ": {" ++ quoted K_fxv2 ++ py ": "
  ++ repeat 49 4301 ++ py "}}".

(** 995 arrays, one in the other and the innermost empty. *)
Definition tpl_deep : pystr :=
  repeat 91 995 ++ repeat 93 995.

(** * Properties *)

(** ** Induction on documents *)

Lemma json_ind (P : json -> Prop) :
  P JNull ->
  (forall b, P (JBool b)) ->
  (forall z, P (JInt z)) ->
  (forall f, P (JFloat f)) ->
  (forall s, P (JStr s)) ->
  (forall l, Forall P l -> P (JList l)) ->
  (forall d, Forall (fun kx => P (snd kx)) d -> P (JDict d)) ->
  forall v, P v.
Proof.
  intros Hn Hb Hi Hf Hs Hl Hd.
  refine (fix IH (v : json) : P v :=
            match v with
            | JNull => Hn
            | JBool b => Hb b
            | JInt z => Hi z
            | JFloat f => Hf f
            | JStr s => Hs s
            | JList l =>
                Hl l ((fix all (l : list json) : Forall P l :=
                         match l with
                         | [] => @List.Forall_nil _ _
                         | x :: l' => @List.Forall_cons _ _ x l' (IH x) (all l')
                         end) l)
            | JDict d =>
                Hd d ((fix all (d : list (pystr * json)) :
                         Forall (fun kx => P (snd kx)) d :=
                         match d with
                         | [] => @List.Forall_nil _ _
                         | kx :: d' => @List.Forall_cons _ _ kx d' (IH (snd kx)) (all d')
                         end) d)
            end).
Qed.

Lemma every_here (P : json -> Prop) v : every P v -> P v.
Proof. destruct v; simpl; tauto. Qed.

Lemma every_list (P : json -> Prop) l :
  every P (JList l) <-> P (JList l) /\ Forall (every P) l.
Proof.
  simpl. apply and_iff_compat_l.
  induction l as [ | x l IHl ].
  - split; [ constructor | done ].
  - rewrite List.Forall_cons_iff. tauto.
Qed.

Lemma every_dict (P : json -> Prop) d :
  every P (JDict d) <-> P (JDict d) /\ Forall (fun kx => every P (snd kx)) d.
Proof.
  simpl. apply and_iff_compat_l.
  induction d as [ | x d IHd ].
  - split; [ constructor | done ].
  - rewrite List.Forall_cons_iff. tauto.
Qed.

(** ** Dictionaries *)

Lemma pystr_eqb_eq a b : pystr_eqb a b = true <-> a = b.
Proof. unfold pystr_eqb. apply bool_decide_eq_true. Qed.

Lemma pystr_eqb_refl a : pystr_eqb a a = true.
Proof. by apply pystr_eqb_eq. Qed.

Lemma pystr_eqb_neq a b : a <> b -> pystr_eqb a b = false.
Proof. unfold pystr_eqb. apply bool_decide_eq_false. Qed.

Ltac case_key k k' :=
  let E := fresh "E" in
  destruct (pystr_eqb k k') eqn:E;
  [ apply pystr_eqb_eq in E | apply bool_decide_eq_false in E ].

Lemma dict_get_set_same k v d : dict_get k (dict_set k v d) = Some v.
Proof.
  induction d as [ | [k' v'] d IH ]; simpl.
  - by rewrite pystr_eqb_refl.
  - case_key k k'; simpl.
    + by rewrite (proj2 (pystr_eqb_eq k k') E).
    + by rewrite (pystr_eqb_neq k k') .
Qed.

Lemma dict_get_set_other k k0 v d :
  k0 <> k -> dict_get k0 (dict_set k v d) = dict_get k0 d.
Proof.
  intros Hne. induction d as [ | [k' v'] d IH ]; simpl.
  - by rewrite pystr_eqb_neq.
  - case_key k k'; simpl.
    + subst k'. by rewrite !pystr_eqb_neq.
    + by rewrite IH.
Qed.

Lemma dict_get_key_in k d v : dict_get k d = Some v -> In k (keys d).
Proof.
  induction d as [ | [k' v'] d IH ]; simpl; [ done | ].
  case_key k k'; auto.
Qed.

Lemma dict_get_none k d : dict_get k d = None <-> ~ In k (keys d).
Proof.
  induction d as [ | [k' v'] d IH ]; simpl; [ tauto | ].
  case_key k k'.
  - split; [ done | intros H; destruct H; auto ].
  - rewrite IH. split; [ intros H [? | ?]; auto | tauto ].
Qed.

Lemma keys_dict_set_present k v d :
  In k (keys d) -> keys (dict_set k v d) = keys d.
Proof.
  induction d as [ | [k' v'] d IH ]; simpl; [ done | ].
  intros Hin. case_key k k'; simpl; [ done | ].
  f_equal. apply IH. destruct Hin; [ congruence | done ].
Qed.

Lemma keys_dict_set_absent k v d :
  ~ In k (keys d) -> keys (dict_set k v d) = keys d ++ [k].
Proof.
  induction d as [ | [k' v'] d IH ]; simpl; [ done | ].
  intros Hin. case_key k k'; simpl; [ exfalso; apply Hin; auto | ].
  f_equal. apply IH. tauto.
Qed.

Lemma dict_set_nodup k v d : NoDup (keys d) -> NoDup (keys (dict_set k v d)).
Proof.
  intros Hnd. destruct (dict_get k d) as [ x | ] eqn:E.
  - rewrite keys_dict_set_present; eauto using dict_get_key_in.
  - apply dict_get_none in E. rewrite keys_dict_set_absent by done.
    apply NoDup_app. repeat split; auto.
    + intros x Hx Hx'. apply list_elem_of_In in Hx, Hx'.
      destruct Hx' as [ <- | [] ]. done.
    + apply NoDup_singleton.
Qed.

Lemma dict_set_set k v v' d :
  dict_set k v (dict_set k v' d) = dict_set k v d.
Proof.
  induction d as [ | [k' x] d IH ]; simpl.
  - by rewrite pystr_eqb_refl.
  - case_key k k'; simpl.
    + by rewrite (proj2 (pystr_eqb_eq k k') E).
    + rewrite (pystr_eqb_neq k k') by done. by rewrite IH.
Qed.

Lemma dict_set_values (P : json -> Prop) k v d :
  P v -> Forall (fun kx => P (snd kx)) d ->
  Forall (fun kx => P (snd kx)) (dict_set k v d).
Proof.
  intros Hv. induction 1 as [ | [k' x] d Hx Hd IH ]; simpl.
  - by constructor.
  - case_key k k'; constructor; auto.
Qed.

(** ** The presence test and the assignment *)

Lemma target_value_shape T old :
  target_value T = Some old ->
  exists d vars, T = JDict d /\ dict_get K_variables d = Some (JDict vars) /\
                 dict_get K_fxv2 vars = Some old.
Proof.
  destruct T as [ | | | | | | d ]; try discriminate. simpl.
  destruct (dict_get K_variables d) as [ [ | | | | | | vars ] | ] eqn:E;
    try discriminate.
  intros Hold. by exists d, vars.
Qed.

Lemma has_target_key_true T : has_target T -> has_target_key T = inr true.
Proof.
  intros [old Hold].
  destruct (target_value_shape _ _ Hold) as (d & vars & -> & Hv & Hk).
  unfold has_target_key. simpl. unfold dict_has. rewrite Hv. simpl.
  unfold dict_has. by rewrite Hk.
Qed.

Lemma assign_target_patched T s :
  has_target T -> exists T', assign_target T s = inr T' /\ patched T s T'.
Proof.
  intros [old Hold].
  destruct (target_value_shape _ _ Hold) as (d & vars & -> & Hv & Hk).
  unfold assign_target. simpl. rewrite Hv. simpl. eexists. split; [ done | ].
  exists d, vars,
    (dict_set K_variables (JDict (dict_set K_fxv2 (JStr s) vars)) d),
    (dict_set K_fxv2 (JStr s) vars).
  repeat split; try done.
  - apply dict_get_set_same.
  - apply keys_dict_set_present. eauto using dict_get_key_in.
  - intros k Hk'. by apply dict_get_set_other.
  - apply keys_dict_set_present. eauto using dict_get_key_in.
  - intros k Hk'. by apply dict_get_set_other.
  - apply dict_get_set_same.
Qed.

Lemma has_target_key_outcome T :
  has_target_key T = inr false /\ reports_missing T = true \/
  has_target_key T = inr true /\ reports_missing T = false \/
  has_target_key T = inl TypeError /\ reports_missing T = false.
Proof.
  unfold has_target_key, reports_missing.
  destruct T as [ | | | | s | l | d ]; simpl; auto.
  - destruct (is_substring K_variables s); simpl; auto.
  - destruct (existsb _ l); simpl; auto.
  - unfold dict_has. destruct (dict_get K_variables d) as [ vars | ]; simpl; auto.
    destruct vars as [ | | | | s | l | d' ]; simpl; auto.
    + destruct (is_substring K_fxv2 s); simpl; auto.
    + destruct (existsb _ l); simpl; auto.
    + destruct (dict_has K_fxv2 d'); simpl; auto.
Qed.

Lemma assign_target_without_target T s :
  ~ has_target T -> has_target_key T = inr true ->
  assign_target T s = inl TypeError.
Proof.
  intros Hno. unfold has_target_key, assign_target.
  destruct T as [ | | | | s' | l | d ]; simpl; try discriminate.
  - by destruct (is_substring K_variables s').
  - by destruct (existsb _ l).
  - unfold dict_has. destruct (dict_get K_variables d) as [ vars | ] eqn:Ev;
      simpl; [ | discriminate ].
    destruct vars as [ | | | | s' | l | d' ]; simpl; try done.
    unfold dict_has. destruct (dict_get K_fxv2 d') as [ old | ] eqn:Ek;
      [ | discriminate ].
    exfalso. apply Hno. exists old. simpl. by rewrite Ev.
Qed.

(** ** The encoder, piece by piece *)

Lemma encodable_app a b : encodable (a ++ b) = encodable a && encodable b.
Proof. apply forallb_app. Qed.

Lemma encodable_concat chunks :
  encodable (List.concat chunks) = forallb encodable chunks.
Proof.
  induction chunks as [ | c r IH ]; [ done | ].
  cbn [List.concat forallb]. by rewrite encodable_app, IH.
Qed.

Lemma written_all chunks :
  forallb encodable chunks = true -> written chunks = List.concat chunks.
Proof.
  induction chunks as [ | c r IH ]; [ done | ]. cbn [forallb written].
  intros Hall. apply andb_true_iff in Hall as [ -> Hr ]. by rewrite IH.
Qed.



(** The pieces put together are the text of [json.dumps]. *)
Lemma iterencode_concat `{Interpreter} v level :
  List.concat (iterencode level v) = dumps_at level v.
Proof.
  revert level.
  induction v as [ | b | z | f | s | l IH | d IH ] using json_ind;
    intros level; try (cbn [iterencode List.concat]; by rewrite app_nil_r).
  - destruct l as [ | x xs ]; [ done | ].
    apply Forall_cons in IH as [ IHx IHxs ].
    cbn [iterencode dumps_at]. rewrite !concat_app.
    assert (Hitem : forall buf y,
              (forall level, List.concat (iterencode level y)
                             = dumps_at level y) ->
              List.concat
                match y with
                | JList _ | JDict _ =>
                    buf :: iterencode (Datatypes.S level) y
                | _ => [buf ++ dumps_at (Datatypes.S level) y]
                end
              = buf ++ dumps_at (Datatypes.S level) y).
    { intros buf y Hy. destruct y; cbn [List.concat];
        rewrite ?app_nil_r; try done; by rewrite Hy. }
    rewrite (Hitem _ x IHx). cbn [app]. f_equal.
    rewrite <- app_assoc. do 2 f_equal.
    replace (List.concat [newline_indent level; [93]])
      with (newline_indent level ++ [93]) by (cbn; by rewrite ?app_nil_r).
    f_equal.
    induction IHxs as [ | y ys Hy Hys IHys ]; [ done | ].
    specialize (Hitem (44 :: newline_indent (Datatypes.S level)) y Hy).
    cbn [app] in Hitem. cbn [flat_map]. by rewrite concat_app, Hitem, IHys.
  - destruct d as [ | [ k x ] kxs ]; [ done | ].
    apply Forall_cons in IH as [ IHx IHkxs ].
    cbn [snd] in IHx. cbn [iterencode dumps_at List.concat app fst snd].
    rewrite !concat_app, IHx. cbn [app List.concat]. rewrite ?app_nil_r.
    match goal with
    | |- ?lhs = ?rhs =>
        match lhs with
        | context [ List.concat (flat_map ?F kxs) ] =>
            match rhs with
            | context [ flat_map ?G kxs ] =>
                assert (Hrest : List.concat (flat_map F kxs) = flat_map G kxs)
            end
        end
    end; [ | by rewrite Hrest ].
    induction IHkxs as [ | ky kys Hy Hys IHys ]; [ done | ].
    cbn [flat_map List.concat app]. rewrite concat_app, Hy, IHys.
    by rewrite <- !app_assoc.
Qed.

(** [json.dump] either writes the whole text or stops at the first piece
    that cannot be encoded. *)
Lemma json_dump_outcome `{Interpreter} obj path w :
  json_dump obj path w =
  if encodable (dumps_indent2 obj)
  then Ret tt (set_file path
                 (Text (translate_newlines (w_os w) (dumps_indent2 obj))) w)
  else Raise UnicodeEncodeError
         (set_file path
            (Text (translate_newlines (w_os w) (written (iterencode 0 obj))))
            w).
Proof.
  unfold json_dump, dumps_indent2.
  rewrite <- (iterencode_concat obj 0), encodable_concat.
  destruct (forallb encodable (iterencode 0 obj)) eqn:E; [ | done ].
  by rewrite written_all.
Qed.

(** ** Paths *)

Lemma append_inj_l (a b c : string) : a +:+ b = a +:+ c -> b = c.
Proof. induction a as [ | x a IH ]; simpl; [ done | ]. intros [= H]. auto. Qed.

Lemma script_is_not_template sys_path0 :
  script_path_of sys_path0 <> template_path_of sys_path0.
Proof.
  unfold script_path_of, template_path_of. intros H.
  apply append_inj_l in H. discriminate.
Qed.

(** ** Runs *)

Lemma main_unfold `{Interpreter} sys_path0 argv w :
  main sys_path0 argv w =
  exit_of (update_template (template_path_of sys_path0)
             (script_path_of sys_path0) (template_path_of sys_path0) w).
Proof. reflexivity. Qed.

Lemma log_logged e evs w : log e (logged evs w) = logged (evs ++ [e]) w.
Proof. unfold log, logged. cbn. by rewrite <- app_assoc. Qed.

Lemma log_first e w : log e w = logged [e] w.
Proof. done. Qed.

Lemma w_files_logged evs w : w_files (logged evs w) = w_files w.
Proof. done. Qed.

Lemma w_os_logged evs w : w_os (logged evs w) = w_os w.
Proof. done. Qed.

Lemma set_file_logged path f evs w :
  set_file path f (logged evs w) = logged evs (set_file path f w).
Proof. done. Qed.

Lemma set_file_twice path f g w :
  set_file path f (set_file path g w) = set_file path f w.
Proof. unfold set_file. cbn. by rewrite insert_insert_eq. Qed.

Lemma w_refused_logged evs w : w_refused (logged evs w) = w_refused w.
Proof. done. Qed.

Lemma writable_logged path evs w :
  writable path (logged evs w) <-> writable path w.
Proof. done. Qed.

Lemma writable_set_file path q f w :
  f <> Denied -> writable path w -> writable path (set_file q f w).
Proof.
  intros Hf [ Hfile Hdir ]. split; [ | done ]. cbn.
  destruct (decide (q = path)) as [ -> | Hne ].
  - rewrite lookup_insert_eq. congruence.
  - by rewrite lookup_insert_ne.
Qed.

Lemma writable_cases path w :
  writable path w \/
  exists e, (e = PermissionError \/ e = FileNotFoundError) /\
            open_write path w = Raise e w.
Proof.
  unfold writable, open_write.
  destruct (w_files w !! path) as [ [ body | | ] | ];
    try (right; exists PermissionError; by split; [ left | ]);
    (destruct (w_refused w !! path) as [ [ | ] | ];
     [ right; exists PermissionError; by split; [ left | ]
     | right; exists FileNotFoundError; by split; [ right | ]
     | left; by split ]).
Qed.

Lemma open_write_allowed path w :
  writable path w ->
  open_write path w = Ret tt (set_file path (Text []) (log (OpenWrite path) w)).
Proof.
  intros [ Hp Hdir ]. unfold open_write. rewrite Hdir.
  by destruct (w_files w !! path) as [ [ | | ] | ].
Qed.

Ltac run_unfold :=
  unfold update_template, read_powershell_script, bind, print, lift, ret,
    open_read;
  rewrite log_first, ?log_logged, ?w_files_logged.

Ltac run_with H := rewrite H, ?log_logged, ?w_files_logged.

(** The script is read first: if that read fails, nothing else happens. *)
Lemma update_template_script_fails `{Interpreter} tp sp op w :
  let announce := Print ("Reading PowerShell script from: " +:+ sp) in
  (forall S, w_files w !! sp <> Some (Text S)) ->
  exists e w',
    update_template tp sp op w = Raise e w' /\
    match w_files w !! sp with
    | None => e = FileNotFoundError /\ w' = logged [announce] w
    | Some Denied => e = PermissionError /\ w' = logged [announce] w
    | _ => e = UnicodeDecodeError /\ w' = logged [announce; OpenRead sp] w
    end.
Proof.
  intros announce Hsp. run_unfold.
  destruct (w_files w !! sp) as [ [ S | | ] | ] eqn:E;
    try (by destruct (Hsp S)); do 2 eexists; (split; [ reflexivity | ]); done.
Qed.

(** The template is read second. *)
Lemma update_template_template_fails `{Interpreter} tp sp op w S :
  w_files w !! sp = Some (Text S) ->
  (forall tpl, w_files w !! tp <> Some (Text tpl)) ->
  exists e evs,
    update_template tp sp op w = Raise e (logged evs w) /\
    forallb (fun ev => negb (is_open_write ev)) evs = true.
Proof.
  intros Hsp Htp. run_unfold. run_with Hsp.
  destruct (w_files w !! tp) as [ [ tpl | | ] | ] eqn:E;
    try (by destruct (Htp tpl)); do 2 eexists; (split; [ reflexivity | ]); done.
Qed.

(** Both files are read: what happens next is decided by the decoder, the
    presence test, the assignment and the write, in that order. *)
Section AfterReads.
Context `{Interpreter}.
Variables (tp sp op : string) (w : world) (S tpl : pystr).
Hypothesis Hscript : w_files w !! sp = Some (Text S).
Hypothesis Htemplate : w_files w !! tp = Some (Text tpl).

Lemma run_undecodable :
  (forall T r, json_loads (universal_newlines tpl) <> Got T r) ->
  update_template tp sp op w =
  Raise (decoder_exn (json_loads (universal_newlines tpl)))
    (logged (read_events tp sp) w).
Proof.
  intros Hbad. run_unfold. run_with Hscript. run_with Htemplate.
  destruct (json_loads (universal_newlines tpl)) as [ T r | | e | ] eqn:E.
  - by destruct (Hbad T r).
  - reflexivity.
  - reflexivity.
  - reflexivity.
Qed.

Lemma run_missing T r :
  json_loads (universal_newlines tpl) = Got T r ->
  has_target_key T = inr false ->
  update_template tp sp op w =
  Ret false (logged (read_events tp sp ++ missing_events) w).
Proof.
  intros Hload Hkey. run_unfold.
  run_with Hscript. run_with Htemplate. run_with Hload. run_with Hkey.
  reflexivity.
Qed.

Lemma run_test_raises T r e :
  json_loads (universal_newlines tpl) = Got T r ->
  has_target_key T = inl e ->
  update_template tp sp op w =
  Raise e (logged (read_events tp sp ++ [Print "Updating $fxv#2 variable..."]) w).
Proof.
  intros Hload Hkey. run_unfold.
  run_with Hscript. run_with Htemplate. run_with Hload. run_with Hkey.
  reflexivity.
Qed.

Lemma run_assignment_raises T r e :
  json_loads (universal_newlines tpl) = Got T r ->
  has_target_key T = inr true ->
  assign_target T (universal_newlines S) = inl e ->
  update_template tp sp op w =
  Raise e (logged (read_events tp sp ++ [Print "Updating $fxv#2 variable..."]) w).
Proof.
  intros Hload Hkey Hset. run_unfold.
  run_with Hscript. run_with Htemplate. run_with Hload. run_with Hkey.
  run_with Hset. reflexivity.
Qed.

Lemma run_written T r T' :
  json_loads (universal_newlines tpl) = Got T r ->
  has_target_key T = inr true ->
  assign_target T (universal_newlines S) = inr T' ->
  writable op w ->
  encodable (dumps_indent2 T') = true ->
  update_template tp sp op w =
  Ret true
    (logged (read_events tp sp ++ update_events op ++ done_events)
       (set_file op (Text (translate_newlines (w_os w) (dumps_indent2 T'))) w)).
Proof.
  intros Hload Hkey Hset Hop Henc. run_unfold.
  run_with Hscript. run_with Htemplate. run_with Hload. run_with Hkey.
  run_with Hset. rewrite open_write_allowed by (by apply writable_logged).
  rewrite json_dump_outcome, Henc, !log_logged, !set_file_logged, w_os_logged.
  rewrite set_file_twice, log_logged. reflexivity.
Qed.

Lemma run_cut_short T r T' :
  json_loads (universal_newlines tpl) = Got T r ->
  has_target_key T = inr true ->
  assign_target T (universal_newlines S) = inr T' ->
  writable op w ->
  encodable (dumps_indent2 T') = false ->
  update_template tp sp op w =
  Raise UnicodeEncodeError
    (logged (read_events tp sp ++ update_events op)
       (set_file op (Text (translate_newlines (w_os w)
                             (written (iterencode 0 T')))) w)).
Proof.
  intros Hload Hkey Hset Hop Henc. run_unfold.
  run_with Hscript. run_with Htemplate. run_with Hload. run_with Hkey.
  run_with Hset. rewrite open_write_allowed by (by apply writable_logged).
  rewrite json_dump_outcome, Henc, !log_logged, !set_file_logged, w_os_logged.
  rewrite set_file_twice. reflexivity.
Qed.

Lemma run_output_refused T r T' e :
  json_loads (universal_newlines tpl) = Got T r ->
  has_target_key T = inr true ->
  assign_target T (universal_newlines S) = inr T' ->
  open_write op w = Raise e w ->
  update_template tp sp op w =
  Raise e
    (logged (read_events tp sp
             ++ [Print "Updating $fxv#2 variable...";
                 Print "[SUCCESS] Successfully updated $fxv#2";
                 Print ("Writing updated template to: " +:+ op)]) w).
Proof.
  intros Hload Hkey Hset Hop. run_unfold.
  run_with Hscript. run_with Htemplate. run_with Hload. run_with Hkey.
  run_with Hset. revert Hop. unfold open_write.
  rewrite w_files_logged, w_refused_logged.
  destruct (w_files w !! op) as [ [ | | ] | ];
    try destruct (w_refused w !! op); try done; by intros [= ->].
Qed.


End AfterReads.

Lemma final_exit_of r : final (exit_of r) = world_of r.
Proof. by destruct r. Qed.

Lemma writes_nothing_logged evs w :
  forallb (fun ev => negb (is_open_write ev)) evs = true ->
  writes_nothing w (logged evs w).
Proof. intros Hevs. split; [ done | ]. by exists evs. Qed.

Lemma dict_without_target d :
  dict_get K_variables d = None \/
  (exists vars, dict_get K_variables d = Some (JDict vars) /\
                dict_get K_fxv2 vars = None) ->
  has_target_key (JDict d) = inr false.
Proof.
  unfold has_target_key. simpl. unfold dict_has.
  intros [ -> | (vars & -> & Hk) ]; simpl; [ done | ].
  unfold dict_has. by rewrite Hk.
Qed.

(** C5.  When the script file is missing or cannot be read, the run ends
    with the exception of that first read: exit status 1, the store as it
    was, and a log that shows the announcement of the script read (and the
    open, when the bytes fail to decode) and nothing after it; the template
    is never opened, for reading or for writing. *)
Theorem script_unreadable_stops_before_template
    `{Interpreter} (sys_path0 : string) (argv : list string) (w : world) :
  let sp := script_path_of sys_path0 in
  let announce := Print ("Reading PowerShell script from: " +:+ sp) in
  w_files w !! sp = None \/ w_files w !! sp = Some Denied \/
  w_files w !! sp = Some NotUtf8 ->
  let e := main sys_path0 argv w in
  status e = 1%Z /\
  (uncaught e = Some FileNotFoundError \/ uncaught e = Some PermissionError \/
   uncaught e = Some UnicodeDecodeError) /\
  w_files (final e) = w_files w /\
  (w_log (final e) = w_log w ++ [announce] \/
   w_log (final e) = w_log w ++ [announce; OpenRead sp]).
Proof.
  intros sp announce Hsp e. subst e announce sp. rewrite main_unfold.
  destruct (update_template_script_fails (template_path_of sys_path0)
              (script_path_of sys_path0) (template_path_of sys_path0) w)
    as (x & w' & -> & Hx).
  { intros S HS. rewrite HS in Hsp. by destruct Hsp as [ ? | [ ? | ? ] ]. }
  destruct Hsp as [ Hsp | [ Hsp | Hsp ] ]; rewrite Hsp in Hx;
    destruct Hx as [ -> -> ]; simpl; auto 10.
Qed.

Lemma script_unreadable_witness :
  let w := World (<["./../template.json" := Text tpl_old]> ∅) [] Posix ∅ in
  let e := main (H := no_floats) "" ["tool.py"] w in
  w_files w !! script_path_of "" = None /\
  status e = 1%Z /\ w_files (final e) = w_files w.
Proof.
  intros w e.
  assert (Hsp : w_files w !! script_path_of "" = None) by reflexivity.
  destruct (script_unreadable_stops_before_template
              (H := no_floats) "" ["tool.py"] w (or_introl Hsp))
    as (Hs & _ & Hf & _).
  split; [ exact Hsp | split; [ exact Hs | exact Hf ] ].
Defined.

(** C2.  When the parsed template is an object without [variables], or
    whose [variables] is an object without [$fxv#2], the run ends with exit
    status 1, the store is as it was and no file was opened for writing;
    with a readable script the end is the controlled one: no exception, the
    error message as the last line. *)
Theorem missing_key_writes_nothing
    `{Interpreter} (sys_path0 : string) (argv : list string) (w : world)
    (tpl : pystr) (d : list (pystr * json)) :
  let tp := template_path_of sys_path0 in
  let sp := script_path_of sys_path0 in
  w_files w !! tp = Some (Text tpl) ->
  json_loads (universal_newlines tpl) = Got (JDict d) [] ->
  dict_get K_variables d = None \/
  (exists vars, dict_get K_variables d = Some (JDict vars) /\
                dict_get K_fxv2 vars = None) ->
  let e := main sys_path0 argv w in
  status e = 1%Z /\ writes_nothing w (final e) /\
  (forall S, w_files w !! sp = Some (Text S) ->
             uncaught e = None /\
             final e = logged (read_events tp sp ++ missing_events) w).
Proof.
  intros tp sp Htp Hload Hd e. subst e. rewrite main_unfold. fold tp sp.
  apply dict_without_target in Hd.
  destruct (w_files w !! sp) as [ [ S | | ] | ] eqn:Esp.
  1: { rewrite (run_missing tp sp tp w S tpl Esp Htp _ _ Hload Hd). simpl.
       repeat split; try done. by apply writes_nothing_logged. }
  all: destruct (update_template_script_fails tp sp tp w)
         as (x & w' & -> & Hx); [ intros S HS; congruence | ];
       rewrite Esp in Hx; destruct Hx as [ -> -> ]; simpl;
       repeat split; try done; by apply writes_nothing_logged.
Qed.

Lemma missing_key_witness :
  let w := world_with Posix script_lf tpl_empty_vars in
  let e := main (H := no_floats) "" [] w in
  status e = 1%Z /\ writes_nothing w (final e).
Proof.
  intros w e.
  destruct (missing_key_writes_nothing (H := no_floats) "" [] w
              tpl_empty_vars [(K_variables, JDict [])])
    as (Hs & Hw & _).
  - reflexivity.
  - vm_compute. reflexivity.
  - right. exists []. split; reflexivity.
  - split; [ exact Hs | exact Hw ].
Defined.

(** What a run may touch, whatever the inputs: it opens the script and
    the template for reading, the output for writing, and changes no other
    path of the store. *)
Ltac events_within :=
  repeat first [ apply Forall_nil_2 | apply Forall_cons_2 ]; simpl; auto.

Lemma update_template_footprint `{Interpreter} tp sp op w :
  let w' := world_of (update_template tp sp op w) in
  (forall path, path <> op -> w_files w' !! path = w_files w !! path) /\
  exists evs, w_log w' = w_log w ++ evs /\ Forall (event_within tp sp op) evs.
Proof.
  assert (Hlogged : forall evs, Forall (event_within tp sp op) evs ->
            let w' := logged evs w in
            (forall path, path <> op -> w_files w' !! path = w_files w !! path) /\
            exists evs, w_log w' = w_log w ++ evs /\
                        Forall (event_within tp sp op) evs).
  { intros evs Hevs. split; [ done | by exists evs ]. }
  assert (Hset : forall evs f, Forall (event_within tp sp op) evs ->
            let w' := logged evs (set_file op f w) in
            (forall path, path <> op -> w_files w' !! path = w_files w !! path) /\
            exists evs, w_log w' = w_log w ++ evs /\
                        Forall (event_within tp sp op) evs).
  { intros evs f Hevs. split; [ | by exists evs ].
    intros path Hpath. cbn. by rewrite lookup_insert_ne. }
  assert (Hreads : Forall (event_within tp sp op) (read_events tp sp)).
  { events_within. }
  destruct (w_files w !! sp) as [ [ S | | ] | ] eqn:Esp.
  2-4: destruct (update_template_script_fails tp sp op w)
         as (x & w' & -> & Hx); [ intros S HS; congruence | ];
       rewrite Esp in Hx; destruct Hx as [ -> -> ];
       apply Hlogged; events_within.
  destruct (w_files w !! tp) as [ [ tpl | | ] | ] eqn:Etp.
  2-4: unfold update_template, read_powershell_script, bind, print, open_read;
       rewrite log_first, ?log_logged, ?w_files_logged, Esp,
         ?log_logged, ?w_files_logged, Etp;
       apply Hlogged; events_within.
  destruct (json_loads (universal_newlines tpl)) as [ T r | | e | ] eqn:Eload.
  2-4: rewrite (run_undecodable tp sp op w S tpl Esp Etp)
         by (intros T r; congruence); by apply Hlogged.
  destruct (has_target_key T) as [ x | [ | ] ] eqn:Ekey.
  - rewrite (run_test_raises tp sp op w S tpl Esp Etp _ _ _ Eload Ekey).
    apply Hlogged. apply Forall_app. split; [ done | events_within ].
  - destruct (assign_target T (universal_newlines S)) as [ x | T' ] eqn:Eset.
    + rewrite (run_assignment_raises tp sp op w S tpl Esp Etp _ _ _
                 Eload Ekey Eset).
      apply Hlogged. apply Forall_app. split; [ done | events_within ].
    + assert (Hop : (exists e, open_write op w = Raise e w) \/
                    writable op w).
      { destruct (writable_cases op w) as [ ? | (e & _ & ?) ]; eauto. }
      destruct Hop as [ [ e Hop ] | Hop ].
      * rewrite (run_output_refused tp sp op w S tpl Esp Etp _ _ _ _
                   Eload Ekey Eset Hop).
        apply Hlogged. apply Forall_app.
        split; [ done | events_within ].
      * destruct (encodable (dumps_indent2 T')) eqn:Eenc.
        -- rewrite (run_written tp sp op w S tpl Esp Etp _ _ _
                      Eload Ekey Eset Hop Eenc).
           apply Hset. rewrite !Forall_app.
           repeat split; [ done | | ]; events_within.
        -- rewrite (run_cut_short tp sp op w S tpl Esp Etp _ _ _
                      Eload Ekey Eset Hop Eenc).
           apply Hset. rewrite !Forall_app.
           repeat split; [ done | ]; events_within.
  - rewrite (run_missing tp sp op w S tpl Esp Etp _ _ Eload Ekey).
    apply Hlogged. apply Forall_app. split; [ done | events_within ].
Qed.

(** C10.  The result of the entry point does not depend on [sys.argv]: the
    paths are built from [sys.path[0]] alone (["."] when it is empty), the
    script is [uploadSettings-enhanced.ps1] in that directory, and the
    template read and the output written are the same path
    [../template.json] from there.  A run opens no other path and leaves
    every other path of the store as it was. *)
Theorem main_paths_fixed
    `{Interpreter} (sys_path0 : string) (argv argv' : list string) (w : world) :
  let dir := if bool_decide (sys_path0 = "") then "." else sys_path0 in
  let tp := dir +:+ "/../template.json" in
  let sp := dir +:+ "/uploadSettings-enhanced.ps1" in
  let e := main sys_path0 argv w in
  e = main sys_path0 argv' w /\
  e = exit_of (update_template tp sp tp w) /\
  (forall path, path <> tp -> w_files (final e) !! path = w_files w !! path) /\
  exists evs, w_log (final e) = w_log w ++ evs /\
              Forall (event_within tp sp tp) evs.
Proof.
  intros dir tp sp e. subst e. split; [ reflexivity | ].
  split; [ reflexivity | ].
  change (main sys_path0 argv w) with (exit_of (update_template tp sp tp w)).
  rewrite final_exit_of. apply update_template_footprint.
Qed.

(** The run on a template that has the target, with both files readable:
    the assignment goes through, and the outcome hangs on whether the
    template path, which is the output path, can be opened for writing,
    and then on the encoding of the output. *)
Lemma main_on_target `{Interpreter} sys_path0 argv w S tpl T :
  let tp := template_path_of sys_path0 in
  let sp := script_path_of sys_path0 in
  w_files w !! sp = Some (Text S) ->
  w_files w !! tp = Some (Text tpl) ->
  json_loads (universal_newlines tpl) = Got T [] ->
  has_target T ->
  exists T',
    assign_target T (universal_newlines S) = inr T' /\
    patched T (universal_newlines S) T' /\
    main sys_path0 argv w =
    match w_refused w !! tp with
    | Some r =>
        Exit 1 (Some (refusal_exn r))
          (logged (read_events tp sp
                   ++ [Print "Updating $fxv#2 variable...";
                       Print "[SUCCESS] Successfully updated $fxv#2";
                       Print ("Writing updated template to: " +:+ tp)]) w)
    | None =>
        if encodable (dumps_indent2 T')
        then Exit 0 None
               (logged (read_events tp sp ++ update_events tp ++ done_events)
                  (set_file tp (Text (translate_newlines (w_os w)
                                        (dumps_indent2 T'))) w))
        else Exit 1 (Some UnicodeEncodeError)
               (logged (read_events tp sp ++ update_events tp)
                  (set_file tp
                     (Text (translate_newlines (w_os w)
                              (written (iterencode 0 T')))) w))
    end.
Proof.
  intros tp sp Hsp Htp Hload Htarget.
  destruct (assign_target_patched T (universal_newlines S) Htarget)
    as (T' & Hset & Hpatched).
  exists T'. split; [ done | ]. split; [ done | ].
  rewrite main_unfold. fold tp sp.
  pose proof (has_target_key_true T Htarget) as Hkey.
  destruct (w_refused w !! tp) as [ r | ] eqn:Edir.
  - rewrite (run_output_refused tp sp tp w S tpl Hsp Htp _ _ _ (refusal_exn r)
               Hload Hkey Hset); [ done | ].
    unfold open_write. by rewrite Htp, Edir.
  - assert (Hop : writable tp w) by (split; [ by rewrite Htp | done ]).
    destruct (encodable (dumps_indent2 T')) eqn:Eenc.
    + by rewrite (run_written tp sp tp w S tpl Hsp Htp _ _ _
                    Hload Hkey Hset Hop Eenc).
    + by rewrite (run_cut_short tp sp tp w S tpl Hsp Htp _ _ _
                    Hload Hkey Hset Hop Eenc).
Qed.

(** C3, amended.  For a parsed template without the target, the run never
    changes the store and never opens a file for writing, and ends with
    exit status 1.  With a readable script it ends through the checked
    path -- no exception, the error message last -- exactly when the
    presence test is false: the template is an object without
    [variables], or its [variables] is an object, an array or a string
    that does not contain [$fxv#2], or the template is an array or a
    string that does not contain [variables].  On every other shape
    without the target the test or the assignment raises [TypeError],
    which nothing catches. *)
Theorem absent_target_never_writes
    `{Interpreter} (sys_path0 : string) (argv : list string) (w : world)
    (tpl : pystr) (D : json) :
  let tp := template_path_of sys_path0 in
  let sp := script_path_of sys_path0 in
  w_files w !! tp = Some (Text tpl) ->
  json_loads (universal_newlines tpl) = Got D [] ->
  ~ has_target D ->
  let e := main sys_path0 argv w in
  status e = 1%Z /\ writes_nothing w (final e) /\
  (forall S, w_files w !! sp = Some (Text S) ->
     (reports_missing D = true ->
      uncaught e = None /\
      final e = logged (read_events tp sp ++ missing_events) w) /\
     (reports_missing D = false -> uncaught e = Some TypeError)).
Proof.
  intros tp sp Htp Hload Hno e. subst e. rewrite main_unfold. fold tp sp.
  destruct (w_files w !! sp) as [ [ S | | ] | ] eqn:Esp.
  2-4: destruct (update_template_script_fails tp sp tp w)
         as (x & w' & -> & Hx); [ intros S HS; congruence | ];
       rewrite Esp in Hx; destruct Hx as [ -> -> ]; simpl;
       repeat split; try done; by apply writes_nothing_logged.
  destruct (has_target_key_outcome D) as [ [Hk Hm] | [ [Hk Hm] | [Hk Hm] ] ].
  - rewrite (run_missing tp sp tp w S tpl Esp Htp _ _ Hload Hk). simpl.
    split; [ done | ]. split; [ by apply writes_nothing_logged | ].
    intros S' _. split; [ done | congruence ].
  - rewrite (run_assignment_raises tp sp tp w S tpl Esp Htp _ _ _ Hload Hk
               (assign_target_without_target _ _ Hno Hk)). simpl.
    split; [ done | ]. split; [ by apply writes_nothing_logged | ].
    intros S' _. split; [ congruence | done ].
  - rewrite (run_test_raises tp sp tp w S tpl Esp Htp _ _ _ Hload Hk). simpl.
    split; [ done | ]. split; [ by apply writes_nothing_logged | ].
    intros S' _. split; [ congruence | done ].
Qed.

Lemma absent_target_witness :
  let w := world_with Posix script_lf tpl_empty_vars in
  let e := main (H := no_floats) "" [] w in
  ~ has_target (JDict [(K_variables, JDict [])]) /\
  status e = 1%Z /\ uncaught e = None /\ writes_nothing w (final e).
Proof.
  intros w e.
  assert (Hno : ~ has_target (JDict [(K_variables, JDict [])])).
  { intros [old Hold]. vm_compute in Hold. discriminate. }
  destruct (absent_target_never_writes (H := no_floats) "" [] w
              tpl_empty_vars (JDict [(K_variables, JDict [])]))
    as (Hs & Hw & Hu).
  - reflexivity.
  - vm_compute. reflexivity.
  - exact Hno.
  - destruct (Hu script_lf eq_refl) as [ Hm _ ].
    destruct (Hm eq_refl) as [ Hx _ ].
    split; [ exact Hno | ].
    split; [ exact Hs | split; [ exact Hx | exact Hw ] ].
Defined.

(** C3 as stated fails on [{"variables": null}]: the template parses, has
    no target, and the membership test on [None] raises [TypeError], which
    ends the run uncaught instead of the checked failure. *)
Lemma null_variables_raises_type_error :
  let w := world_with Posix script_lf tpl_null_vars in
  let e := main (H := no_floats) "" [] w in
  json_loads (H := no_floats) (universal_newlines tpl_null_vars)
  = Got (JDict [(K_variables, JNull)]) [] /\
  target_value (JDict [(K_variables, JNull)]) = None /\
  has_target_key (JDict [(K_variables, JNull)]) = inl TypeError /\
  uncaught e = Some TypeError /\
  ~ In (Print "[ERROR] Could not find $fxv#2 in template variables")
       (w_log (final e)).
Proof.
  split; [ vm_compute; reflexivity | ].
  split; [ reflexivity | ].
  split; [ reflexivity | ].
  split; [ vm_compute; reflexivity | ].
  vm_compute. intros [ ? | [ ? | [ ? | [ ? | [ ? | [ ? | [] ] ] ] ] ] ];
    discriminate.
Qed.

(** ** Escaping a string and reading it back *)

Ltac Zify.zify_post_hook ::= Z.to_euclidean_division_equations.

Lemma hexval_hexdigit d : d < 16 -> hexval (hexdigit d) = Some d.
Proof.
  intros Hd. unfold hexval, hexdigit.
  destruct (N.ltb_spec d 10).
  - replace ((48 <=? 48 + d) && (48 + d <=? 57)) with true
      by (symmetry; apply andb_true_iff; split; apply N.leb_le; lia).
    f_equal. lia.
  - replace ((48 <=? 87 + d) && (87 + d <=? 57)) with false
      by (symmetry; apply andb_false_iff; right; apply N.leb_gt; lia).
    replace ((97 <=? 87 + d) && (87 + d <=? 102)) with true
      by (symmetry; apply andb_true_iff; split; apply N.leb_le; lia).
    f_equal. lia.
Qed.

Lemma decode_hex4_hex4 n :
  n < 65536 ->
  decode_hex4 (hexdigit (n / 4096 mod 16)) (hexdigit (n / 256 mod 16))
              (hexdigit (n / 16 mod 16)) (hexdigit (n mod 16)) = Some n.
Proof.
  intros Hn. unfold decode_hex4.
  rewrite !hexval_hexdigit by (apply N.mod_lt; lia).
  f_equal. lia.
Qed.

Lemma scanstring_plain c r :
  c <> 34 -> c <> 92 -> 32 <= c ->
  scanstring (c :: r) = scan_map (cons c) (scanstring r).
Proof.
  intros H1 H2 H3. simpl.
  rewrite (proj2 (N.eqb_neq c 34)), (proj2 (N.eqb_neq c 92)) by done.
  by rewrite (proj2 (N.ltb_ge c 32)).
Qed.

Lemma scanstring_short e ch r :
  e <> 117 -> backslash e = Some ch ->
  scanstring (92 :: e :: r) = scan_map (cons ch) (scanstring r).
Proof.
  intros H1 H2. simpl.
  rewrite (proj2 (N.eqb_neq e 117)) by done. by rewrite H2.
Qed.

Lemma scanstring_u_single h1 h2 h3 h4 n X :
  decode_hex4 h1 h2 h3 h4 = Some n ->
  is_high_surrogate n = false \/ no_low_escape X ->
  scanstring (92 :: 117 :: h1 :: h2 :: h3 :: h4 :: X)
  = scan_map (cons n) (scanstring X).
Proof.
  intros Hdec Hcase.
  change (scanstring (92 :: 117 :: h1 :: h2 :: h3 :: h4 :: X)) with
    (match decode_hex4 h1 h2 h3 h4 with
     | None => Bad
     | Some uni =>
         if is_high_surrogate uni then
           match X with
           | b :: u :: g1 :: g2 :: g3 :: g4 :: r3 =>
               if (b =? 92) && (u =? 117) then
                 match decode_hex4 g1 g2 g3 g4 with
                 | None => Bad
                 | Some uni2 =>
                     if is_low_surrogate uni2 then
                       scan_map
                         (cons (65536 + N.lor (N.shiftl (uni - 55296) 10)
                                              (uni2 - 56320)))
                         (scanstring r3)
                     else scan_map (cons uni) (scanstring X)
                 end
               else scan_map (cons uni) (scanstring X)
           | _ => scan_map (cons uni) (scanstring X)
           end
         else scan_map (cons uni) (scanstring X)
     end).
  rewrite Hdec. destruct (is_high_surrogate n) eqn:Ehigh; [ | done ].
  destruct Hcase as [ ? | Hno ]; [ done | ].
  destruct X as [ | b [ | u [ | g1 [ | g2 [ | g3 [ | g4 r3 ] ] ] ] ] ]; try done.
  destruct (N.eqb_spec b 92) as [ -> | ]; [ | done ].
  destruct (N.eqb_spec u 117) as [ -> | ]; [ | done ].
  destruct (Hno g1 g2 g3 g4 r3 eq_refl) as (u2 & -> & ->). done.
Qed.

Lemma scanstring_u_pair h1 h2 h3 h4 g1 g2 g3 g4 hi lo X :
  decode_hex4 h1 h2 h3 h4 = Some hi ->
  decode_hex4 g1 g2 g3 g4 = Some lo ->
  is_high_surrogate hi = true -> is_low_surrogate lo = true ->
  scanstring (92 :: 117 :: h1 :: h2 :: h3 :: h4
              :: 92 :: 117 :: g1 :: g2 :: g3 :: g4 :: X)
  = scan_map (cons (65536 + N.lor (N.shiftl (hi - 55296) 10) (lo - 56320)))
             (scanstring X).
Proof.
  intros Hh Hg Hhi Hlo.
  change (scanstring (92 :: 117 :: h1 :: h2 :: h3 :: h4
              :: 92 :: 117 :: g1 :: g2 :: g3 :: g4 :: X)) with
    (match decode_hex4 h1 h2 h3 h4 with
     | None => Bad
     | Some uni =>
         if is_high_surrogate uni then
           match decode_hex4 g1 g2 g3 g4 with
           | None => Bad
           | Some uni2 =>
               if is_low_surrogate uni2 then
                 scan_map
                   (cons (65536 + N.lor (N.shiftl (uni - 55296) 10)
                                        (uni2 - 56320)))
                   (scanstring X)
               else scan_map (cons uni)
                      (scanstring (92 :: 117 :: g1 :: g2 :: g3 :: g4 :: X))
           end
         else scan_map (cons uni)
                (scanstring (92 :: 117 :: g1 :: g2 :: g3 :: g4 :: X))
     end).
  by rewrite Hh, Hhi, Hg, Hlo.
Qed.

Lemma lor_shifted x y : y < 1024 -> N.lor (x * 1024) y = x * 1024 + y.
Proof.
  intros Hy. rewrite N.add_nocarry_lxor, N.lxor_lor; try done.
  all: apply N.bits_inj; intros i; rewrite N.land_spec, N.bits_0.
  all: destruct (N.lt_ge_cases i 10) as [ Hi | Hi ].
  all: try (change 1024 with (2 ^ 10); rewrite N.mul_pow2_bits_low by done;
            reflexivity).
  all: rewrite (N.bits_above_log2 y i), andb_false_r; try done.
  all: destruct (N.eq_dec y 0) as [ -> | Hy0 ]; [ simpl; lia | ].
  all: apply N.log2_lt_pow2; [ lia | ].
  all: eapply N.lt_le_trans; [ exact Hy | ].
  all: change 1024 with (2 ^ 10); apply N.pow_le_mono_r; lia.
Qed.

Lemma escape_dct_some c e X :
  escape_dct c = Some e ->
  scanstring (e ++ X) = scan_map (cons c) (scanstring X).
Proof.
  unfold escape_dct.
  repeat match goal with
         | |- context [ N.eqb c ?k ] =>
             destruct (N.eqb_spec c k) as [ -> | ? ];
             [ intros [= <-]; reflexivity | ]
         end.
  destruct (N.ltb_spec c 32) as [ Hc | Hc ]; [ | discriminate ].
  intros [= <-]. unfold u_escape, hex4. cbn [app].
  apply scanstring_u_single.
  - apply decode_hex4_hex4. lia.
  - left. unfold is_high_surrogate. apply andb_false_iff. left.
    apply N.leb_gt. lia.
Qed.

Lemma escape_dct_none c :
  escape_dct c = None -> c <> 34 /\ c <> 92 /\ 32 <= c.
Proof.
  unfold escape_dct.
  repeat match goal with
         | |- context [ N.eqb c ?k ] =>
             destruct (N.eqb_spec c k) as [ -> | ? ]; [ discriminate | ]
         end.
  destruct (N.ltb_spec c 32) as [ Hc | Hc ]; [ discriminate | ]. done.
Qed.

(** [encode_basestring] then [scanstring] is the identity, on every
    string. *)
Lemma scanstring_escape_char c X :
  scanstring (escape_char c ++ X) = scan_map (cons c) (scanstring X).
Proof.
  unfold escape_char. destruct (escape_dct c) as [ e | ] eqn:E.
  - by apply escape_dct_some.
  - destruct (escape_dct_none c E) as (? & ? & ?). by apply scanstring_plain.
Qed.

Lemma scanstring_encode_basestring s rest :
  scanstring (flat_map escape_char s ++ 34 :: rest) = Got s rest.
Proof.
  induction s as [ | c s IH ]; [ done | ].
  cbn [flat_map]. rewrite <- app_assoc, scanstring_escape_char, IH. done.
Qed.

Lemma surrogate_halves c :
  65536 <= c -> c < 1114112 ->
  let n := c - 65536 in
  let hi := N.lor 55296 (N.land (N.shiftr n 10) 1023) in
  let lo := N.lor 56320 (N.land n 1023) in
  hi < 65536 /\ lo < 65536 /\
  is_high_surrogate hi = true /\ is_low_surrogate lo = true /\
  65536 + N.lor (N.shiftl (hi - 55296) 10) (lo - 56320) = c.
Proof.
  intros Hlo Hhi n hi lo.
  assert (Ehi : hi = 55296 + n / 1024).
  { subst hi. change 1023 with (N.ones 10).
    rewrite N.land_ones, N.shiftr_div_pow2. change (2 ^ 10) with 1024.
    rewrite (N.mod_small (n / 1024)) by (subst n; lia).
    change 55296 with (54 * 1024). apply lor_shifted. subst n. lia. }
  assert (Elo : lo = 56320 + n mod 1024).
  { subst lo. change 1023 with (N.ones 10).
    rewrite N.land_ones. change (2 ^ 10) with 1024.
    change 56320 with (55 * 1024). apply lor_shifted. lia. }
  assert (Hn : n < 1048576) by (subst n; lia).
  unfold is_high_surrogate, is_low_surrogate.
  rewrite N.shiftl_mul_pow2. change (2 ^ 10) with 1024.
  rewrite lor_shifted by lia.
  rewrite Ehi, Elo. subst n. repeat split; try lia.
  - apply andb_true_iff. split; apply N.leb_le; lia.
  - apply andb_true_iff. split; apply N.leb_le; lia.
Qed.

(** What comes after an escaped character in the output of
    [encode_basestring_ascii]: the closing quote, or the escape of the next
    character. *)
Lemma no_low_escape_quote rest : no_low_escape (34 :: rest).
Proof. intros g1 g2 g3 g4 X' [=]. Qed.

Lemma no_low_escape_next c X :
  code_point c -> is_low_surrogate c = false ->
  no_low_escape (escape_char_ascii c ++ X).
Proof.
  intros Hc Hlow. unfold escape_char_ascii.
  destruct (escape_dct c) as [ e | ] eqn:E.
  - revert E. unfold escape_dct.
    repeat match goal with
           | |- context [ N.eqb c ?k ] =>
               destruct (N.eqb_spec c k) as [ -> | ? ];
               [ intros [= <-]; intros g1 g2 g3 g4 X' [=] | ]
           end.
    destruct (N.ltb_spec c 32) as [ Hc32 | ? ]; [ | discriminate ].
    intros [= <-] g1 g2 g3 g4 X' [= <- <- <- <- _].
    exists c. split; [ apply decode_hex4_hex4; lia | done ].
  - destruct (escape_dct_none c E) as (? & ? & ?).
    destruct ((32 <=? c) && (c <=? 126)) eqn:Eprint.
    + intros g1 g2 g3 g4 X' [= -> _]. done.
    + destruct (N.ltb_spec c 65536) as [ Hbmp | Hastral ].
      * intros g1 g2 g3 g4 X' [= <- <- <- <- _].
        exists c. split; [ by apply decode_hex4_hex4 | done ].
      * pose proof (surrogate_halves c Hastral Hc) as Hs. cbv zeta in Hs |- *.
        set (hi := N.lor 55296 _) in *.
        destruct Hs as (Hhi & _ & Hhigh & _). clearbody hi.
        intros g1 g2 g3 g4 X'. unfold u_escape, hex4. cbn [app].
        intros [= <- <- <- <- _]. exists hi.
        split; [ by apply decode_hex4_hex4 | ].
        unfold is_high_surrogate in Hhigh.
        apply andb_true_iff in Hhigh as [ _ Hle ]. apply N.leb_le in Hle.
        apply andb_false_iff. left. apply N.leb_gt. lia.
Qed.

Lemma scanstring_escape_char_ascii c X :
  code_point c ->
  (is_high_surrogate c = true -> no_low_escape X) ->
  scanstring (escape_char_ascii c ++ X) = scan_map (cons c) (scanstring X).
Proof.
  intros Hc Hnext. unfold escape_char_ascii.
  destruct (escape_dct c) as [ e | ] eqn:E; [ by apply escape_dct_some | ].
  destruct (escape_dct_none c E) as (? & ? & ?).
  destruct ((32 <=? c) && (c <=? 126)); [ by apply scanstring_plain | ].
  destruct (N.ltb_spec c 65536) as [ Hbmp | Hastral ].
  - unfold u_escape, hex4. cbn [app]. apply scanstring_u_single.
    + by apply decode_hex4_hex4.
    + destruct (is_high_surrogate c); auto.
  - pose proof (surrogate_halves c Hastral Hc) as Hs. cbv zeta in Hs |- *.
    set (hi := N.lor 55296 _) in *. set (lo := N.lor 56320 _) in *.
    destruct Hs as (Hhi & Hlo & Hhigh & Hlow & Hjoin). clearbody hi lo.
    unfold u_escape, hex4. cbn [app].
    erewrite scanstring_u_pair;
      [ | by apply decode_hex4_hex4 | by apply decode_hex4_hex4 | done | done ].
    by rewrite Hjoin.
Qed.

Lemma scanstring_encode_basestring_ascii s rest :
  Forall code_point s -> no_surrogate_pair s = true ->
  scanstring (flat_map escape_char_ascii s ++ 34 :: rest) = Got s rest.
Proof.
  induction s as [ | c s IH ]; [ done | ].
  intros Hcp Hpair. apply Forall_cons in Hcp as [ Hc Hcp ].
  cbn [no_surrogate_pair] in Hpair. apply andb_true_iff in Hpair as [ Hhere Hpair ].
  cbn [flat_map]. rewrite <- app_assoc, scanstring_escape_char_ascii, IH; try done.
  intros Hhigh. destruct s as [ | c2 s ].
  - apply no_low_escape_quote.
  - cbn [flat_map]. rewrite <- app_assoc. apply no_low_escape_next.
    + by apply Forall_cons in Hcp as [ ? _ ].
    + rewrite Hhigh in Hhere. by destruct (is_low_surrogate c2).
Qed.

Lemma slice_of_quoted x : slice_1_m1 (34 :: x ++ [34]) = x.
Proof. unfold slice_1_m1. cbn [tl]. apply removelast_last. Qed.

Lemma json_loads_string_literal `{Interpreter} body s :
  scanstring (body ++ [34]) = Got s [] ->
  json_loads (34 :: body ++ [34]) = Got (JStr s) [].
Proof.
  intros Hscan. unfold json_loads, decode.
  change (skip_ws (34 :: body ++ [34])) with (34 :: body ++ [34]).
  cbn [scan_once]. change (34 =? 123) with false. change (34 =? 91) with false.
  cbn [scan_atom]. change (34 =? 34) with true. cbn iota.
  rewrite Hscan. reflexivity.
Qed.

(** C9, amended.  For every string of code points in which no high
    surrogate stands directly before a low surrogate, putting
    [escape_for_json(s)] between double quotes and decoding it as JSON
    gives [s] back. *)
Theorem escape_for_json_round_trip `{Interpreter} (s : pystr) :
  Forall code_point s ->
  no_surrogate_pair s = true ->
  json_loads (quoted (escape_for_json s)) = Got (JStr s) [].
Proof.
  intros Hcp Hpair. unfold quoted. apply json_loads_string_literal.
  unfold escape_for_json, json_dumps_str, encode_basestring_ascii.
  rewrite slice_of_quoted. by apply scanstring_encode_basestring_ascii.
Qed.

Lemma escape_for_json_witness :
  let s := py "say " ++ quoted (py "hi")
           ++ [ch_backslash; ch_lf; 233; 128512; 55357] in
  Forall code_point s /\ no_surrogate_pair s = true /\
  json_loads (H := no_floats) (quoted (escape_for_json s)) = Got (JStr s) [].
Proof.
  intros s.
  assert (Hcp : Forall code_point s) by (unfold code_point; repeat constructor).
  assert (Hpair : no_surrogate_pair s = true) by reflexivity.
  split; [ exact Hcp | split; [ exact Hpair | ] ].
  exact (escape_for_json_round_trip (H := no_floats) s Hcp Hpair).
Defined.

(** C9 as stated fails on a string made of a high surrogate followed by a
    low surrogate: the two escapes are read back as one code point. *)
Lemma surrogate_pair_not_restored :
  let s := [55357; 56832] in
  Forall code_point s /\
  escape_for_json s = py "\ud83d\ude00" /\
  json_loads (H := no_floats) (quoted (escape_for_json s))
  = Got (JStr [128512]) [] /\
  [128512] <> s.
Proof.
  split; [ unfold code_point; repeat constructor | ].
  split; [ vm_compute; reflexivity | ].
  split; [ vm_compute; reflexivity | discriminate ].
Qed.

Local Open Scope nat_scope.


(** ** The decoder: fuel *)

Lemma scan_map_fuel {A B} (f : A -> B) (r : scan A) :
  scan_map f r = OutOfFuel <-> r = OutOfFuel.
Proof. by destruct r. Qed.

Ltac break_match :=
  match goal with
  | |- context [ match ?x with _ => _ end ] =>
      match type of x with
      | sumbool _ _ => fail 1
      | _ => destruct x eqn:?
      end
  end.

Section Decoder.
Context `{Interpreter}.
Variable o : decoder.

Lemma scan_once_S d n s :
  scan_once o d (S n) s =
  match s with
  | [] => Bad
  | c :: r =>
      if (c =? 123)%N then
        match d with
        | O => Raised RecursionError
        | S d' =>
            match skip_ws r with
            | c1 :: r1 =>
                if (c1 =? 125)%N then Got (JDict []) r1
                else if (c1 =? 34)%N then
                  scan_map (fun ps => JDict (dict_of_pairs ps))
                           (scan_pairs o d' n r1)
                else Bad
            | [] => Bad
            end
        end
      else if (c =? 91)%N then
        match d with
        | O => Raised RecursionError
        | S d' =>
            match skip_ws r with
            | c1 :: r1 =>
                if (c1 =? 93)%N then Got (JList []) r1
                else scan_map JList (scan_items o d' n (c1 :: r1))
            | [] => Bad
            end
        end
      else scan_atom o s
  end.
Proof. reflexivity. Qed.

Lemma scan_items_S d n s :
  scan_items o d (S n) s =
  match scan_once o d n s with
  | Got v r =>
      match skip_ws r with
      | c :: r1 =>
          if (c =? 93)%N then Got [v] r1
          else if (c =? 44)%N
          then scan_map (cons v) (scan_items o d n (skip_ws r1))
          else Bad
      | [] => Bad
      end
  | Bad => Bad
  | Raised e => Raised e
  | OutOfFuel => OutOfFuel
  end.
Proof. reflexivity. Qed.

Lemma scan_pairs_S d n s :
  scan_pairs o d (S n) s =
  match scanstring s with
  | Got k r =>
      match skip_ws r with
      | c :: r1 =>
          if (c =? 58)%N then
            match scan_once o d n (skip_ws r1) with
            | Got v r2 =>
                match skip_ws r2 with
                | c2 :: r3 =>
                    if (c2 =? 125)%N then Got [(k, v)] r3
                    else if (c2 =? 44)%N then
                      match skip_ws r3 with
                      | q :: r4 =>
                          if (q =? 34)%N
                          then scan_map (cons (k, v)) (scan_pairs o d n r4)
                          else Bad
                      | [] => Bad
                      end
                    else Bad
                | [] => Bad
                end
            | Bad => Bad
            | Raised e => Raised e
            | OutOfFuel => OutOfFuel
            end
          else Bad
      | [] => Bad
      end
  | Bad => Bad
  | Raised e => Raised e
  | OutOfFuel => OutOfFuel
  end.
Proof. reflexivity. Qed.

(** More fuel does not change an answer. *)
Lemma scan_fuel_step n :
  (forall d s, scan_once o d n s <> OutOfFuel ->
               scan_once o d (S n) s = scan_once o d n s) /\
  (forall d s, scan_items o d n s <> OutOfFuel ->
               scan_items o d (S n) s = scan_items o d n s) /\
  (forall d s, scan_pairs o d n s <> OutOfFuel ->
               scan_pairs o d (S n) s = scan_pairs o d n s).
Proof.
  induction n as [ | n (IHo & IHi & IHp) ]; [ by repeat split | ].
  repeat split; intros d s.
  - rewrite (scan_once_S d (S n)), (scan_once_S d n).
    repeat (break_match; try done).
    + rewrite scan_map_fuel. intros Hne. by rewrite IHp.
    + rewrite scan_map_fuel. intros Hne. by rewrite IHi.
  - rewrite (scan_items_S d (S n)), (scan_items_S d n).
    destruct (scan_once o d n s) as [ v r | | e | ] eqn:Eo; [ | | | done ].
    + rewrite IHo, Eo by (by rewrite Eo).
      repeat (break_match; try done).
      rewrite scan_map_fuel. intros Hne. by rewrite IHi.
    + by rewrite IHo, Eo by (by rewrite Eo).
    + by rewrite IHo, Eo by (by rewrite Eo).
  - rewrite (scan_pairs_S d (S n)), (scan_pairs_S d n).
    destruct (scanstring s) as [ k r | | e | ]; try done.
    destruct (skip_ws r) as [ | c r1 ]; try done.
    destruct (c =? 58)%N; try done.
    destruct (scan_once o d n (skip_ws r1)) as [ v r2 | | e | ] eqn:Eo;
      [ | | | done ].
    + rewrite IHo, Eo by (by rewrite Eo).
      repeat (break_match; try done).
      rewrite scan_map_fuel. intros Hne. by rewrite IHp.
    + by rewrite IHo, Eo by (by rewrite Eo).
    + by rewrite IHo, Eo by (by rewrite Eo).
Qed.

Lemma scan_once_fuel_mono d n m s :
  n <= m -> scan_once o d n s <> OutOfFuel ->
  scan_once o d m s = scan_once o d n s.
Proof.
  induction 1 as [ | m Hle IH ]; [ done | ].
  intros Hne. rewrite <- (IH Hne).
  apply scan_fuel_step. by rewrite (IH Hne).
Qed.


(** Every scanner that answers has consumed something. *)
Lemma scan_map_got {A B} (f : A -> B) (r : scan A) b rest :
  scan_map f r = Got b rest -> exists a, r = Got a rest /\ b = f a.
Proof. destruct r as [ a rest' | | e | ]; try done. intros [= <- <-]. eauto. Qed.

Lemma skip_ws_length s : length (skip_ws s) <= length s.
Proof.
  induction s as [ | c s IH ]; simpl; [ lia | ].
  destruct (is_ws c); simpl; lia.
Qed.

Lemma scanstring_cons c r :
  scanstring (c :: r) =
  if (c =? 34)%N then Got [] r
  else if (c =? 92)%N then
    match r with
    | [] => Bad
    | e :: r1 =>
        if (e =? 117)%N then
          match r1 with
          | h1 :: h2 :: h3 :: h4 :: r2 =>
              match decode_hex4 h1 h2 h3 h4 with
              | None => Bad
              | Some uni =>
                  if is_high_surrogate uni then
                    match r2 with
                    | b :: u :: g1 :: g2 :: g3 :: g4 :: r3 =>
                        if ((b =? 92) && (u =? 117))%N then
                          match decode_hex4 g1 g2 g3 g4 with
                          | None => Bad
                          | Some uni2 =>
                              if is_low_surrogate uni2 then
                                scan_map
                                  (cons (65536 + N.lor
                                           (N.shiftl (uni - 55296) 10)
                                           (uni2 - 56320))%N)
                                  (scanstring r3)
                              else scan_map (cons uni) (scanstring r2)
                          end
                        else scan_map (cons uni) (scanstring r2)
                    | _ => scan_map (cons uni) (scanstring r2)
                    end
                  else scan_map (cons uni) (scanstring r2)
              end
          | _ => Bad
          end
        else
          match backslash e with
          | Some ch => scan_map (cons ch) (scanstring r1)
          | None => Bad
          end
    end
  else if (c <? 32)%N then Bad
  else scan_map (cons c) (scanstring r).
Proof. reflexivity. Qed.

Lemma scanstring_consumes s k r :
  scanstring s = Got k r -> length r < length s.
Proof.
  remember (length s) as n eqn:En. revert s k r En.
  induction n as [ n IH ] using lt_wf_ind. intros s k r En.
  destruct s as [ | c s ]; [ done | ]. rewrite scanstring_cons.
  assert (Hrec : forall x s' k', length s' < n ->
            scan_map (cons x) (scanstring s') = Got k' r ->
            length r < length s').
  { intros x s' k' Hlt Hscan. apply scan_map_got in Hscan as (k0 & Hk0 & _).
    by apply (IH (length s') Hlt s' k0 r). }
  repeat (break_match; try done); subst n; cbn [length] in *;
    try (intros [= _ <-]; cbn [length]; lia);
    intros Hscan; eapply Hrec in Hscan; cbn [length] in *; lia.
Qed.

Lemma scanstring_answers s : scanstring s <> OutOfFuel.
Proof.
  remember (length s) as m eqn:Em. revert s Em.
  induction m as [ m IH ] using lt_wf_ind. intros s Em.
  destruct s as [ | c s ]; [ done | ]. rewrite scanstring_cons.
  assert (Hrec : forall x s', length s' < m ->
            scan_map (cons x) (scanstring s') <> OutOfFuel).
  { intros x s' Hlt. rewrite scan_map_fuel. by apply (IH (length s')). }
  repeat (break_match; try done); subst m; cbn [length] in *;
    apply Hrec; cbn [length]; lia.
Qed.

Lemma span_digits_length s ds r :
  span_digits s = (ds, r) -> length s = length ds + length r.
Proof.
  revert ds r. induction s as [ | c s IH ]; simpl; intros ds r.
  - by intros [= <- <-].
  - destruct (is_digit c); [ | by intros [= <- <-] ].
    destruct (span_digits s) as [ ds' r' ]. intros [= <- <-].
    simpl. rewrite (IH ds' r' eq_refl). lia.
Qed.

Lemma match_integer_consumes s ds r :
  match_integer s = Some (ds, r) -> length r < length s.
Proof.
  destruct s as [ | c s ]; simpl; [ done | ].
  destruct (c =? 48)%N; [ intros [= _ <-]; lia | ].
  destruct (is_digit c); [ | done ].
  destruct (span_digits s) as [ ds' r' ] eqn:E. intros [= _ <-].
  apply span_digits_length in E. lia.
Qed.

Lemma match_frac_length s f r : match_frac s = (f, r) -> length r <= length s.
Proof.
  destruct s as [ | dot [ | d s ] ]; simpl; try by intros [= _ <-].
  destruct ((dot =? 46)%N && is_digit d); [ | by intros [= _ <-] ].
  destruct (span_digits s) as [ ds' r' ] eqn:E. intros [= _ <-].
  apply span_digits_length in E. lia.
Qed.

Lemma match_exp_length s x r : match_exp s = (x, r) -> length r <= length s.
Proof.
  destruct s as [ | e s ]; simpl; [ by intros [= _ <-] | ].
  destruct ((e =? 101)%N || (e =? 69)%N); [ | by intros [= _ <-] ].
  destruct s as [ | c s' ]; simpl; [ by intros [= _ <-] | ].
  destruct ((c =? 45)%N || (c =? 43)%N).
  - destruct (span_digits s') as [ [ | d ds ] r' ] eqn:E;
      intros [= _ <-]; [ simpl; lia | ].
    apply span_digits_length in E. simpl in *. lia.
  - destruct (span_digits (c :: s')) as [ [ | d ds ] r' ] eqn:E;
      intros [= _ <-]; [ simpl; lia | ].
    apply span_digits_length in E. simpl in *. lia.
Qed.


Lemma match_number_consumes s v r :
  match_number s = Some (v, r) -> length r < length s.
Proof.
  unfold match_number.
  set (p := match s with
            | c :: r0 => if (c =? 45)%N then (true, r0) else (false, s)
            | [] => (false, s)
            end).
  assert (Hp : length (snd p) <= length s).
  { subst p. destruct s as [ | c r0 ]; simpl; [ lia | ].
    destruct (c =? 45)%N; simpl; lia. }
  destruct p as [ neg s1 ]. simpl in Hp.
  destruct (match_integer s1) as [ [ ds r1 ] | ] eqn:Ei; [ | done ].
  apply match_integer_consumes in Ei.
  destruct (match_frac r1) as [ frac r2 ] eqn:Ef. apply match_frac_length in Ef.
  destruct (match_exp r2) as [ ex r3 ] eqn:Ee. apply match_exp_length in Ee.
  destruct frac, ex; intros [= _ <-]; lia.
Qed.

Lemma scan_atom_consumes s v r :
  scan_atom o s = Got v r -> length r < length s.
Proof.
  unfold scan_atom. destruct s as [ | c s ]; [ done | ].
  destruct (c =? 34)%N.
  { intros Hs. apply scan_map_got in Hs as (k & Hk & _).
    apply scanstring_consumes in Hk. simpl. lia. }
  repeat (break_match; try done);
    try (intros [= _ <-]; cbn [length]; rewrite length_skipn; lia).
  all: intros [= <- <-]; subst; eapply match_number_consumes; eauto.
Qed.

Lemma scan_consumes n :
  (forall d s v r, scan_once o d n s = Got v r -> length r < length s) /\
  (forall d s l r, scan_items o d n s = Got l r -> length r < length s) /\
  (forall d s ps r, scan_pairs o d n s = Got ps r -> length r < length s).
Proof.
  induction n as [ | n (IHo & IHi & IHp) ]; [ by repeat split | ].
  repeat split; intros d s.
  - intros v r. rewrite scan_once_S.
    destruct s as [ | c s ]; [ done | ].
    destruct (c =? 123)%N; [ | destruct (c =? 91)%N ].
    + destruct d as [ | d' ]; [ done | ].
      pose proof (skip_ws_length s) as Hws.
      destruct (skip_ws s) as [ | c1 r1 ]; [ done | ]. cbn [length] in *.
      destruct (c1 =? 125)%N; [ intros [= _ <-]; lia | ].
      destruct (c1 =? 34)%N; [ | done ].
      intros Hs. apply scan_map_got in Hs as (ps & Hps & _).
      apply IHp in Hps. lia.
    + destruct d as [ | d' ]; [ done | ].
      pose proof (skip_ws_length s) as Hws.
      destruct (skip_ws s) as [ | c1 r1 ]; [ done | ]. cbn [length] in *.
      destruct (c1 =? 93)%N; [ intros [= _ <-]; lia | ].
      intros Hs. apply scan_map_got in Hs as (l & Hl & _).
      apply IHi in Hl. cbn [length] in *. lia.
    + apply scan_atom_consumes.
  - intros l r. rewrite scan_items_S.
    destruct (scan_once o d n s) as [ v r0 | | e | ] eqn:Eo; try done.
    apply IHo in Eo. pose proof (skip_ws_length r0) as Hws.
    destruct (skip_ws r0) as [ | c r1 ]; [ done | ]. cbn [length] in *.
    destruct (c =? 93)%N; [ intros [= _ <-]; lia | ].
    destruct (c =? 44)%N; [ | done ].
    intros Hs. apply scan_map_got in Hs as (l' & Hl & _).
    apply IHi in Hl. pose proof (skip_ws_length r1). lia.
  - intros ps r. rewrite scan_pairs_S.
    destruct (scanstring s) as [ k r0 | | e | ] eqn:Ek; try done.
    apply scanstring_consumes in Ek. pose proof (skip_ws_length r0) as Hws.
    destruct (skip_ws r0) as [ | c r1 ]; [ done | ]. cbn [length] in *.
    destruct (c =? 58)%N; [ | done ].
    destruct (scan_once o d n (skip_ws r1)) as [ v r2 | | e | ] eqn:Eo;
      try done.
    apply IHo in Eo. pose proof (skip_ws_length r1) as Hws1.
    pose proof (skip_ws_length r2) as Hws2.
    destruct (skip_ws r2) as [ | c2 r3 ]; [ done | ]. cbn [length] in *.
    destruct (c2 =? 125)%N; [ intros [= _ <-]; lia | ].
    destruct (c2 =? 44)%N; [ | done ].
    pose proof (skip_ws_length r3) as Hws3.
    destruct (skip_ws r3) as [ | q r4 ]; [ done | ]. cbn [length] in *.
    destruct (q =? 34)%N; [ | done ].
    intros Hs. apply scan_map_got in Hs as (ps' & Hps & _).
    apply IHp in Hps. lia.
Qed.

(** With a budget above twice the length of the text no scanner runs out
    of fuel. *)
Lemma scan_enough_fuel n :
  (forall d s, 2 * length s < n -> scan_once o d n s <> OutOfFuel) /\
  (forall d s, 2 * length s + 1 < n -> scan_items o d n s <> OutOfFuel) /\
  (forall d s, 2 * length s + 2 < n -> scan_pairs o d n s <> OutOfFuel).
Proof.
  induction n as [ | n (IHo & IHi & IHp) ]; [ repeat split; intros; lia | ].
  repeat split; intros d s Hn.
  - rewrite scan_once_S. destruct s as [ | c s ]; [ done | ].
    pose proof (skip_ws_length s) as Hws. cbn [length] in *.
    destruct (c =? 123)%N; [ | destruct (c =? 91)%N ].
    + destruct d as [ | d' ]; [ done | ].
      destruct (skip_ws s) as [ | c1 r1 ]; [ done | ]. cbn [length] in *.
      destruct (c1 =? 125)%N; [ done | ].
      destruct (c1 =? 34)%N; [ | done ].
      rewrite scan_map_fuel. apply IHp. lia.
    + destruct d as [ | d' ]; [ done | ].
      destruct (skip_ws s) as [ | c1 r1 ] eqn:E; [ done | ].
      destruct (c1 =? 93)%N; [ done | ].
      rewrite scan_map_fuel. apply IHi. cbn [length] in *. lia.
    + unfold scan_atom. destruct (c =? 34)%N.
      * rewrite scan_map_fuel. apply scanstring_answers.
      * repeat (break_match; try done).
  - rewrite scan_items_S.
    destruct (scan_once o d n s) as [ v r0 | | e | ] eqn:Eo; try done.
    + apply (proj1 (scan_consumes n)) in Eo.
      pose proof (skip_ws_length r0) as Hws.
      destruct (skip_ws r0) as [ | c r1 ]; [ done | ]. cbn [length] in *.
      destruct (c =? 93)%N; [ done | ].
      destruct (c =? 44)%N; [ | done ].
      rewrite scan_map_fuel. apply IHi. pose proof (skip_ws_length r1). lia.
    + apply IHo in Eo; [ done | lia ].
  - rewrite scan_pairs_S.
    destruct (scanstring s) as [ k r0 | | e | ] eqn:Ek; try done.
    + apply scanstring_consumes in Ek. pose proof (skip_ws_length r0) as Hws.
      destruct (skip_ws r0) as [ | c r1 ]; [ done | ]. cbn [length] in *.
      destruct (c =? 58)%N; [ | done ].
      pose proof (skip_ws_length r1) as Hws1.
      destruct (scan_once o d n (skip_ws r1)) as [ v r2 | | e | ] eqn:Eo;
        try done.
      * apply (proj1 (scan_consumes n)) in Eo.
        pose proof (skip_ws_length r2) as Hws2.
        destruct (skip_ws r2) as [ | c2 r3 ]; [ done | ]. cbn [length] in *.
        destruct (c2 =? 125)%N; [ done | ].
        destruct (c2 =? 44)%N; [ | done ].
        pose proof (skip_ws_length r3) as Hws3.
        destruct (skip_ws r3) as [ | q r4 ]; [ done | ]. cbn [length] in *.
        destruct (q =? 34)%N; [ | done ].
        rewrite scan_map_fuel. apply IHp. lia.
      * apply IHo in Eo; [ done | lia ].
    + by apply scanstring_answers in Ek.
Qed.


(** A value found with some budget is the value the decoder finds. *)
Lemma decode_from_scan d n text v :
  scan_once o d n (skip_ws text) = Got v [] -> decode o d text = Got v [].
Proof.
  intros Hscan. unfold decode.
  set (m := S (2 * length text)).
  assert (Hm : scan_once o d m (skip_ws text) <> OutOfFuel).
  { apply scan_enough_fuel. pose proof (skip_ws_length text). lia. }
  destruct (Nat.le_ge_cases n m) as [ Hle | Hle ].
  - rewrite (scan_once_fuel_mono d n m _ Hle), Hscan; [ done | ].
    by rewrite Hscan.
  - rewrite <- (scan_once_fuel_mono d m n _ Hle Hm), Hscan. done.
Qed.

End Decoder.


Lemma json_loads_from_scan `{Interpreter} n text v :
  scan_once json_decoder recursion_depth n (skip_ws text) = Got v [] ->
  json_loads text = Got v [].
Proof. apply decode_from_scan. Qed.

Local Open Scope N_scope.


(** ** The decoder on the output of the encoder *)

Lemma skip_ws_head c r : is_ws c = false -> skip_ws (c :: r) = c :: r.
Proof. intros Hc. simpl. by rewrite Hc. Qed.

Lemma skip_ws_spaces n X : skip_ws (repeat 32 n ++ X) = skip_ws X.
Proof. induction n as [ | n IH ]; [ done | ]. simpl. exact IH. Qed.

Lemma skip_ws_newline_indent level X :
  skip_ws (newline_indent level ++ X) = skip_ws X.
Proof. unfold newline_indent. simpl. apply skip_ws_spaces. Qed.

(** *** Integers *)

Lemma chars_of_uint_digits u :
  Forall (fun c => is_digit c = true) (chars_of_uint u).
Proof. induction u; simpl; constructor; done. Qed.

Lemma uint_of_chars_of_uint u : uint_of_digits (chars_of_uint u) = u.
Proof. induction u; simpl; congruence. Qed.

Lemma span_digits_app ds rest :
  Forall (fun c => is_digit c = true) ds ->
  match rest with [] => True | c :: _ => is_digit c = false end ->
  span_digits (ds ++ rest) = (ds, rest).
Proof.
  intros Hds Hrest. induction Hds as [ | c ds Hc Hds IH ]; simpl.
  - destruct rest as [ | c r ]; [ done | ]. simpl. by rewrite Hrest.
  - by rewrite Hc, IH.
Qed.

Lemma positive_digits p :
  exists c ds, chars_of_uint (N.to_uint (Npos p)) = c :: ds /\
               is_digit c = true /\ c <> 48.
Proof.
  set (u := N.to_uint (Npos p)).
  assert (Hnorm : u = unorm u).
  { subst u. rewrite <- (DecimalN.Unsigned.to_of (N.to_uint (Npos p))).
    by rewrite DecimalN.Unsigned.of_to. }
  assert (Hval : N.of_uint u = Npos p) by apply DecimalN.Unsigned.of_to.
  pose proof (nzhead_nonzero u) as Hnz.
  unfold unorm in Hnorm.
  destruct (nzhead u) as [ | d | d | d | d | d | d | d | d | d | d ] eqn:E;
    rewrite Hnorm; simpl;
    try (do 2 eexists; split; [ reflexivity | split; done ]).
  - rewrite Hnorm in Hval. discriminate.
  - by destruct (Hnz d).
Qed.

Lemma delimited_not_digit rest :
  delimited rest = true ->
  match rest with [] => True | c :: _ => is_digit c = false end.
Proof.
  destruct rest as [ | c r ]; [ done | ]. simpl.
  intros Hd. apply orb_true_iff in Hd as [ Hc | Hc ];
    apply N.eqb_eq in Hc; by subst c.
Qed.

Lemma match_frac_delimited rest :
  delimited rest = true -> match_frac rest = ([], rest).
Proof.
  destruct rest as [ | c [ | d r ] ]; try done. simpl.
  intros Hd. apply orb_true_iff in Hd as [ Hc | Hc ];
    apply N.eqb_eq in Hc; by subst c.
Qed.

Lemma match_exp_delimited rest :
  delimited rest = true -> match_exp rest = ([], rest).
Proof.
  destruct rest as [ | c r ]; try done. simpl.
  intros Hd. apply orb_true_iff in Hd as [ Hc | Hc ];
    apply N.eqb_eq in Hc; by subst c.
Qed.

Lemma match_integer_digits c ds rest :
  is_digit c = true -> c <> 48 ->
  Forall (fun c => is_digit c = true) ds ->
  delimited rest = true ->
  match_integer (c :: ds ++ rest) = Some (c :: ds, rest).
Proof.
  intros Hc Hnz Hds Hrest. unfold match_integer.
  rewrite (proj2 (N.eqb_neq c 48)), Hc by done.
  rewrite span_digits_app; [ done | done | by apply delimited_not_digit ].
Qed.

Lemma starts_with_head a p c r :
  a <> c -> starts_with (a :: p) (c :: r) = false.
Proof. intros Hne. simpl. by rewrite (proj2 (N.eqb_neq a c)). Qed.

Section Atoms.
Context `{Interpreter}.
Variable o : decoder.

Lemma match_number_positive neg p rest :
  delimited rest = true ->
  let ds := chars_of_uint (N.to_uint (Npos p)) in
  match_integer (ds ++ rest) = Some (ds, rest) /\
  int_of_literal neg ds = if neg then Zneg p else Zpos p.
Proof.
  intros Hrest ds. split.
  - destruct (positive_digits p) as (c & ds' & Hds & Hc & Hnz).
    pose proof (chars_of_uint_digits (N.to_uint (Npos p))) as Hall.
    subst ds. rewrite Hds in *. apply Forall_cons in Hall as [ _ Hall ].
    by apply match_integer_digits.
  - unfold int_of_literal. subst ds.
    rewrite uint_of_chars_of_uint, DecimalN.Unsigned.of_to. by destruct neg.
Qed.

Lemma match_number_int_repr z rest :
  delimited rest = true ->
  match_number (int_repr z ++ rest) = Some (JInt z, rest).
Proof.
  intros Hrest. destruct z as [ | p | p ]; unfold int_repr.
  - unfold match_number. cbn [app]. change (48 =? 45) with false.
    cbn [match_integer]. change (48 =? 48) with true. cbn iota.
    by rewrite match_frac_delimited, match_exp_delimited.
  - destruct (match_number_positive false p rest Hrest) as [ Hi Hv ].
    destruct (positive_digits p) as (c & ds' & Hds & Hc & Hnz).
    unfold match_number. rewrite Hds in *. cbn [app] in *.
    assert (Hminus : (c =? 45) = false).
    { apply N.eqb_neq. intros ->. done. }
    rewrite Hminus, Hi, match_frac_delimited, match_exp_delimited by done.
    by rewrite Hv.
  - destruct (match_number_positive true p rest Hrest) as [ Hi Hv ].
    unfold match_number. cbn [app]. change (45 =? 45) with true. cbn iota.
    rewrite Hi, match_frac_delimited, match_exp_delimited by done.
    by rewrite Hv.
Qed.

Lemma int_repr_head z :
  exists c r, int_repr z = c :: r /\ (is_digit c = true \/ c = 45).
Proof.
  destruct z as [ | p | p ]; unfold int_repr.
  - by exists 48, []; auto.
  - destruct (positive_digits p) as (c & ds & -> & Hc & _). eauto.
  - eauto.
Qed.

Lemma length_chars_of_uint u : length (chars_of_uint u) = nb_digits u.
Proof. induction u; simpl; congruence. Qed.

(** The integer part of the text of an integer has the digits of the
    integer. *)
Lemma integer_part_int_repr z rest :
  delimited rest = true ->
  length (integer_part (int_repr z ++ rest)) = int_digits z.
Proof.
  intros Hrest. unfold integer_part, int_digits.
  destruct z as [ | p | p ]; unfold int_repr.
  - done.
  - destruct (match_number_positive false p rest Hrest) as [ Hi _ ].
    destruct (positive_digits p) as (c & ds' & Hds & Hc & Hnz).
    cbn [Z.abs_N Z.abs Z.to_N]. rewrite <- length_chars_of_uint.
    rewrite Hds in *. cbn [app] in *.
    assert (Hminus : (c =? 45) = false).
    { apply N.eqb_neq. intros ->. done. }
    by rewrite Hminus, Hi.
  - destruct (match_number_positive true p rest Hrest) as [ Hi _ ].
    cbn [Z.abs_N Z.abs Z.to_N]. rewrite <- length_chars_of_uint.
    cbn [app]. change (45 =? 45) with true. cbn iota. by rewrite Hi.
Qed.

(** A text that starts with a digit or a minus sign is read as a number
    or not at all. *)
Lemma scan_atom_number c r v rest :
  is_digit c = true \/ c = 45 ->
  match_number (c :: r) = Some (v, rest) ->
  (forall z, v = JInt z ->
     exceeds (max_str_digits o) (length (integer_part (c :: r))) = false) ->
  scan_atom o (c :: r) = Got v rest.
Proof.
  intros Hc Hnum Hfits. unfold scan_atom.
  assert (Hrange : 45 <= c <= 57).
  { destruct Hc as [ Hc | -> ]; [ | lia ]. unfold is_digit in Hc.
    apply andb_true_iff in Hc as [ H1 H2 ].
    apply N.leb_le in H1, H2. lia. }
  rewrite (proj2 (N.eqb_neq c 34)) by lia.
  change (py "null") with (110 :: py "ull").
  change (py "true") with (116 :: py "rue").
  change (py "false") with (102 :: py "alse").
  rewrite !starts_with_head by lia. rewrite Hnum.
  destruct v; try done. by rewrite (Hfits z).
Qed.

Lemma scan_atom_int z rest :
  delimited rest = true ->
  exceeds (max_str_digits o) (int_digits z) = false ->
  scan_atom o (int_repr z ++ rest) = Got (JInt z) rest.
Proof.
  intros Hrest Hfits. pose proof (match_number_int_repr z rest Hrest) as Hnum.
  pose proof (integer_part_int_repr z rest Hrest) as Hlen.
  destruct (int_repr_head z) as (c & r & Hz & Hc). rewrite Hz in *.
  cbn [app] in *. apply scan_atom_number; try done.
  intros _ _. by rewrite Hlen.
Qed.

Lemma scan_atom_str s rest :
  scan_atom o (encode_basestring s ++ rest) = Got (JStr s) rest.
Proof.
  unfold encode_basestring. cbn [app]. unfold scan_atom.
  change (34 =? 34) with true. cbn iota.
  rewrite <- app_assoc. cbn [app].
  by rewrite scanstring_encode_basestring.
Qed.


Lemma scan_once_atom d n c r :
  c <> 123 -> c <> 91 ->
  scan_once o d (S n) (c :: r) = scan_atom o (c :: r).
Proof.
  intros H1 H2. rewrite scan_once_S.
  by rewrite (proj2 (N.eqb_neq c 123)), (proj2 (N.eqb_neq c 91)).
Qed.

(** A text that [scan_atom] accepts starts with neither whitespace nor a
    bracket. *)
Lemma scan_atom_head s v rest :
  scan_atom o s = Got v rest ->
  exists c r, s = c :: r /\ is_ws c = false /\
              c <> 93 /\ c <> 123 /\ c <> 91.
Proof.
  destruct s as [ | c r ]; [ done | ]. intros Hs. exists c, r.
  split; [ done | ].
  assert (Hbad : forall c0, In c0 [32; 9; 10; 13; 93; 123; 91] -> c <> c0).
  { intros c0 Hin ->. revert Hs. simpl in Hin.
    destruct Hin as [ <- | [ <- | [ <- | [ <- | [ <- | [ <- | [ <- | [] ] ] ] ] ] ] ];
      destruct o as [ [ | ] limit ]; vm_compute; discriminate. }
  unfold is_ws.
  rewrite (proj2 (N.eqb_neq c 32)), (proj2 (N.eqb_neq c 9)),
    (proj2 (N.eqb_neq c 10)), (proj2 (N.eqb_neq c 13))
    by (apply Hbad; simpl; tauto).
  repeat split; try done; apply Hbad; simpl; tauto.
Qed.

(** The first character of an encoded value. *)
Lemma dumps_head level v :
  float_scans o v ->
  exists c r, dumps_at level v = c :: r /\ is_ws c = false /\ c <> 93.
Proof.
  destruct v as [ | [ | ] | z | f | s | [ | x xs ] | [ | [k x] kxs ] ];
    try (intros _; do 2 eexists; split; [ reflexivity | done ]).
  - intros _. destruct (int_repr_head z) as (c & r & Hz & Hc).
    exists c, r. split; [ done | ].
    assert (Hrange : 45 <= c <= 57).
    { destruct Hc as [ Hc | -> ]; [ | lia ]. unfold is_digit in Hc.
      apply andb_true_iff in Hc as [ H1 H2 ].
      apply N.leb_le in H1, H2. lia. }
    unfold is_ws.
    rewrite (proj2 (N.eqb_neq c 32)), (proj2 (N.eqb_neq c 9)),
      (proj2 (N.eqb_neq c 10)), (proj2 (N.eqb_neq c 13)) by lia.
    split; [ done | lia ].
  - intros [ Hread _ ]. specialize (Hread [] eq_refl).
    rewrite app_nil_r in Hread.
    destruct (scan_atom_head _ _ _ Hread) as (c & r & Hf & Hws & H93 & _).
    exists c, r. done.
Qed.

Lemma skip_ws_dumps level v X :
  float_scans o v -> skip_ws (dumps_at level v ++ X) = dumps_at level v ++ X.
Proof.
  intros Hv. destruct (dumps_head level v Hv) as (c & r & -> & Hws & _).
  by apply skip_ws_head.
Qed.

Lemma scan_items_dumps L d rest tail xs :
  delimited tail = true -> skip_ws tail = 93 :: rest ->
  forall x, Forall (read_back o) (x :: xs) ->
  Forall (nested_within d) (x :: xs) ->
  exists n0, forall n, (n0 <= n)%nat ->
    scan_items o d n
      (dumps_at L x
       ++ flat_map (fun y => 44 :: newline_indent L ++ dumps_at L y) xs
       ++ tail)
    = Got (x :: xs) rest.
Proof.
  intros Htail Hskip. induction xs as [ | y ys IH ]; intros x Hall Hdeep.
  - apply Forall_cons in Hall as [ [ _ Hx ] _ ].
    apply Forall_cons in Hdeep as [ Hdx _ ].
    destruct (Hx L tail d Htail Hdx) as (n0 & Hn0). exists (S n0).
    intros [ | n ] Hn; [ lia | ]. rewrite scan_items_S. cbn [flat_map app].
    rewrite Hn0 by lia. rewrite Hskip.
    by change (93 =? 93) with true.
  - apply Forall_cons in Hall as [ [ _ Hx ] Hall ].
    apply Forall_cons in Hdeep as [ Hdx Hdeep ].
    destruct (IH y Hall Hdeep) as (n1 & Hn1).
    apply Forall_cons in Hall as [ [ Hy _ ] _ ].
    cbn [flat_map]. rewrite <- !app_assoc. cbn [app].
    rewrite <- !app_assoc.
    set (Y := dumps_at L y ++ flat_map _ ys ++ tail) in *.
    destruct (Hx L (44 :: newline_indent L ++ Y) d eq_refl Hdx)
      as (n0 & Hn0).
    exists (S (Nat.max n0 n1)). intros [ | n ] Hn; [ lia | ].
    rewrite scan_items_S, Hn0 by lia.
    rewrite skip_ws_head by done.
    change (44 =? 93) with false. change (44 =? 44) with true. cbn iota.
    rewrite skip_ws_newline_indent. subst Y.
    rewrite skip_ws_dumps by done. by rewrite Hn1 by lia.
Qed.

Lemma scan_pairs_dumps L d rest tail kxs :
  delimited tail = true -> skip_ws tail = 125 :: rest ->
  forall k x, Forall (fun kx => read_back o (snd kx)) ((k, x) :: kxs) ->
  Forall (fun kx => nested_within d (snd kx)) ((k, x) :: kxs) ->
  exists n0, forall n, (n0 <= n)%nat ->
    scan_pairs o d n
      (flat_map escape_char k ++ 34 :: 58 :: 32 :: dumps_at L x
       ++ flat_map (fun ky => 44 :: newline_indent L
                              ++ encode_basestring (fst ky)
                              ++ 58 :: 32 :: dumps_at L (snd ky)) kxs
       ++ tail)
    = Got ((k, x) :: kxs) rest.
Proof.
  intros Htail Hskip.
  induction kxs as [ | [k' y] kys IH ]; intros k x Hall Hdeep.
  - apply Forall_cons in Hall as [ [ Hfx Hx ] _ ].
    apply Forall_cons in Hdeep as [ Hdx _ ]. cbn [snd] in *.
    destruct (Hx L tail d Htail Hdx) as (n0 & Hn0). exists (S n0).
    intros [ | n ] Hn; [ lia | ]. rewrite scan_pairs_S. cbn [flat_map app].
    rewrite scanstring_encode_basestring.
    rewrite skip_ws_head by done. change (58 =? 58) with true. cbn iota.
    change (skip_ws (32 :: dumps_at L x ++ tail))
      with (skip_ws (dumps_at L x ++ tail)).
    rewrite skip_ws_dumps by done. rewrite Hn0 by lia. rewrite Hskip.
    by change (125 =? 125) with true.
  - apply Forall_cons in Hall as [ [ Hfx Hx ] Hall ].
    apply Forall_cons in Hdeep as [ Hdx Hdeep ]. cbn [snd] in *.
    destruct (IH k' y Hall Hdeep) as (n1 & Hn1).
    cbn [flat_map fst snd]. unfold encode_basestring at 1.
    repeat (rewrite <- !app_assoc; cbn [app]).
    match goal with
    | |- context [ flat_map ?f kys ] =>
        set (Y := flat_map escape_char k' ++ 34 :: 58 :: 32 :: dumps_at L y
                  ++ flat_map f kys ++ tail) in *
    end.
    destruct (Hx L (44 :: newline_indent L ++ 34 :: Y) d eq_refl Hdx)
      as (n0 & Hn0).
    exists (S (Nat.max n0 n1)). intros [ | n ] Hn; [ lia | ].
    rewrite scan_pairs_S, scanstring_encode_basestring.
    rewrite skip_ws_head by done. change (58 =? 58) with true. cbn iota.
    change (skip_ws (32 :: dumps_at L x ++ 44 :: newline_indent L ++ 34 :: Y))
      with (skip_ws (dumps_at L x ++ 44 :: newline_indent L ++ 34 :: Y)).
    rewrite skip_ws_dumps by done. rewrite Hn0 by lia.
    rewrite skip_ws_head by done.
    change (44 =? 125) with false. change (44 =? 44) with true. cbn iota.
    rewrite skip_ws_newline_indent, skip_ws_head by done.
    change (34 =? 34) with true. cbn iota. by rewrite Hn1 by lia.
Qed.

Lemma dict_set_fresh k v d :
  ~ In k (keys d) -> dict_set k v d = d ++ [(k, v)].
Proof.
  induction d as [ | [k' v'] d IH ]; simpl; [ done | ].
  intros Hin. rewrite pystr_eqb_neq by (intros ->; apply Hin; by left).
  f_equal. apply IH. tauto.
Qed.

Lemma dict_of_pairs_nodup d : NoDup (keys d) -> dict_of_pairs d = d.
Proof.
  unfold dict_of_pairs.
  enough (Hgen : forall acc, NoDup (keys (acc ++ d)) ->
            fold_left (fun d kv => dict_set (fst kv) (snd kv) d) d acc
            = acc ++ d) by apply (Hgen []).
  induction d as [ | [k v] d IH ]; intros acc Hnd; simpl.
  - by rewrite app_nil_r.
  - rewrite dict_set_fresh.
    + rewrite IH; rewrite <- app_assoc; done.
    + unfold keys in Hnd. rewrite map_app in Hnd. simpl in Hnd.
      apply NoDup_app in Hnd as (_ & Hdis & _). intros Hin.
      apply (Hdis k); [ by apply list_elem_of_In | left ].
Qed.

Lemma nested_within_list d l :
  nested_within d (JList l) <->
  exists d', d = Datatypes.S d' /\ Forall (nested_within d') l.
Proof.
  destruct d as [ | d' ]; cbn [nested_within].
  - split; [ done | by intros (d' & ? & _) ].
  - split.
    + intros Hl. exists d'. split; [ done | ].
      induction l as [ | x l IHl ]; [ constructor | ].
      destruct Hl as [ Hx Hl ]. constructor; auto.
    + intros (d0 & [= <-] & Hl).
      induction Hl as [ | x l Hx Hl IHl ]; [ done | by split ].
Qed.

Lemma nested_within_dict d kxs :
  nested_within d (JDict kxs) <->
  exists d', d = Datatypes.S d' /\
             Forall (fun kx => nested_within d' (snd kx)) kxs.
Proof.
  destruct d as [ | d' ]; cbn [nested_within].
  - split; [ done | by intros (d' & ? & _) ].
  - split.
    + intros Hl. exists d'. split; [ done | ].
      induction kxs as [ | x l IHl ]; [ constructor | ].
      destruct Hl as [ Hx Hl ]. constructor; auto.
    + intros (d0 & [= <-] & Hl).
      induction Hl as [ | x l Hx Hl IHl ]; [ done | by split ].
Qed.

(** Encoding and decoding a document gives the document back. *)
Lemma scan_once_dumps v :
  wf_json v -> every (float_scans o) v ->
  every (int_fits (max_str_digits o)) v -> read_back o v.
Proof.
  induction v as [ | b | z | f | s | l IH | kxs IH ] using json_ind;
    intros Hwf Hfl Hint;
    (split; [ by apply every_here in Hfl | ]); intros level rest d Hrest Hdeep.
  - exists 1%nat. intros [ | n ] Hn; [ lia | ]. done.
  - exists 1%nat. intros [ | n ] Hn; [ lia | ]. by destruct b.
  - exists 1%nat. intros [ | n ] Hn; [ lia | ]. cbn [dumps_at].
    destruct (int_repr_head z) as (c & r & Hz & Hc).
    apply every_here in Hint. cbn [int_fits] in Hint.
    pose proof (scan_atom_int z rest Hrest Hint) as Hs. rewrite Hz in *.
    cbn [app] in *. rewrite scan_once_atom; [ done | | ].
    all: destruct Hc as [ Hc | -> ]; [ intros ->; done | done ].
  - exists 1%nat. intros [ | n ] Hn; [ lia | ]. cbn [dumps_at].
    apply every_here in Hfl as [ Hread _ ].
    pose proof (Hread rest Hrest) as Hs.
    destruct (scan_atom_head _ _ _ Hs) as (c & r & Hf & _ & _ & H1 & H2).
    rewrite Hf in *. by rewrite scan_once_atom.
  - exists 1%nat. intros [ | n ] Hn; [ lia | ]. cbn [dumps_at].
    pose proof (scan_atom_str s rest) as Hs.
    unfold encode_basestring in *. cbn [app] in *.
    by rewrite scan_once_atom.
  - apply every_list in Hwf as [ _ Hwf ]. apply every_list in Hfl as [ _ Hfl ].
    apply every_list in Hint as [ _ Hint ].
    apply nested_within_list in Hdeep as (d' & -> & Hdeep).
    assert (Hall : Forall (read_back o) l).
    { rewrite Forall_forall in *. intros x Hx.
      apply IH; [ done | by apply Hwf | by apply Hfl | by apply Hint ]. }
    clear IH Hwf Hfl Hint. destruct l as [ | x xs ].
    + exists 1%nat. intros [ | n ] Hn; [ lia | ]. done.
    + destruct (scan_items_dumps (Datatypes.S level) d' rest
                  (newline_indent level ++ 93 :: rest) xs eq_refl) with x
        as (n0 & Hn0); [ | done | done | ].
      { by rewrite skip_ws_newline_indent. }
      exists (Datatypes.S n0). intros [ | n ] Hn; [ lia | ].
      cbn [dumps_at app]. repeat (rewrite <- app_assoc; cbn [app]).
      rewrite scan_once_S.
      change (91 =? 123) with false. change (91 =? 91) with true. cbn iota.
      rewrite skip_ws_newline_indent.
      apply Forall_cons in Hall as [ [ Hfx _ ] _ ].
      destruct (dumps_head (Datatypes.S level) x Hfx)
        as (c & r & Hx & Hws & H93).
      rewrite Hx in *. cbn [app] in *. rewrite skip_ws_head by done.
      rewrite (proj2 (N.eqb_neq c 93)) by done.
      by rewrite Hn0 by lia.
  - apply every_dict in Hwf as [ Hkeys Hwf ].
    apply every_dict in Hfl as [ _ Hfl ].
    apply every_dict in Hint as [ _ Hint ].
    apply nested_within_dict in Hdeep as (d' & -> & Hdeep).
    assert (Hall : Forall (fun kx => read_back o (snd kx)) kxs).
    { rewrite Forall_forall in *. intros kx Hkx.
      apply IH; [ done | by apply Hwf | by apply Hfl | by apply Hint ]. }
    clear IH Hwf Hfl Hint. destruct kxs as [ | [k x] kxs ].
    + exists 1%nat. intros [ | n ] Hn; [ lia | ]. done.
    + destruct (scan_pairs_dumps (Datatypes.S level) d' rest
                  (newline_indent level ++ 125 :: rest) kxs eq_refl) with k x
        as (n0 & Hn0); [ | done | done | ].
      { by rewrite skip_ws_newline_indent. }
      exists (Datatypes.S n0). intros [ | n ] Hn; [ lia | ].
      cbn [dumps_at app]. unfold encode_basestring at 1.
      cbn [app]. repeat (rewrite <- app_assoc; cbn [app]). rewrite scan_once_S.
      change (123 =? 123) with true. cbn iota.
      rewrite skip_ws_newline_indent, skip_ws_head by done.
      change (34 =? 125) with false. change (34 =? 34) with true. cbn iota.
      rewrite Hn0 by lia. cbn [scan_map].
      by rewrite dict_of_pairs_nodup.
Qed.

Lemma decode_dumps v d :
  wf_json v -> every (float_scans o) v ->
  every (int_fits (max_str_digits o)) v -> nested_within d v ->
  decode o d (dumps_indent2 v) = Got v [].
Proof.
  intros Hwf Hfl Hint Hdeep.
  destruct (scan_once_dumps v Hwf Hfl Hint) as [ Hhead Hread ].
  destruct (Hread 0%nat [] d eq_refl Hdeep) as (n0 & Hn0).
  apply (decode_from_scan o d n0). unfold dumps_indent2.
  rewrite <- (app_nil_r (dumps_at 0 v)).
  rewrite skip_ws_dumps by done. by apply Hn0.
Qed.

End Atoms.

Lemma json_loads_dumps `{Interpreter} v :
  wf_json v -> floats_ok v ->
  every (int_fits int_max_str_digits) v ->
  nested_within recursion_depth v ->
  json_loads (dumps_indent2 v) = Got v [].
Proof. apply decode_dumps. Qed.


(** ** Line ends *)

Lemma universal_newlines_linesep os X :
  universal_newlines (linesep os ++ X) = 10 :: universal_newlines X.
Proof. by destruct os. Qed.

Lemma universal_newlines_translate os s :
  Forall (fun c => c <> 13) s ->
  universal_newlines (translate_newlines os s) = s.
Proof.
  induction 1 as [ | c s Hc Hs IH ]; [ done | ].
  unfold translate_newlines in *. cbn [flat_map].
  destruct (N.eqb_spec c 10) as [ -> | Hlf ].
  - by rewrite universal_newlines_linesep, IH.
  - cbn [app universal_newlines].
    rewrite (proj2 (N.eqb_neq c 13)) by done. by rewrite IH.
Qed.

Lemma hexdigit_printable d : 48 <= hexdigit d.
Proof. unfold hexdigit. destruct (d <? 10); lia. Qed.

Lemma escape_char_no_cr c : Forall (fun x => x <> 13) (escape_char c).
Proof.
  unfold escape_char. destruct (escape_dct c) as [ e | ] eqn:E.
  - revert E. unfold escape_dct.
    repeat match goal with
           | |- context [ N.eqb c ?k ] =>
               destruct (N.eqb_spec c k) as [ -> | ? ];
               [ intros [= <-]; repeat constructor; done | ]
           end.
    destruct (c <? 32); [ | done ]. intros [= <-].
    unfold u_escape, hex4. repeat constructor; try done.
    all: intros Hx; pose proof (hexdigit_printable (c / 4096 mod 16));
      pose proof (hexdigit_printable (c / 256 mod 16));
      pose proof (hexdigit_printable (c / 16 mod 16));
      pose proof (hexdigit_printable (c mod 16)); lia.
  - destruct (escape_dct_none c E) as (_ & _ & Hc).
    repeat constructor. lia.
Qed.

Lemma encode_basestring_no_cr s :
  Forall (fun x => x <> 13) (encode_basestring s).
Proof.
  unfold encode_basestring. constructor; [ done | ].
  apply Forall_app. split; [ | by repeat constructor ].
  induction s as [ | c s IH ]; [ constructor | ].
  cbn [flat_map]. apply Forall_app. split; [ apply escape_char_no_cr | done ].
Qed.

Lemma newline_indent_no_cr level :
  Forall (fun x => x <> 13) (newline_indent level).
Proof.
  unfold newline_indent. constructor; [ done | ].
  induction (2 * level)%nat; simpl; constructor; done.
Qed.

Lemma int_repr_no_cr z : Forall (fun x => x <> 13) (int_repr z).
Proof.
  assert (Hd : forall u, Forall (fun x => x <> 13) (chars_of_uint u)).
  { induction u; simpl; constructor; done. }
  destruct z; simpl; [ by repeat constructor | apply Hd | ].
  constructor; [ done | apply Hd ].
Qed.

Section Documents.
Context `{Interpreter}.

Ltac no_cr :=
  repeat match goal with
         | |- Forall _ [] => apply Forall_nil_2
         | |- Forall _ (newline_indent _) => apply newline_indent_no_cr
         | |- Forall _ (encode_basestring _) => apply encode_basestring_no_cr
         | |- Forall _ (_ ++ _) => apply Forall_app_2
         | |- Forall _ (_ :: _) => apply Forall_cons_2; [ done | ]
         | _ => assumption
         end.

Lemma dumps_no_cr o v level :
  every (float_scans o) v -> Forall (fun x => x <> 13) (dumps_at level v).
Proof.
  revert level.
  induction v as [ | b | z | f | s | l IH | d IH ] using json_ind;
    intros level Hfl.
  - by repeat constructor.
  - destruct b; by repeat constructor.
  - apply int_repr_no_cr.
  - by apply every_here in Hfl as [ _ Hcr ].
  - apply encode_basestring_no_cr.
  - apply every_list in Hfl as [ _ Hfl ].
    assert (Hall : Forall (fun y => Forall (fun x => x <> 13)
                                      (dumps_at (S level) y)) l).
    { rewrite Forall_forall in *. intros y Hy. apply IH; [ done | ].
      by apply Hfl. }
    clear IH Hfl. destruct l as [ | x xs ]; [ by repeat constructor | ].
    apply Forall_cons in Hall as [ Hx Hxs ]. cbn [dumps_at].
    assert (Hitems : Forall (fun x => x <> 13)
              (flat_map (fun y => 44 :: newline_indent (S level)
                                  ++ dumps_at (S level) y) xs)).
    { induction Hxs as [ | y ys Hy Hys IHys ]; cbn [flat_map]; no_cr. }
    no_cr.
  - apply every_dict in Hfl as [ _ Hfl ].
    assert (Hall : Forall (fun ky => Forall (fun x => x <> 13)
                                       (dumps_at (S level) (snd ky))) d).
    { rewrite Forall_forall in *. intros y Hy. apply IH; [ done | ].
      by apply Hfl. }
    clear IH Hfl. destruct d as [ | [k x] kxs ]; [ by repeat constructor | ].
    apply Forall_cons in Hall as [ Hx Hxs ]. cbn [dumps_at snd] in *.
    assert (Hitems : Forall (fun x => x <> 13)
              (flat_map (fun ky => 44 :: newline_indent (S level)
                                   ++ encode_basestring (fst ky) ++ [58; 32]
                                   ++ dumps_at (S level) (snd ky)) kxs)).
    { induction Hxs as [ | y ys Hy Hys IHys ]; cbn [flat_map]; no_cr. }
    no_cr.
Qed.

(** What the tool writes is read back, by text mode and the decoder, as
    the document that was written, on either platform. *)
Lemma decode_written o d os v :
  wf_json v -> every (float_scans o) v ->
  every (int_fits (max_str_digits o)) v -> nested_within d v ->
  decode o d (universal_newlines (translate_newlines os (dumps_indent2 v)))
  = Got v [].
Proof.
  intros Hwf Hfl Hint Hdeep. rewrite universal_newlines_translate.
  - by apply decode_dumps.
  - by apply (dumps_no_cr o).
Qed.

Lemma written_text_reads_back os v :
  wf_json v -> floats_ok v ->
  every (int_fits int_max_str_digits) v ->
  nested_within recursion_depth v ->
  json_loads (universal_newlines (translate_newlines os (dumps_indent2 v)))
  = Got v [].
Proof. apply decode_written. Qed.

(** *** What the decoder returns has no duplicate key *)

Lemma dict_of_pairs_wf (P : json -> Prop) ps :
  Forall (fun kx => P (snd kx)) ps ->
  NoDup (keys (dict_of_pairs ps)) /\
  Forall (fun kx => P (snd kx)) (dict_of_pairs ps).
Proof.
  unfold dict_of_pairs. intros Hps.
  enough (Hgen : forall acc,
            NoDup (keys acc) -> Forall (fun kx => P (snd kx)) acc ->
            NoDup (keys (fold_left (fun d kv => dict_set (fst kv) (snd kv) d)
                           ps acc)) /\
            Forall (fun kx => P (snd kx))
              (fold_left (fun d kv => dict_set (fst kv) (snd kv) d) ps acc)).
  { apply Hgen; [ apply NoDup_nil_2 | constructor ]. }
  induction Hps as [ | [k v] ps Hv Hps IH ]; intros acc Hnd Hacc; [ done | ].
  simpl. apply IH; [ by apply dict_set_nodup | by apply dict_set_values ].
Qed.

Ltac wf_atom := cbv [wf_json every unique_keys]; tauto.

Lemma match_number_wf s v r : match_number s = Some (v, r) -> wf_json v.
Proof.
  unfold match_number.
  destruct (match s with
            | c :: r0 => if c =? 45 then (true, r0) else (false, s)
            | [] => (false, s)
            end) as [ neg s1 ].
  destruct (match_integer s1) as [ [ ds r1 ] | ]; [ | done ].
  destruct (match_frac r1) as [ frac r2 ].
  destruct (match_exp r2) as [ ex r3 ].
  destruct frac, ex; intros [= <- _]; wf_atom.
Qed.

Lemma nb_digits_uint_of_digits ds :
  nb_digits (uint_of_digits ds) = length ds.
Proof.
  induction ds as [ | c ds IH ]; [ done | ]. cbn [uint_of_digits length].
  repeat (match goal with |- context [ if ?b then _ else _ ] => destruct b end;
          [ simpl; congruence | ]).
  simpl. congruence.
Qed.

(** An integer has no more digits than the literal it was read from. *)
Lemma match_number_digits s z r :
  match_number s = Some (JInt z, r) ->
  (int_digits z <= length (integer_part s))%nat.
Proof.
  unfold match_number, integer_part.
  destruct (match s with
            | c :: r0 => if c =? 45 then (true, r0) else (false, s)
            | [] => (false, s)
            end) as [ neg s1 ] eqn:Es.
  assert (Hs1 : match s with
                | c :: r0 => if c =? 45 then r0 else s
                | [] => s
                end = s1).
  { destruct s as [ | c r0 ]; [ by injection Es | ].
    destruct (c =? 45); by injection Es. }
  rewrite Hs1.
  destruct (match_integer s1) as [ [ ds r1 ] | ] eqn:Ei; [ | done ].
  destruct (match_frac r1) as [ frac r2 ].
  destruct (match_exp r2) as [ ex r3 ].
  destruct frac, ex; intros [= <- _].
  unfold int_digits, int_of_literal.
  assert (Habs : Z.abs_N (if neg
                          then (- Z.of_N (N.of_uint (uint_of_digits ds)))%Z
                          else Z.of_N (N.of_uint (uint_of_digits ds)))
                 = N.of_uint (uint_of_digits ds)).
  { destruct neg; [ rewrite Zabs2N.inj_opp | ]; apply Zabs2N.id. }
  rewrite Habs, DecimalN.Unsigned.to_of, <- nb_digits_uint_of_digits.
  apply nb_digits_unorm.
  destruct s1 as [ | c s1 ]; [ done | ]. revert Ei. unfold match_integer.
  destruct (c =? 48); [ by intros [= <- _] | ].
  destruct (is_digit c); [ | done ].
  destruct (span_digits s1) as [ ds' r' ]. intros [= <- _].
  cbn [uint_of_digits].
  repeat (match goal with |- context [ if ?b then _ else _ ] => destruct b end;
          [ done | ]).
  done.
Qed.

Lemma exceeds_le limit n m :
  (m <= n)%nat -> exceeds limit n = false -> exceeds limit m = false.
Proof.
  unfold exceeds. intros Hle Hn.
  destruct (0 <? limit)%nat; [ | done ]. cbn [andb] in *.
  apply Nat.ltb_ge in Hn. apply Nat.ltb_ge. lia.
Qed.

Lemma decoded_atom o d v :
  match v with
  | JList _ | JDict _ => False
  | JInt z => exceeds (max_str_digits o) (int_digits z) = false
  | _ => True
  end -> decoded o d v.
Proof.
  destruct v; try done; intros Hv; repeat split; try done;
    try (by destruct d); wf_atom.
Qed.

Lemma decoded_list o d l :
  Forall (decoded o d) l -> decoded o (Datatypes.S d) (JList l).
Proof.
  intros Hl. split; [ | split ].
  - apply every_list. split; [ done | ].
    eapply Forall_impl; [ exact Hl | ]. by intros v (? & _).
  - apply every_list. split; [ done | ].
    eapply Forall_impl; [ exact Hl | ]. by intros v (_ & ? & _).
  - apply nested_within_list. exists d. split; [ done | ].
    eapply Forall_impl; [ exact Hl | ]. by intros v (_ & _ & ?).
Qed.

Lemma decoded_dict o d ps :
  Forall (fun kx => decoded o d (snd kx)) ps ->
  decoded o (Datatypes.S d) (JDict (dict_of_pairs ps)).
Proof.
  intros Hps.
  destruct (dict_of_pairs_wf (decoded o d) ps Hps) as [ Hnd Hall ].
  split; [ | split ].
  - apply every_dict. split; [ done | ].
    eapply Forall_impl; [ exact Hall | ]. by intros v (? & _).
  - apply every_dict. split; [ done | ].
    eapply Forall_impl; [ exact Hall | ]. by intros v (_ & ? & _).
  - apply nested_within_dict. exists d. split; [ done | ].
    eapply Forall_impl; [ exact Hall | ]. by intros v (_ & _ & ?).
Qed.

Lemma scan_atom_wf o d s v r : scan_atom o s = Got v r -> decoded o d v.
Proof.
  unfold scan_atom. destruct s as [ | c s ]; [ done | ].
  destruct (c =? 34).
  { intros Hs. apply scan_map_got in Hs as (k & _ & ->).
    by apply decoded_atom. }
  destruct (starts_with (py "null") (c :: s));
    [ intros [= <- _]; by apply decoded_atom | ].
  destruct (starts_with (py "true") (c :: s));
    [ intros [= <- _]; by apply decoded_atom | ].
  destruct (starts_with (py "false") (c :: s));
    [ intros [= <- _]; by apply decoded_atom | ].
  destruct (match_number (c :: s)) as [ [ v' r' ] | ] eqn:E.
  { pose proof (match_number_wf _ _ _ E) as Hwf.
    destruct v' as [ | | z | | | | ];
      try (intros [= <- _]; by apply decoded_atom);
      try (exfalso; revert E; unfold match_number;
           repeat (break_match; try done); fail).
    destruct (exceeds _ _) eqn:Elim; [ done | ]. intros [= <- _].
    apply decoded_atom. eapply exceeds_le; [ | exact Elim ].
    by apply match_number_digits in E. }
  destruct (allow_constants o); [ | done ].
  destruct (starts_with (py "NaN") (c :: s));
    [ intros [= <- _]; by apply decoded_atom | ].
  destruct (starts_with (py "Infinity") (c :: s));
    [ intros [= <- _]; by apply decoded_atom | ].
  destruct (starts_with (py "-Infinity") (c :: s));
    [ intros [= <- _]; by apply decoded_atom | done ].
Qed.

Lemma scan_wf o n :
  (forall d s v r, scan_once o d n s = Got v r -> decoded o d v) /\
  (forall d s l r, scan_items o d n s = Got l r -> Forall (decoded o d) l) /\
  (forall d s ps r, scan_pairs o d n s = Got ps r ->
                    Forall (fun kx => decoded o d (snd kx)) ps).
Proof.
  induction n as [ | n (IHo & IHi & IHp) ];
    [ by split; [ | split ] | ].
  split; [ | split ]; intros d s.
  - intros v r. rewrite scan_once_S.
    destruct s as [ | c s ]; [ done | ].
    destruct (c =? 123); [ | destruct (c =? 91) ].
    + destruct d as [ | d' ]; [ done | ].
      destruct (skip_ws s) as [ | c1 r1 ]; [ done | ].
      destruct (c1 =? 125);
        [ intros [= <- _]; by apply (decoded_dict o d' []) | ].
      destruct (c1 =? 34); [ | done ].
      intros Hs. apply scan_map_got in Hs as (ps & Hps & ->).
      apply IHp in Hps. by apply decoded_dict.
    + destruct d as [ | d' ]; [ done | ].
      destruct (skip_ws s) as [ | c1 r1 ]; [ done | ].
      destruct (c1 =? 93);
        [ intros [= <- _]; by apply (decoded_list o d' []) | ].
      intros Hs. apply scan_map_got in Hs as (l & Hl & ->).
      apply IHi in Hl. by apply decoded_list.
    + apply scan_atom_wf.
  - intros l r. rewrite scan_items_S.
    destruct (scan_once o d n s) as [ v r0 | | e | ] eqn:Eo; try done.
    apply IHo in Eo.
    destruct (skip_ws r0) as [ | c r1 ]; [ done | ].
    destruct (c =? 93); [ intros [= <- _]; apply Forall_cons_2; [ done | apply Forall_nil_2 ] | ].
    destruct (c =? 44); [ | done ].
    intros Hs. apply scan_map_got in Hs as (l' & Hl & ->).
    apply IHi in Hl. by apply Forall_cons_2.
  - intros ps r. rewrite scan_pairs_S.
    destruct (scanstring s) as [ k r0 | | e | ]; try done.
    destruct (skip_ws r0) as [ | c r1 ]; [ done | ].
    destruct (c =? 58); [ | done ].
    destruct (scan_once o d n (skip_ws r1)) as [ v r2 | | e | ] eqn:Eo;
      try done.
    apply IHo in Eo.
    destruct (skip_ws r2) as [ | c2 r3 ]; [ done | ].
    destruct (c2 =? 125); [ intros [= <- _]; apply Forall_cons_2; [ done | apply Forall_nil_2 ] | ].
    destruct (c2 =? 44); [ | done ].
    destruct (skip_ws r3) as [ | q r4 ]; [ done | ].
    destruct (q =? 34); [ | done ].
    intros Hs. apply scan_map_got in Hs as (ps' & Hps & ->).
    apply IHp in Hps. by apply Forall_cons_2.
Qed.

Lemma decode_got o d text v r :
  decode o d text = Got v r -> r = [] /\ decoded o d v.
Proof.
  unfold decode.
  destruct (scan_once o d _ (skip_ws text)) as [ v' rest | | e | ] eqn:E;
    try done.
  apply (proj1 (scan_wf o _)) in E.
  destruct (skip_ws rest); [ | done ]. by intros [= <- <-].
Qed.

Lemma json_loads_decoded text v r :
  json_loads text = Got v r -> decoded json_decoder recursion_depth v.
Proof. intros Hload. by apply decode_got in Hload as [ _ ? ]. Qed.

Lemma json_loads_got text v r :
  json_loads text = Got v r -> r = [] /\ wf_json v.
Proof.
  intros Hload. apply decode_got in Hload as [ -> (Hwf & _) ]. done.
Qed.

(** *** The assignment keeps what holds of every value *)

Lemma dict_get_every (P : json -> Prop) k d v :
  Forall (fun kx => every P (snd kx)) d -> dict_get k d = Some v -> every P v.
Proof.
  induction 1 as [ | [k' x] d Hx Hd IH ]; simpl; [ done | ].
  destruct (pystr_eqb k k'); [ by intros [= <-] | done ].
Qed.

Lemma assign_target_every (P : json -> Prop) T s T' :
  (forall x, P (JStr x)) ->
  (forall k v d, P (JDict d) -> P (JDict (dict_set k v d))) ->
  every P T -> assign_target T s = inr T' -> every P T'.
Proof.
  intros Pstr Pset HT. unfold assign_target, py_getitem, py_setitem.
  destruct T as [ | | | | | | d ]; try done.
  destruct (dict_get K_variables d) as [ vars | ] eqn:Ev; [ | done ].
  destruct vars as [ | | | | | | vars ]; try done. intros [= <-].
  apply every_dict in HT as [ Hd Hvals ].
  pose proof (dict_get_every P _ _ _ Hvals Ev) as Hvars.
  apply every_dict in Hvars as [ Hv Hvvals ].
  apply every_dict. split; [ by apply Pset | ].
  apply dict_set_values; [ | done ].
  apply every_dict. split; [ by apply Pset | ].
  apply dict_set_values; [ | done ]. split; [ apply Pstr | done ].
Qed.

Lemma assign_target_wf T s T' :
  wf_json T -> assign_target T s = inr T' -> wf_json T'.
Proof.
  apply assign_target_every; [ done | ].
  intros k v d. apply dict_set_nodup.
Qed.

Lemma assign_target_floats_ok T s T' :
  floats_ok T -> assign_target T s = inr T' -> floats_ok T'.
Proof. apply assign_target_every; done. Qed.

Lemma assign_target_finite T s T' :
  every finite_float T -> assign_target T s = inr T' -> every finite_float T'.
Proof. apply assign_target_every; done. Qed.

Lemma dict_get_values (P : json -> Prop) k d v :
  Forall (fun kx => P (snd kx)) d -> dict_get k d = Some v -> P v.
Proof.
  induction 1 as [ | [k' x] d Hx Hd IH ]; simpl; [ done | ].
  destruct (pystr_eqb k k'); [ by intros [= <-] | done ].
Qed.

Lemma assign_target_nested d T s T' :
  nested_within d T -> assign_target T s = inr T' -> nested_within d T'.
Proof.
  unfold assign_target, py_getitem, py_setitem.
  destruct T as [ | | | | | | kxs ]; try done.
  destruct (dict_get K_variables kxs) as [ vars | ] eqn:Ev; [ | done ].
  destruct vars as [ | | | | | | vars ]; try done. intros Hd [= <-].
  apply nested_within_dict in Hd as (d1 & -> & Hkxs).
  apply nested_within_dict. exists d1. split; [ done | ].
  apply dict_set_values; [ | done ].
  pose proof (dict_get_values _ _ _ _ Hkxs Ev) as Hvars.
  apply nested_within_dict in Hvars as (d2 & -> & Hvars).
  apply (proj2 (nested_within_dict (Datatypes.S d2) _)).
  exists d2. split; [ done | ].
  apply (dict_set_values (nested_within d2)); [ exact I | done ].
Qed.

(** The assignment keeps a document within what the decoder returns, so
    the patched document can be read again. *)
Lemma assign_target_decoded o d T s T' :
  decoded o d T -> assign_target T s = inr T' -> decoded o d T'.
Proof.
  intros (Hwf & Hint & Hdeep) Hset. split; [ | split ].
  - by apply (assign_target_wf T s).
  - revert Hint Hset. apply assign_target_every; done.
  - by apply (assign_target_nested d T s).
Qed.

(** What a run wrote is read back as the document it encoded. *)
Lemma patched_text_reads_back os T s T' text r :
  json_loads text = Got T r -> floats_ok T ->
  assign_target T s = inr T' ->
  json_loads (universal_newlines (translate_newlines os (dumps_indent2 T')))
  = Got T' [].
Proof.
  intros Hload Hfl Hset.
  destruct (assign_target_decoded _ _ _ _ _ (json_loads_decoded _ _ _ Hload)
              Hset) as (Hwf & Hint & Hdeep).
  apply written_text_reads_back; try done.
  by apply (assign_target_floats_ok T s).
Qed.

Lemma assign_target_again T s T' :
  assign_target T s = inr T' -> assign_target T' s = inr T'.
Proof.
  unfold assign_target, py_getitem, py_setitem.
  destruct T as [ | | | | | | d ]; try done.
  destruct (dict_get K_variables d) as [ vars | ] eqn:Ev; [ | done ].
  destruct vars as [ | | | | | | vars ]; try done. intros [= <-].
  rewrite dict_get_set_same. by rewrite !dict_set_set.
Qed.

Lemma assign_target_has_target T s T' :
  assign_target T s = inr T' -> has_target T'.
Proof.
  unfold assign_target, py_getitem, py_setitem.
  destruct T as [ | | | | | | d ]; try done.
  destruct (dict_get K_variables d) as [ vars | ] eqn:Ev; [ | done ].
  destruct vars as [ | | | | | | vars ]; try done. intros [= <-].
  exists (JStr s). simpl. by rewrite !dict_get_set_same.
Qed.

End Documents.

(** The three floats that are not finite are written as [NaN], [Infinity]
    and [-Infinity] and read back as themselves, whatever [Interpreter]
    is. *)
Lemma non_finite_floats_read_back `{Interpreter} f :
  f = S754_nan \/ (exists sign, f = S754_infinity sign) ->
  float_reads_back (JFloat f).
Proof.
  intros [ -> | [ [ | ] -> ] ]; (split; [ intros rest _; reflexivity | ]);
    cbn [floatstr]; repeat (apply Forall_cons_2; [ done | ]);
    apply Forall_nil_2.
Qed.

(** ** Valid JSON *)

Lemma every_impl2 (P Q R : json -> Prop) v :
  (forall x, P x -> Q x -> R x) -> every P v -> every Q v -> every R v.
Proof.
  intros HR.
  induction v as [ | b | z | f | s | l IH | kxs IH ] using json_ind;
    try (intros [ HP _ ] [ HQ _ ]; split; [ by apply HR | done ]).
  - rewrite !every_list. intros [ HP HPl ] [ HQ HQl ].
    split; [ by apply HR | ]. rewrite Forall_forall in *.
    intros x Hx. apply IH; auto.
  - rewrite !every_dict. intros [ HP HPl ] [ HQ HQl ].
    split; [ by apply HR | ]. rewrite Forall_forall in *.
    intros x Hx. apply IH; auto.
Qed.

(** A value that is not one of the three constants is read by the strict
    decoder as [json.loads] reads it. *)
Lemma scan_atom_rfc8259 `{Interpreter} o s v r :
  scan_atom o s = Got v r -> finite_float v -> scan_atom rfc8259 s = Got v r.
Proof.
  unfold scan_atom. destruct s as [ | c s ]; [ done | ].
  destruct (c =? 34); [ done | ].
  destruct (starts_with (py "null") (c :: s)); [ done | ].
  destruct (starts_with (py "true") (c :: s)); [ done | ].
  destruct (starts_with (py "false") (c :: s)); [ done | ].
  destruct (match_number (c :: s)) as [ [ v' r' ] | ].
  { destruct v'; try done. by destruct (exceeds _ _). }
  destruct (allow_constants o); [ | done ].
  destruct (starts_with (py "NaN") (c :: s)); [ by intros [= <- _] | ].
  destruct (starts_with (py "Infinity") (c :: s)); [ by intros [= <- _] | ].
  destruct (starts_with (py "-Infinity") (c :: s)); [ by intros [= <- _] | ].
  done.
Qed.

Lemma float_scans_rfc8259 `{Interpreter} o v :
  float_scans o v -> finite_float v -> float_scans rfc8259 v.
Proof.
  destruct v as [ | | | f | | | ]; try done. intros [ Hread Hcr ] Hfin.
  split; [ | done ]. intros rest Hrest.
  apply (scan_atom_rfc8259 o); [ by apply Hread | done ].
Qed.

(** A text nests less deep than it is long: a value found at some depth is
    found at the depth of the length of the text. *)
Lemma scan_depth_enough `{Interpreter} o n :
  (forall d d' s v r, scan_once o d n s = Got v r -> (length s <= d')%nat ->
                      scan_once o d' n s = Got v r) /\
  (forall d d' s l r, scan_items o d n s = Got l r -> (length s <= d')%nat ->
                      scan_items o d' n s = Got l r) /\
  (forall d d' s ps r, scan_pairs o d n s = Got ps r -> (length s <= d')%nat ->
                       scan_pairs o d' n s = Got ps r).
Proof.
  induction n as [ | n (IHo & IHi & IHp) ]; [ by split; [ | split ] | ].
  split; [ | split ]; intros d d' s.
  - intros v r. rewrite !scan_once_S.
    destruct s as [ | c s ]; [ done | ]. cbn [length].
    pose proof (skip_ws_length s) as Hws.
    destruct (c =? 123)%N; [ | destruct (c =? 91)%N ]; [ | | done ].
    + destruct d as [ | d0 ]; [ done | ].
      destruct d' as [ | d1 ]; [ intros _ ?; lia | ].
      destruct (skip_ws s) as [ | c1 r1 ]; [ done | ]. cbn [length] in Hws.
      destruct (c1 =? 125)%N; [ done | ]. destruct (c1 =? 34)%N; [ | done ].
      intros Hs Hlen. apply scan_map_got in Hs as (ps & Hps & ->).
      rewrite (IHp d0 d1 _ _ _ Hps); [ done | lia ].
    + destruct d as [ | d0 ]; [ done | ].
      destruct d' as [ | d1 ]; [ intros _ ?; lia | ].
      destruct (skip_ws s) as [ | c1 r1 ]; [ done | ]. cbn [length] in Hws.
      destruct (c1 =? 93)%N; [ done | ].
      intros Hs Hlen. apply scan_map_got in Hs as (l & Hl & ->).
      rewrite (IHi d0 d1 _ _ _ Hl); [ done | cbn [length]; lia ].
  - intros l r. rewrite !scan_items_S.
    destruct (scan_once o d n s) as [ v r0 | | e | ] eqn:Eo; try done.
    intros Hs Hlen. rewrite (IHo d d' _ _ _ Eo Hlen).
    apply (proj1 (scan_consumes o n)) in Eo.
    pose proof (skip_ws_length r0) as Hws.
    destruct (skip_ws r0) as [ | c r1 ]; [ done | ]. cbn [length] in Hws.
    destruct (c =? 93)%N; [ done | ]. destruct (c =? 44)%N; [ | done ].
    apply scan_map_got in Hs as (l' & Hl & ->).
    rewrite (IHi d d' _ _ _ Hl); [ done | ].
    pose proof (skip_ws_length r1). lia.
  - intros ps r. rewrite !scan_pairs_S.
    destruct (scanstring s) as [ k r0 | | e | ] eqn:Ek; try done.
    apply scanstring_consumes in Ek. pose proof (skip_ws_length r0) as Hws.
    destruct (skip_ws r0) as [ | c r1 ]; [ done | ]. cbn [length] in Hws.
    destruct (c =? 58)%N; [ | done ].
    pose proof (skip_ws_length r1) as Hws1.
    destruct (scan_once o d n (skip_ws r1)) as [ v r2 | | e | ] eqn:Eo;
      try done.
    intros Hs Hlen. rewrite (IHo d d' _ _ _ Eo) by lia.
    apply (proj1 (scan_consumes o n)) in Eo.
    pose proof (skip_ws_length r2) as Hws2.
    destruct (skip_ws r2) as [ | c2 r3 ]; [ done | ]. cbn [length] in Hws2.
    destruct (c2 =? 125)%N; [ done | ]. destruct (c2 =? 44)%N; [ | done ].
    pose proof (skip_ws_length r3) as Hws3.
    destruct (skip_ws r3) as [ | q r4 ]; [ done | ]. cbn [length] in Hws3.
    destruct (q =? 34)%N; [ | done ].
    apply scan_map_got in Hs as (ps' & Hps & ->).
    rewrite (IHp d d' _ _ _ Hps); [ done | lia ].
Qed.

Lemma decode_depth_enough `{Interpreter} o d text v r :
  decode o d text = Got v r -> decode o (length text) text = Got v r.
Proof.
  unfold decode.
  destruct (scan_once o d _ (skip_ws text)) as [ v' rest | | e | ] eqn:E;
    try done.
  rewrite (proj1 (scan_depth_enough o _) d (length text) _ _ _ E); [ done | ].
  apply skip_ws_length.
Qed.

(** The encoding of a document that [json.loads] could have returned and
    that holds none of the floats [nan], [inf] and [-inf] is valid JSON. *)
Lemma written_text_valid `{Interpreter} os d v :
  decoded json_decoder d v -> floats_ok v -> every finite_float v ->
  valid_json (universal_newlines (translate_newlines os (dumps_indent2 v)))
  = true.
Proof.
  intros (Hwf & _ & Hdeep) Hfl Hfin. unfold valid_json.
  rewrite (decode_depth_enough rfc8259 d _ v []); [ done | ].
  apply decode_written; try done.
  - revert Hfl Hfin. apply every_impl2. intros x. apply float_scans_rfc8259.
  - clear. induction v as [ | b | z | f | s | l IH | kxs IH ] using json_ind;
      try done.
    + apply every_list. split; [ done | ]. by rewrite Forall_forall in *.
    + apply every_dict. split; [ done | ]. by rewrite Forall_forall in *.
Qed.





(** The exceptions of the interpreter's limits are the only ones the
    decoder raises beside [JSONDecodeError]. *)
Lemma scan_map_raised {A B} (f : A -> B) (r : scan A) e :
  scan_map f r = Raised e -> r = Raised e.
Proof. destruct r; try done. by intros [= ->]. Qed.

Lemma scanstring_never_raises s e : scanstring s <> Raised e.
Proof.
  remember (length s) as m eqn:Em. revert s Em.
  induction m as [ m IH ] using lt_wf_ind. intros s Em.
  destruct s as [ | c s ]; [ done | ]. rewrite scanstring_cons.
  assert (Hrec : forall x s', (length s' < m)%nat ->
            scan_map (cons x) (scanstring s') <> Raised e).
  { intros x s' Hlt Hmap. apply scan_map_raised in Hmap.
    by apply (IH (length s') Hlt s'). }
  repeat (break_match; try done); subst m; cbn [length] in *;
    apply Hrec; cbn [length]; lia.
Qed.

Lemma scan_atom_raises `{Interpreter} o s e :
  scan_atom o s = Raised e -> e = ValueError.
Proof.
  unfold scan_atom. destruct s as [ | c s ]; [ done | ].
  destruct (c =? 34).
  { intros Hmap. apply scan_map_raised in Hmap.
    by destruct (scanstring_never_raises _ _ Hmap). }
  repeat (break_match; try done). by intros [= <-].
Qed.

Lemma scan_raises `{Interpreter} o n :
  (forall d s e, scan_once o d n s = Raised e ->
                 e = ValueError \/ e = RecursionError) /\
  (forall d s e, scan_items o d n s = Raised e ->
                 e = ValueError \/ e = RecursionError) /\
  (forall d s e, scan_pairs o d n s = Raised e ->
                 e = ValueError \/ e = RecursionError).
Proof.
  induction n as [ | n (IHo & IHi & IHp) ]; [ by split; [ | split ] | ].
  split; [ | split ]; intros d s e.
  - rewrite !scan_once_S. destruct s as [ | c s ]; [ done | ].
    destruct (c =? 123)%N; [ | destruct (c =? 91)%N ];
      [ | | intros Ha; left; by apply (scan_atom_raises o (c :: s)) ].
    + destruct d as [ | d ]; [ intros [= <-]; by right | ].
      destruct (skip_ws s) as [ | c1 r1 ]; [ done | ].
      destruct (c1 =? 125)%N; [ done | ]. destruct (c1 =? 34)%N; [ | done ].
      intros Hmap. apply scan_map_raised in Hmap. by apply (IHp d r1).
    + destruct d as [ | d ]; [ intros [= <-]; by right | ].
      destruct (skip_ws s) as [ | c1 r1 ]; [ done | ].
      destruct (c1 =? 93)%N; [ done | ].
      intros Hmap. apply scan_map_raised in Hmap. by apply (IHi d (c1 :: r1)).
  - rewrite !scan_items_S.
    destruct (scan_once o d n s) as [ v r0 | | x | ] eqn:Eo; try done.
    + destruct (skip_ws r0) as [ | c r1 ]; [ done | ].
      destruct (c =? 93)%N; [ done | ]. destruct (c =? 44)%N; [ | done ].
      intros Hmap. apply scan_map_raised in Hmap. by apply (IHi d (skip_ws r1)).
    + intros [= <-]. by apply (IHo d s).
  - rewrite !scan_pairs_S.
    destruct (scanstring s) as [ k r0 | | x | ] eqn:Ek; try done.
    + destruct (skip_ws r0) as [ | c r1 ]; [ done | ].
      destruct (c =? 58)%N; [ | done ].
      destruct (scan_once o d n (skip_ws r1)) as [ v r2 | | x | ] eqn:Eo;
        try done.
      * destruct (skip_ws r2) as [ | c2 r3 ]; [ done | ].
        destruct (c2 =? 125)%N; [ done | ]. destruct (c2 =? 44)%N; [ | done ].
        destruct (skip_ws r3) as [ | q r4 ]; [ done | ].
        destruct (q =? 34)%N; [ | done ].
        intros Hmap. apply scan_map_raised in Hmap. by apply (IHp d r4).
      * intros [= <-]. by apply (IHo d (skip_ws r1)).
    + by destruct (scanstring_never_raises s x).
Qed.

Lemma json_loads_raises `{Interpreter} text e :
  json_loads text = Raised e -> e = ValueError \/ e = RecursionError.
Proof.
  unfold json_loads, decode.
  destruct (scan_once json_decoder _ _ (skip_ws text))
    as [ v rest | | x | ] eqn:E; try done.
  - by destruct (skip_ws rest).
  - intros [= <-]. by apply (proj1 (scan_raises _ _) _ _ _ E).
Qed.




(** ** Runs that succeed *)

Lemma exit_of_success r :
  status (exit_of r) = 0%Z -> exists w', r = Ret true w'.
Proof. destruct r as [ [ | ] w' | e w' ]; try done. eauto. Qed.

Lemma has_target_of_assignment T s T' :
  has_target_key T = inr true -> assign_target T s = inr T' -> has_target T.
Proof.
  intros Hkey Hset. destruct (target_value T) as [ old | ] eqn:E.
  - by exists old.
  - assert (Hno : ~ has_target T) by (intros [ old Hold ]; congruence).
    by rewrite (assign_target_without_target T s Hno Hkey) in Hset.
Qed.

(** A run that returns [True] has read both files, found the target and
    written the encoded document. *)
Lemma update_template_success `{Interpreter} tp sp op w w' :
  update_template tp sp op w = Ret true w' ->
  exists S tpl T T',
    w_files w !! sp = Some (Text S) /\
    w_files w !! tp = Some (Text tpl) /\
    json_loads (universal_newlines tpl) = Got T [] /\
    has_target T /\
    assign_target T (universal_newlines S) = inr T' /\
    encodable (dumps_indent2 T') = true /\
    writable op w /\
    w' = logged (read_events tp sp ++ update_events op ++ done_events)
           (set_file op (Text (translate_newlines (w_os w)
                                 (dumps_indent2 T'))) w).
Proof.
  destruct (w_files w !! sp) as [ [ S | | ] | ] eqn:Esp.
  2-4: destruct (update_template_script_fails tp sp op w)
         as (x & w0 & -> & _); [ intros S HS; congruence | done ].
  destruct (w_files w !! tp) as [ [ tpl | | ] | ] eqn:Etp.
  2-4: destruct (update_template_template_fails tp sp op w S Esp)
         as (x & evs & -> & _); [ intros tpl Htpl; congruence | done ].
  destruct (json_loads (universal_newlines tpl)) as [ T r | | e | ] eqn:Eload.
  2-4: rewrite (run_undecodable tp sp op w S tpl Esp Etp)
         by (intros T r; congruence); done.
  destruct (json_loads_got _ _ _ Eload) as [ -> _ ].
  destruct (has_target_key T) as [ x | [ | ] ] eqn:Ekey.
  - by rewrite (run_test_raises tp sp op w S tpl Esp Etp _ _ _ Eload Ekey).
  - destruct (assign_target T (universal_newlines S)) as [ x | T' ] eqn:Eset.
    { by rewrite (run_assignment_raises tp sp op w S tpl Esp Etp _ _ _
                    Eload Ekey Eset). }
    assert (Hop : (exists e, open_write op w = Raise e w) \/
                  writable op w).
    { destruct (writable_cases op w) as [ ? | (e & _ & ?) ]; eauto. }
    destruct Hop as [ [ e Hop ] | Hop ].
    { by rewrite (run_output_refused tp sp op w S tpl Esp Etp _ _ _ _
                    Eload Ekey Eset Hop). }
    destruct (encodable (dumps_indent2 T')) eqn:Eenc.
    + rewrite (run_written tp sp op w S tpl Esp Etp _ _ _
                 Eload Ekey Eset Hop Eenc).
      intros [= <-]. exists S, tpl, T, T'.
      do 3 (split; [ done | ]).
      split; [ by apply (has_target_of_assignment T (universal_newlines S)
                           T') | ].
      by do 3 (split; [ done | ]).
    + by rewrite (run_cut_short tp sp op w S tpl Esp Etp _ _ _
                    Eload Ekey Eset Hop Eenc).
  - by rewrite (run_missing tp sp op w S tpl Esp Etp _ _ Eload Ekey).
Qed.

Lemma patched_target T s T' :
  patched T s T' -> target_value T' = Some (JStr s).
Proof.
  intros (d & vars & d' & vars' & _ & _ & -> & Hv & _ & _ & _ & _ & Hk).
  simpl. by rewrite Hv.
Qed.








(** C4, amended.  After a run that ends with status 0, the template path
    holds a text that text mode and [json.loads] read as a document [T'];
    the value of [T'] under [variables] / [$fxv#2] is a string, the text
    of the script; and [T'] is the parsed input [T] with that one value
    replaced: same keys in the same order at both levels and the same
    value under every other key.  The text is valid JSON in the sense of
    RFC 8259 when [T] holds none of the floats [nan], [inf] and [-inf];
    those are written as the words [NaN], [Infinity] and [-Infinity],
    which [json.loads] reads and JSON does not have.  Floats are taken to
    be written in a text that reads back as the same float
    ([floats_ok]). *)
Theorem written_template_reads_back
    `{Interpreter} (sys_path0 : string) (argv : list string) (w : world) :
  let tp := template_path_of sys_path0 in
  let sp := script_path_of sys_path0 in
  let e := main sys_path0 argv w in
  status e = 0%Z ->
  exists S tpl T T' out,
    w_files w !! sp = Some (Text S) /\
    w_files w !! tp = Some (Text tpl) /\
    json_loads (universal_newlines tpl) = Got T [] /\
    w_files (final e) !! tp = Some (Text out) /\
    patched T (universal_newlines S) T' /\
    target_value T' = Some (JStr (universal_newlines S)) /\
    (floats_ok T ->
     json_loads (universal_newlines out) = Got T' [] /\
     (every finite_float T -> valid_json (universal_newlines out) = true)).
Proof.
  intros tp sp e Hstatus. subst e tp sp.
  rewrite main_unfold in Hstatus |- *.
  set (tp := template_path_of sys_path0) in *.
  set (sp := script_path_of sys_path0) in *.
  destruct (exit_of_success _ Hstatus) as (w' & Hrun). rewrite Hrun.
  destruct (update_template_success tp sp tp w w' Hrun)
    as (S & tpl & T & T' & Hsp & Htp & Hload & Htarget & Hset & Henc & Hop & ->).
  destruct (assign_target_patched T (universal_newlines S) Htarget)
    as (T1 & Hset1 & Hpatched).
  assert (T1 = T') by congruence. subst T1.
  exists S, tpl, T, T'. eexists. repeat split; try done.
  - cbn. apply lookup_insert_eq.
  - by apply (patched_target T).
  - by apply (patched_text_reads_back _ T (universal_newlines S)
                T' (universal_newlines tpl) []).
  - intros Hfin.
    apply (written_text_valid _ recursion_depth).
    + apply (assign_target_decoded _ _ T (universal_newlines S)); [ | done ].
      by apply (json_loads_decoded (universal_newlines tpl) T []).
    + by apply (assign_target_floats_ok T (universal_newlines S)).
    + by apply (assign_target_finite T (universal_newlines S)).
Qed.

(** C4 as stated fails on a template with a number too large for a
    float: the template is valid JSON, the run ends with status 0, and
    the file it leaves holds the word [Infinity], which is not JSON. *)
Lemma huge_number_written_as_infinity :
  let w := world_with Posix script_lf tpl_1e400 in
  let e := main (H := floats_1e400) "" [] w in
  valid_json (H := floats_1e400) (universal_newlines tpl_1e400) = true /\
  status e = 0%Z /\
  exists out,
    w_files (final e) !! template_path_of "" = Some (Text out) /\
    valid_json (H := floats_1e400) (universal_newlines out) = false /\
    is_substring (py "Infinity") out = true.
Proof.
  split; [ vm_compute; reflexivity | ].
  split; [ vm_compute; reflexivity | ].
  eexists. split; [ vm_compute; reflexivity | ].
  split; vm_compute; reflexivity.
Qed.

Lemma doc_floats_ok : floats_ok (H := floats_1_5) doc_floats.
Proof.
  assert (Hratio : float_reads_back (H := floats_1_5) (JFloat float_1_5)).
  { split; [ | by repeat constructor ].
    intros [ | c rest ] Hrest; [ reflexivity | ].
    cbn [delimited] in Hrest. apply orb_true_iff in Hrest as [ Hc | Hc ];
      apply N.eqb_eq in Hc; subst c; reflexivity. }
  pose proof (non_finite_floats_read_back (H := floats_1_5)
                (S754_infinity false)
                (or_intror (ex_intro _ false eq_refl))) as Hlimit.
  cbv [doc_floats floats_ok every snd].
  repeat match goal with
         | |- float_reads_back (JFloat float_1_5) => exact Hratio
         | |- float_reads_back (JFloat (S754_infinity false)) => exact Hlimit
         | |- _ /\ _ => split
         | |- _ => exact I
         end.
Qed.

Lemma written_template_witness :
  let w := world_with Windows script_crlf tpl_floats in
  let e := main (H := floats_1_5) "" [] w in
  status e = 0%Z /\
  exists out T',
    w_files (final e) !! template_path_of "" = Some (Text out) /\
    json_loads (H := floats_1_5) (universal_newlines out) = Got T' [] /\
    target_value T' = Some (JStr script_lf).
Proof.
  intros w e.
  assert (Hstatus : status e = 0%Z) by (vm_compute; reflexivity).
  split; [ exact Hstatus | ].
  destruct (written_template_reads_back (H := floats_1_5) "" [] w Hstatus)
    as (S & tpl & T & T' & out & Hsp & Htp & Hload & Hout & _ & Hval & Hback).
  injection Hsp as <-. injection Htp as <-.
  exists out, T'. split; [ exact Hout | ]. split; [ | exact Hval ].
  apply Hback. vm_compute in Hload. injection Hload as <-.
  exact doc_floats_ok.
Defined.

(** C6.  A second run on the store the first successful run left -- the
    template path now holding the patched document, the script as it was
    -- ends with status 0 again and leaves every file as the first run
    left it: the output is the same text.  Floats are taken to be written
    in a text that reads back as the same float ([floats_ok]). *)
Theorem second_run_same_output
    `{Interpreter} (sys_path0 : string) (argv argv' : list string) (w : world)
    (tpl : pystr) (T : json) :
  let tp := template_path_of sys_path0 in
  w_files w !! tp = Some (Text tpl) ->
  json_loads (universal_newlines tpl) = Got T [] ->
  floats_ok T ->
  let e1 := main sys_path0 argv w in
  status e1 = 0%Z ->
  let e2 := main sys_path0 argv' (final e1) in
  status e2 = 0%Z /\ uncaught e2 = None /\
  w_files (final e2) = w_files (final e1).
Proof.
  intros tp Htp Hload Hfl e1 Hstatus e2. subst e1 e2 tp.
  rewrite (main_unfold sys_path0 argv w) in Hstatus |- *.
  set (tp := template_path_of sys_path0) in *.
  set (sp := script_path_of sys_path0) in *.
  destruct (exit_of_success _ Hstatus) as (w1 & Hrun). rewrite Hrun.
  destruct (update_template_success tp sp tp w w1 Hrun)
    as (S & tpl0 & T0 & T' & Hsp & Htp0 & Hload0 & Htarget & Hset & Henc & Hop & ->).
  assert (tpl0 = tpl) by congruence. subst tpl0.
  assert (T0 = T) by congruence. subst T0.
  destruct (json_loads_got _ _ _ Hload) as [ _ Hwf ].
  cbn [final exit_of].
  set (out := translate_newlines (w_os w) (dumps_indent2 T')).
  set (w1 := logged _ (set_file tp (Text out) w)).
  assert (Hsp1 : w_files w1 !! sp = Some (Text S)).
  { subst w1. cbn. rewrite lookup_insert_ne; [ done | ].
    intros Heq. by apply (script_is_not_template sys_path0). }
  assert (Htp1 : w_files w1 !! tp = Some (Text out)).
  { subst w1. cbn. apply lookup_insert_eq. }
  assert (Hload1 : json_loads (universal_newlines out) = Got T' []).
  { by apply (patched_text_reads_back _ T (universal_newlines S)
                T' (universal_newlines tpl) []). }
  assert (Hop1 : w_refused w1 !! tp = None) by (subst w1; apply Hop).
  pose proof (assign_target_has_target _ _ _ Hset) as Htarget1.
  destruct (main_on_target sys_path0 argv' w1 S out T' Hsp1 Htp1 Hload1
              Htarget1) as (T2 & Hset2 & _ & ->).
  rewrite (assign_target_again _ _ _ Hset) in Hset2.
  injection Hset2 as <-. fold tp. rewrite Hop1, Henc.
  cbn [status uncaught final]. split; [ done | ]. split; [ done | ].
  subst w1. cbn. by rewrite insert_insert_eq.
Qed.

Lemma second_run_witness :
  let w := world_with Windows script_crlf tpl_floats in
  let e1 := main (H := floats_1_5) "" ["first"] w in
  let e2 := main (H := floats_1_5) "" ["second"] (final e1) in
  status e1 = 0%Z /\ status e2 = 0%Z /\
  w_files (final e2) = w_files (final e1).
Proof.
  intros w e1 e2.
  assert (Hstatus : status e1 = 0%Z) by (vm_compute; reflexivity).
  destruct (second_run_same_output (H := floats_1_5) "" ["first"] ["second"]
              w tpl_floats doc_floats) as (Hs & _ & Hf).
  - reflexivity.
  - vm_compute. reflexivity.
  - exact doc_floats_ok.
  - exact Hstatus.
  - split; [ exact Hstatus | split; [ exact Hs | exact Hf ] ].
Defined.

(** * Further properties *)

(** *** [read_powershell_script] *)

Lemma universal_newlines_no_cr s :
  Forall (fun c => c <> 13) (universal_newlines s).
Proof.
  remember (length s) as n eqn:En. revert s En.
  induction n as [ n IH ] using lt_wf_ind. intros s En.
  destruct s as [ | c r ]; [ constructor | ]. cbn [universal_newlines].
  destruct (N.eqb_spec c 13) as [ -> | Hc ].
  - destruct r as [ | c' r' ]; [ by repeat constructor | ].
    destruct (c' =? 10); (constructor; [ done | ]);
      eapply IH; try reflexivity; subst n; simpl; lia.
  - constructor; [ done | ]. eapply IH; try reflexivity. subst n. simpl. lia.
Qed.

Lemma universal_newlines_id s :
  Forall (fun c => c <> 13) s -> universal_newlines s = s.
Proof.
  induction 1 as [ | c s Hc Hs IH ]; [ done | ]. cbn [universal_newlines].
  rewrite (proj2 (N.eqb_neq c 13)) by done. by rewrite IH.
Qed.

(** X1.  What [read_powershell_script] returns is the text of the file
    with its line ends normalised: it holds no carriage return, reading it
    leaves every file as it was, and a file without carriage returns comes
    back character for character. *)
Theorem read_script_normalises_line_ends
    (filepath : string) (w w' : world) (text : pystr) :
  read_powershell_script filepath w = Ret text w' ->
  exists body,
    w_files w !! filepath = Some (Text body) /\
    text = universal_newlines body /\
    Forall (fun c => c <> 13) text /\
    (Forall (fun c => c <> 13) body -> text = body) /\
    w_files w' = w_files w.
Proof.
  unfold read_powershell_script, open_read.
  destruct (w_files w !! filepath) as [ [ body | | ] | ]; try done.
  intros [= <- <-]. exists body. repeat split.
  - apply universal_newlines_no_cr.
  - apply universal_newlines_id.
Qed.

Lemma read_script_witness :
  let w := world_with Posix script_crlf tpl_old in
  exists w',
    read_powershell_script "./uploadSettings-enhanced.ps1" w
    = Ret script_lf w' /\
    Forall (fun c => c <> 13) script_lf.
Proof.
  intros w. eexists. split; [ vm_compute; reflexivity | ].
  assert (Hrun : read_powershell_script "./uploadSettings-enhanced.ps1" w
                 = Ret script_lf
                     (log (OpenRead "./uploadSettings-enhanced.ps1") w))
    by (vm_compute; reflexivity).
  destruct (read_script_normalises_line_ends _ _ _ _ Hrun)
    as (body & _ & _ & Hcr & _).
  exact Hcr.
Defined.

(** *** [escape_for_json] *)

Lemma escape_for_json_flat s : escape_for_json s = flat_map escape_char_ascii s.
Proof.
  unfold escape_for_json, json_dumps_str, encode_basestring_ascii.
  apply slice_of_quoted.
Qed.

Lemma hexdigit_ascii d : d < 16 -> 32 <= hexdigit d <= 126.
Proof. intros Hd. unfold hexdigit. destruct (d <? 10); lia. Qed.

Lemma u_escape_ascii n : Forall (fun c => 32 <= c <= 126) (u_escape n).
Proof.
  unfold u_escape, hex4.
  repeat (apply Forall_cons_2;
          [ first [ lia | apply hexdigit_ascii; apply N.mod_lt; lia ] | ]).
  apply Forall_nil_2.
Qed.

Lemma escape_char_ascii_printable c :
  Forall (fun x => 32 <= x <= 126) (escape_char_ascii c).
Proof.
  unfold escape_char_ascii. destruct (escape_dct c) as [ e | ] eqn:E.
  - revert E. unfold escape_dct.
    repeat match goal with
           | |- context [ N.eqb c ?k ] =>
               destruct (N.eqb_spec c k) as [ -> | ? ];
               [ intros [= <-]; repeat (apply Forall_cons_2; [ simpl; lia | ]);
                 apply Forall_nil_2 | ]
           end.
    destruct (c <? 32); [ | done ]. intros [= <-]. apply u_escape_ascii.
  - destruct ((32 <=? c) && (c <=? 126)) eqn:Ep.
    + apply andb_true_iff in Ep as [ H1 H2 ]. apply N.leb_le in H1, H2.
      apply Forall_cons_2; [ lia | apply Forall_nil_2 ].
    + destruct (c <? 65536); [ apply u_escape_ascii | ].
      apply Forall_app_2; apply u_escape_ascii.
Qed.

(** X2.  Whatever the string, [escape_for_json] returns printable ASCII
    only: every character of the result lies between the space and the
    tilde. *)
Theorem escape_for_json_printable_ascii (s : pystr) :
  Forall (fun c => 32 <= c <= 126) (escape_for_json s).
Proof.
  rewrite escape_for_json_flat. induction s as [ | c s IH ]; [ constructor | ].
  cbn [flat_map]. apply Forall_app_2; [ apply escape_char_ascii_printable | done ].
Qed.

(** X3.  [escape_for_json] works character by character: the escape of a
    concatenation is the concatenation of the escapes. *)
Theorem escape_for_json_app (a b : pystr) :
  escape_for_json (a ++ b) = escape_for_json a ++ escape_for_json b.
Proof. rewrite !escape_for_json_flat. apply flat_map_app. Qed.

Lemma escape_dct_plain c :
  32 <= c -> c <> 34 -> c <> 92 -> escape_dct c = None.
Proof.
  intros H1 H2 H3. unfold escape_dct.
  rewrite (proj2 (N.eqb_neq c 92)), (proj2 (N.eqb_neq c 34)),
    (proj2 (N.eqb_neq c 8)), (proj2 (N.eqb_neq c 12)),
    (proj2 (N.eqb_neq c 10)), (proj2 (N.eqb_neq c 13)),
    (proj2 (N.eqb_neq c 9)), (proj2 (N.ltb_ge c 32)) by lia.
  done.
Qed.

(** X4.  A text of printable ASCII without double quote and backslash
    needs no escaping: [escape_for_json] returns it unchanged. *)
Theorem escape_for_json_plain (s : pystr) :
  Forall (fun c => 32 <= c <= 126 /\ c <> 34 /\ c <> 92) s ->
  escape_for_json s = s.
Proof.
  rewrite escape_for_json_flat.
  induction 1 as [ | c s (Hc & Hq & Hb) Hs IH ]; [ done | ].
  cbn [flat_map]. rewrite IH. unfold escape_char_ascii.
  rewrite escape_dct_plain by lia.
  by rewrite (proj2 (andb_true_iff _ _)
                (conj (proj2 (N.leb_le 32 c) (proj1 Hc))
                      (proj2 (N.leb_le c 126) (proj2 Hc)))).
Qed.

Lemma escape_for_json_plain_witness :
  let s := py "Write-Host 'hi'; exit 0" in
  Forall (fun c => 32 <= c <= 126 /\ c <> 34 /\ c <> 92) s /\
  escape_for_json s = s.
Proof.
  intros s.
  assert (Hs : Forall (fun c => 32 <= c <= 126 /\ c <> 34 /\ c <> 92) s).
  { repeat (apply Forall_cons_2; [ repeat split; [ apply N.leb_le; reflexivity | apply N.leb_le; reflexivity | discriminate | discriminate ] | ]).
    apply Forall_nil_2. }
  split; [ exact Hs | exact (escape_for_json_plain s Hs) ].
Defined.

(** X5.  On a text whose characters are all below U+007F the helper and
    the writer agree: [escape_for_json] between double quotes is the very
    string literal [json.dump(..., ensure_ascii=False)] puts in the
    file. *)
Theorem escape_for_json_agrees_with_dump (s : pystr) :
  Forall (fun c => c < 127) s ->
  quoted (escape_for_json s) = encode_basestring s.
Proof.
  intros Hs. unfold quoted, encode_basestring. rewrite escape_for_json_flat.
  do 2 f_equal. induction Hs as [ | c s Hc Hs IH ]; [ done | ].
  cbn [flat_map]. rewrite IH. f_equal.
  unfold escape_char_ascii, escape_char.
  destruct (escape_dct c) as [ e | ] eqn:E; [ done | ].
  destruct (escape_dct_none c E) as (_ & _ & H32).
  by rewrite (proj2 (andb_true_iff _ _)
                (conj (proj2 (N.leb_le 32 c) H32)
                      (proj2 (N.leb_le c 126) ltac:(lia)))).
Qed.

Lemma escape_for_json_agrees_witness :
  let s := py "say " ++ quoted (py "hi") ++ [ch_backslash; ch_lf; ch_tab] in
  Forall (fun c => c < 127) s /\
  quoted (escape_for_json s) = encode_basestring s.
Proof.
  intros s.
  assert (Hs : Forall (fun c => c < 127) s)
    by (repeat (apply Forall_cons_2; [ reflexivity | ]); apply Forall_nil_2).
  split; [ exact Hs | exact (escape_for_json_agrees_with_dump s Hs) ].
Defined.

(** *** [update_template]: every run at a glance *)

(** A run ends in one of four ways.  It raises before the output is
    opened, having logged a strict beginning of the events of a full run
    and changed no file; it returns [False] after the error line; it
    returns [True] with the output written; or the write raises at a
    string it cannot encode, with the output holding what was written
    before it. *)
Lemma update_template_outcomes `{Interpreter} tp sp op w :
  let trace := read_events tp sp ++ update_events op in
  (exists e n, (n <= 8)%nat /\
     update_template tp sp op w = Raise e (logged (firstn n trace) w)) \/
  update_template tp sp op w
  = Ret false (logged (read_events tp sp ++ missing_events) w) \/
  (exists text,
     update_template tp sp op w
     = Ret true (logged (trace ++ done_events) (set_file op (Text text) w))) \/
  (exists T',
     encodable (dumps_indent2 T') = false /\
     update_template tp sp op w
     = Raise UnicodeEncodeError
         (logged trace
            (set_file op (Text (translate_newlines (w_os w)
                                  (written (iterencode 0 T')))) w))).
Proof.
  intros trace.
  destruct (w_files w !! sp) as [ [ S | | ] | ] eqn:Esp.
  2-4: left; destruct (update_template_script_fails tp sp op w)
         as (x & w' & -> & Hx); [ intros S HS; congruence | ];
       rewrite Esp in Hx; destruct Hx as [ -> -> ]; eexists;
       first [ by exists 1%nat; split; [ lia | ]
             | by exists 2%nat; split; [ lia | ] ].
  destruct (w_files w !! tp) as [ [ tpl | | ] | ] eqn:Etp.
  2-4: left;
       unfold update_template, read_powershell_script, bind, print, open_read;
       rewrite log_first, ?log_logged, ?w_files_logged, Esp,
         ?log_logged, ?w_files_logged, Etp; eexists;
       first [ by exists 3%nat; split; [ lia | ]
             | by exists 4%nat; split; [ lia | ] ].
  destruct (json_loads (universal_newlines tpl)) as [ T r | | e | ] eqn:Eload.
  2-4: left; rewrite (run_undecodable tp sp op w S tpl Esp Etp)
         by (intros T r; congruence);
       eexists; by exists 5%nat; split; [ lia | ].
  destruct (has_target_key T) as [ x | [ | ] ] eqn:Ekey.
  - left. rewrite (run_test_raises tp sp op w S tpl Esp Etp _ _ _ Eload Ekey).
    eexists. by exists 6%nat; split; [ lia | ].
  - destruct (assign_target T (universal_newlines S)) as [ x | T' ] eqn:Eset.
    + left. rewrite (run_assignment_raises tp sp op w S tpl Esp Etp _ _ _
                       Eload Ekey Eset).
      eexists. by exists 6%nat; split; [ lia | ].
    + assert (Hop : (exists e, open_write op w = Raise e w) \/
                    writable op w).
      { destruct (writable_cases op w) as [ ? | (e & _ & ?) ]; eauto. }
      destruct Hop as [ [ e Hop ] | Hop ].
      * left. rewrite (run_output_refused tp sp op w S tpl Esp Etp _ _ _ _
                         Eload Ekey Eset Hop).
        eexists. by exists 8%nat; split; [ lia | ].
      * destruct (encodable (dumps_indent2 T')) eqn:Eenc.
        -- right. right. left. eexists.
           rewrite (run_written tp sp op w S tpl Esp Etp _ _ _
                      Eload Ekey Eset Hop Eenc).
           subst trace. by rewrite <- app_assoc.
        -- right. right. right. exists T'. split; [ done | ].
           by rewrite (run_cut_short tp sp op w S tpl Esp Etp _ _ _
                         Eload Ekey Eset Hop Eenc).
  - right. left. by rewrite (run_missing tp sp op w S tpl Esp Etp _ _ Eload Ekey).
Qed.

Lemma firstn_trace_in tp sp op n ev :
  (n <= 8)%nat ->
  In ev (firstn n (read_events tp sp ++ update_events op)) ->
  In ev (read_events tp sp ++
         [Print "Updating $fxv#2 variable...";
          Print "[SUCCESS] Successfully updated $fxv#2";
          Print ("Writing updated template to: " +:+ op)]).
Proof.
  intros Hn Hin.
  change (In ev (firstn 8 (read_events tp sp ++ update_events op))).
  replace n with (Nat.min n 8) in Hin by lia.
  rewrite <- take_take in Hin. apply list_elem_of_In in Hin.
  apply list_elem_of_In. by apply (subseteq_take n).
Qed.

(** X6.  With the script readable and the template not -- missing,
    refused or not UTF-8 -- the run ends on the exception of that read
    with status 1.  It has announced and read the script, announced the
    template, and stopped there: the files are as they were. *)
Theorem template_unreadable_stops_before_write
    `{Interpreter} (sys_path0 : string) (argv : list string) (w : world)
    (S : pystr) :
  let tp := template_path_of sys_path0 in
  let sp := script_path_of sys_path0 in
  w_files w !! sp = Some (Text S) ->
  (forall tpl, w_files w !! tp <> Some (Text tpl)) ->
  exists x n,
    main sys_path0 argv w
    = Exit 1 (Some x) (logged (firstn n (read_events tp sp)) w) /\
    match w_files w !! tp with
    | None => x = FileNotFoundError /\ n = 3%nat
    | Some Denied => x = PermissionError /\ n = 3%nat
    | _ => x = UnicodeDecodeError /\ n = 4%nat
    end.
Proof.
  intros tp sp Hsp Htp. rewrite main_unfold. fold tp sp.
  unfold update_template, read_powershell_script, bind, print, open_read.
  rewrite log_first, ?log_logged, ?w_files_logged, Hsp,
    ?log_logged, ?w_files_logged.
  destruct (w_files w !! tp) as [ [ tpl | | ] | ] eqn:E;
    try (by destruct (Htp tpl)); do 2 eexists;
    (split; [ | split; reflexivity ]); reflexivity.
Qed.

Lemma template_unreadable_witness :
  let w := world_without_template in
  exists n,
    main (H := no_floats) "" [] w
    = Exit 1 (Some FileNotFoundError)
        (logged (firstn n (read_events "./../template.json"
                             "./uploadSettings-enhanced.ps1")) w).
Proof.
  intros w.
  destruct (template_unreadable_stops_before_write (H := no_floats) "" [] w
              script_lf) as (x & n & Hrun & Hx).
  - reflexivity.
  - intros tpl. vm_compute. discriminate.
  - exists n. vm_compute in Hx. destruct Hx as [ Hx _ ].
    rewrite Hx in Hrun. exact Hrun.
Defined.


(** X8.  The output is opened for writing at most once and last of all
    files: when a run of [update_template] opens a path for writing, that
    path is the output path, and before it the run has opened the script
    and the template for reading, parsed the template and found the
    target; after it comes the final success line or nothing. *)
Theorem output_opened_after_reads
    `{Interpreter} (tp sp op : string) (w : world) :
  exists evs,
    w_log (world_of (update_template tp sp op w)) = w_log w ++ evs /\
    forall q, In (OpenWrite q) evs ->
      q = op /\
      exists post,
        evs = read_events tp sp ++ update_events op ++ post /\
        (post = [] \/ post = done_events).
Proof.
  destruct (update_template_outcomes tp sp op w)
    as [ (x & n & Hn & ->) | [ -> | [ (text & ->) | (T' & _ & ->) ] ] ];
    eexists; (split; [ reflexivity | ]); intros q Hq.
  - apply (firstn_trace_in tp sp op n _ Hn) in Hq. simpl in Hq.
    exfalso. intuition discriminate.
  - simpl in Hq. exfalso. intuition discriminate.
  - split.
    + simpl in Hq. intuition (try discriminate). congruence.
    + exists done_events. split; [ by rewrite <- app_assoc | by right ].
  - split.
    + simpl in Hq. intuition (try discriminate). congruence.
    + exists []. split; [ by rewrite app_nil_r | by left ].
Qed.

(** X9.  The console and the exit status agree.  The line
    [[SUCCESS] Template updated successfully!] is printed exactly in the
    runs that exit with status 0, the line [[ERROR] Could not find ...]
    exactly in the runs that exit with status 1 without an exception, and
    the status is never anything but 0 or 1. *)
Theorem exit_status_matches_console
    `{Interpreter} (sys_path0 : string) (argv : list string) (w : world) :
  let e := main sys_path0 argv w in
  exists evs,
    w_log (final e) = w_log w ++ evs /\
    (status e = 0%Z <->
     In (Print "[SUCCESS] Template updated successfully!") evs) /\
    (status e = 1%Z /\ uncaught e = None <->
     In (Print "[ERROR] Could not find $fxv#2 in template variables") evs) /\
    (status e = 0%Z \/ status e = 1%Z).
Proof.
  intros e. subst e. rewrite main_unfold.
  set (tp := template_path_of sys_path0). set (sp := script_path_of sys_path0).
  destruct (update_template_outcomes tp sp tp w)
    as [ (x & n & Hn & ->) | [ -> | [ (text & ->) | (T' & _ & ->) ] ] ];
    eexists; (split; [ reflexivity | ]); cbn [exit_of status uncaught].
  - split; [ | split; [ | by right ] ].
    + split; [ done | ]. intros Hin.
      apply (firstn_trace_in tp sp tp n _ Hn) in Hin. simpl in Hin.
      exfalso. intuition discriminate.
    + split; [ by intros [ _ ? ] | ]. intros Hin.
      apply (firstn_trace_in tp sp tp n _ Hn) in Hin. simpl in Hin.
      exfalso. intuition discriminate.
  - split; [ | split; [ | by right ] ].
    + split; [ done | ]. intros Hin. simpl in Hin.
      exfalso. intuition discriminate.
    + split; [ intros _ | done ]. apply in_or_app. right. right. by left.
  - split; [ | split; [ | by left ] ].
    + split; [ intros _ | done ]. apply in_or_app. right. by left.
    + split; [ by intros [ ? _ ] | ]. intros Hin. simpl in Hin.
      exfalso. intuition discriminate.
  - split; [ | split; [ | by right ] ].
    + split; [ done | ]. intros Hin. simpl in Hin.
      exfalso. intuition discriminate.
    + split; [ by intros [ _ ? ] | ]. intros Hin. simpl in Hin.
      exfalso. intuition discriminate.
Qed.

(** X10.  [update_template] called with an output path that is neither
    the template nor the script does not patch in place: when it returns
    [True], the template and the script are as they were, and the output
    path holds the encoded document, whose [$fxv#2] is the text read from
    the script. *)
Theorem separate_output_keeps_inputs
    `{Interpreter} (tp sp op : string) (w w' : world) :
  update_template tp sp op w = Ret true w' ->
  op <> tp -> op <> sp ->
  w_files w' !! tp = w_files w !! tp /\
  w_files w' !! sp = w_files w !! sp /\
  exists S T',
    w_files w !! sp = Some (Text S) /\
    target_value T' = Some (JStr (universal_newlines S)) /\
    w_files w' !! op
    = Some (Text (translate_newlines (w_os w) (dumps_indent2 T'))).
Proof.
  intros Hrun Htp Hsp.
  destruct (update_template_success tp sp op w w' Hrun)
    as (S & tpl & T & T' & HS & Htpl & Hload & Htarget & Hset & Henc & Hop & ->).
  cbn. rewrite !lookup_insert_ne by done. split; [ done | ]. split; [ done | ].
  exists S, T'. split; [ done | ]. split; [ | apply lookup_insert_eq ].
  destruct (assign_target_patched T (universal_newlines S) Htarget)
    as (T2 & Hset2 & Hpatched).
  assert (T2 = T') by congruence. subst T2. by apply (patched_target T).
Qed.

Lemma separate_output_witness :
  let w := world_with Posix script_crlf tpl_number in
  let r := update_template (H := no_floats) "./../template.json"
             "./uploadSettings-enhanced.ps1" "out/template.json" w in
  r = Ret true (world_of r) /\
  w_files (world_of r) !! "./../template.json" = Some (Text tpl_number).
Proof.
  intros w r.
  assert (Hrun : r = Ret true (world_of r)) by (vm_compute; reflexivity).
  split; [ exact Hrun | ].
  destruct (separate_output_keeps_inputs (H := no_floats) _ _ _ _ _ Hrun)
    as (Htp & _).
  - discriminate.
  - discriminate.
  - rewrite Htp. reflexivity.
Defined.



(** *** Strings the output cannot hold *)








(** *** One run after another *)

Lemma assign_target_overwrite T s1 s2 T1 :
  assign_target T s1 = inr T1 -> assign_target T1 s2 = assign_target T s2.
Proof.
  unfold assign_target, py_getitem, py_setitem.
  destruct T as [ | | | | | | d ]; try done.
  destruct (dict_get K_variables d) as [ vars | ] eqn:Ev; [ | done ].
  destruct vars as [ | | | | | | vars ]; try done. intros [= <-].
  rewrite dict_get_set_same. by rewrite !dict_set_set.
Qed.

(** X13.  The last script wins.  After a successful run, a run with the
    script replaced by another text ends as a run of that other script on
    the original template would have: same status, same exception if any,
    same files -- the text embedded by the earlier run leaves no trace.
    Floats are taken to be written in a text that reads back as the same
    float ([floats_ok]). *)
Theorem last_script_wins
    `{Interpreter} (sys_path0 : string) (argv argv' : list string) (w : world)
    (tpl : pystr) (T : json) (S2 : pystr) :
  let tp := template_path_of sys_path0 in
  let sp := script_path_of sys_path0 in
  w_files w !! tp = Some (Text tpl) ->
  json_loads (universal_newlines tpl) = Got T [] ->
  floats_ok T ->
  let e1 := main sys_path0 argv w in
  status e1 = 0%Z ->
  let e2 := main sys_path0 argv' (set_file sp (Text S2) (final e1)) in
  let e := main sys_path0 argv' (set_file sp (Text S2) w) in
  status e2 = status e /\ uncaught e2 = uncaught e /\
  w_files (final e2) = w_files (final e).
Proof.
  intros tp sp Htp Hload Hfl e1 Hstatus e2 e. subst e1 e2 e.
  rewrite (main_unfold sys_path0 argv w) in Hstatus |- *. fold tp sp in Hstatus |- *.
  destruct (exit_of_success _ Hstatus) as (w1 & Hrun). rewrite Hrun.
  destruct (update_template_success tp sp tp w w1 Hrun)
    as (S & tpl0 & T0 & T' & Hsp & Htp0 & Hload0 & Htarget & Hset & Henc & Hop & ->).
  assert (tpl0 = tpl) by congruence. subst tpl0.
  assert (T0 = T) by congruence. subst T0.
  destruct (json_loads_got _ _ _ Hload) as [ _ Hwf ].
  cbn [final exit_of].
  set (out := translate_newlines (w_os w) (dumps_indent2 T')).
  set (w1 := logged _ (set_file tp (Text out) w)).
  assert (Hne : tp <> sp).
  { intros Heq. by apply (script_is_not_template sys_path0). }
  assert (Hsp1 : w_files (set_file sp (Text S2) w1) !! sp = Some (Text S2))
    by apply lookup_insert_eq.
  assert (Htp1 : w_files (set_file sp (Text S2) w1) !! tp = Some (Text out)).
  { subst w1. cbn. rewrite lookup_insert_ne by done. apply lookup_insert_eq. }
  assert (Hsp0 : w_files (set_file sp (Text S2) w) !! sp = Some (Text S2))
    by apply lookup_insert_eq.
  assert (Htp0' : w_files (set_file sp (Text S2) w) !! tp = Some (Text tpl)).
  { cbn. by rewrite lookup_insert_ne. }
  assert (Hload1 : json_loads (universal_newlines out) = Got T' []).
  { by apply (patched_text_reads_back _ T (universal_newlines S)
                T' (universal_newlines tpl) []). }
  assert (Hop1 : w_refused (set_file sp (Text S2) w1) !! tp = None)
    by (subst w1; apply Hop).
  assert (Hop0 : w_refused (set_file sp (Text S2) w) !! tp = None)
    by apply Hop.
  pose proof (assign_target_has_target _ _ _ Hset) as Htarget1.
  destruct (main_on_target sys_path0 argv' _ S2 out T' Hsp1 Htp1 Hload1
              Htarget1) as (T2 & Hset2 & _ & ->).
  destruct (main_on_target sys_path0 argv' _ S2 tpl T Hsp0 Htp0' Hload
              Htarget) as (T3 & Hset3 & _ & ->).
  rewrite (assign_target_overwrite _ _ _ _ Hset) in Hset2.
  assert (T3 = T2) by congruence. subst T3. fold tp sp.
  rewrite Hop1, Hop0.
  destruct (encodable (dumps_indent2 T2));
    (split; [ done | ]); (split; [ done | ]); subst w1; cbn;
    rewrite (insert_insert_ne (w_files w) sp tp) by done;
    by rewrite insert_insert_eq.
Qed.

Lemma last_script_witness :
  let w := world_with Windows script_crlf tpl_floats in
  let sp := "./uploadSettings-enhanced.ps1" in
  let e1 := main (H := floats_1_5) "" ["first"] w in
  let e2 := main (H := floats_1_5) "" ["second"]
              (set_file sp (Text (py "exit 1")) (final e1)) in
  let e := main (H := floats_1_5) "" ["second"]
             (set_file sp (Text (py "exit 1")) w) in
  status e1 = 0%Z /\ status e2 = status e /\
  w_files (final e2) = w_files (final e).
Proof.
  intros w sp e1 e2 e.
  assert (Hstatus : status e1 = 0%Z) by (vm_compute; reflexivity).
  destruct (last_script_wins (H := floats_1_5) "" ["first"] ["second"]
              w tpl_floats doc_floats (py "exit 1")) as (Hs & _ & Hf).
  - reflexivity.
  - vm_compute. reflexivity.
  - exact doc_floats_ok.
  - exact Hstatus.
  - split; [ exact Hstatus | split; [ exact Hs | exact Hf ] ].
Defined.

(** *** Templates the decoder refuses *)

Lemma json_loads_bom `{Interpreter} rest :
  json_loads (byte_order_mark :: rest) = Bad.
Proof.
  unfold json_loads, decode. rewrite skip_ws_head by reflexivity.
  rewrite scan_once_S. reflexivity.
Qed.

(** X14.  A template saved with a byte order mark is refused.  The file
    is decoded as [utf-8], which keeps the mark as the character U+FEFF,
    and [json.loads] does not accept it: the run ends with status 1 on
    [JSONDecodeError] right after the parsing line, every file as it
    was. *)
Theorem template_with_bom_rejected
    `{Interpreter} (sys_path0 : string) (argv : list string) (w : world)
    (S rest : pystr) :
  let tp := template_path_of sys_path0 in
  let sp := script_path_of sys_path0 in
  w_files w !! sp = Some (Text S) ->
  w_files w !! tp = Some (Text (byte_order_mark :: rest)) ->
  main sys_path0 argv w
  = Exit 1 (Some JSONDecodeError) (logged (read_events tp sp) w).
Proof.
  intros tp sp Hsp Htp. rewrite main_unfold. fold tp sp.
  assert (Hload : json_loads (universal_newlines (byte_order_mark :: rest))
                  = Bad) by apply json_loads_bom.
  rewrite (run_undecodable tp sp tp w S _ Hsp Htp), Hload; [ done | ].
  intros T r. by rewrite Hload.
Qed.

Lemma template_with_bom_witness :
  let w := world_with Windows script_crlf (byte_order_mark :: tpl_old) in
  let e := main (H := no_floats) "" [] w in
  status e = 1%Z /\ uncaught e = Some JSONDecodeError /\
  w_files (final e) = w_files w.
Proof.
  intros w e. subst e.
  rewrite (template_with_bom_rejected (H := no_floats) "" [] w
             script_crlf tpl_old eq_refl eq_refl).
  repeat split.
Defined.

Lemma universal_newlines_ws s :
  Forall (fun c => is_ws c = true) s ->
  Forall (fun c => is_ws c = true) (universal_newlines s).
Proof.
  remember (length s) as n eqn:En. revert s En.
  induction n as [ n IH ] using lt_wf_ind. intros s En Hs.
  destruct s as [ | c r ]; [ constructor | ]. cbn [universal_newlines].
  apply Forall_cons in Hs as [ Hc Hr ].
  destruct (c =? 13).
  - destruct r as [ | c' r' ]; [ by repeat constructor | ].
    destruct (c' =? 10); (constructor; [ done | ]).
    + apply Forall_cons in Hr as [ _ Hr ].
      eapply IH; try reflexivity; [ subst n; simpl; lia | done ].
    + eapply IH; try reflexivity; [ subst n; simpl; lia | done ].
  - constructor; [ done | ].
    eapply IH; try reflexivity; [ subst n; simpl; lia | done ].
Qed.

Lemma skip_ws_blank s : Forall (fun c => is_ws c = true) s -> skip_ws s = [].
Proof. induction 1 as [ | c s Hc Hs IH ]; [ done | ]. simpl. by rewrite Hc. Qed.

(** X15.  An empty template, or one of nothing but spaces, tabs and line
    ends, is refused: the run ends with status 1 on [JSONDecodeError]
    right after the parsing line, every file as it was. *)
Theorem blank_template_rejected
    `{Interpreter} (sys_path0 : string) (argv : list string) (w : world)
    (S tpl : pystr) :
  let tp := template_path_of sys_path0 in
  let sp := script_path_of sys_path0 in
  w_files w !! sp = Some (Text S) ->
  w_files w !! tp = Some (Text tpl) ->
  Forall (fun c => is_ws c = true) tpl ->
  main sys_path0 argv w
  = Exit 1 (Some JSONDecodeError) (logged (read_events tp sp) w).
Proof.
  intros tp sp Hsp Htp Hblank. rewrite main_unfold. fold tp sp.
  assert (Hload : json_loads (universal_newlines tpl) = Bad).
  { unfold json_loads, decode.
    rewrite skip_ws_blank by by apply universal_newlines_ws.
    by rewrite scan_once_S. }
  rewrite (run_undecodable tp sp tp w S _ Hsp Htp), Hload; [ done | ].
  intros T r. by rewrite Hload.
Qed.

Lemma blank_template_witness :
  let w := world_with Posix script_lf [ch_space; ch_cr; ch_lf; ch_tab] in
  let e := main (H := no_floats) "" [] w in
  status e = 1%Z /\ uncaught e = Some JSONDecodeError /\
  w_files (final e) = w_files w.
Proof.
  intros w e. subst e.
  rewrite (blank_template_rejected (H := no_floats) "" [] w
             script_lf [ch_space; ch_cr; ch_lf; ch_tab] eq_refl eq_refl).
  - repeat split.
  - repeat constructor.
Defined.

(** *** What the written file looks like *)

(** X16.  The written document has no key twice in any object, whatever
    the template had: [json.loads] keeps the last value of a repeated key,
    so when [update_template] returns [True] the output holds the encoding
    of a document with unique keys that has the target. *)
Theorem written_document_has_unique_keys
    `{Interpreter} (tp sp op : string) (w w' : world) :
  update_template tp sp op w = Ret true w' ->
  exists T',
    w_files w' !! op
    = Some (Text (translate_newlines (w_os w) (dumps_indent2 T'))) /\
    wf_json T' /\ has_target T'.
Proof.
  intros Hrun.
  destruct (update_template_success tp sp op w w' Hrun)
    as (S & tpl & T & T' & HS & Htpl & Hload & Htarget & Hset & Henc & Hop & ->).
  exists T'. split; [ apply lookup_insert_eq | ].
  destruct (json_loads_got _ _ _ Hload) as [ _ Hwf ]. split.
  - by apply (assign_target_wf T (universal_newlines S)).
  - by apply (assign_target_has_target T (universal_newlines S)).
Qed.

Lemma unique_keys_witness :
  let w := world_with Posix script_lf tpl_twice in
  let r := update_template (H := no_floats) "./../template.json"
             "./uploadSettings-enhanced.ps1" "./../template.json" w in
  r = Ret true (world_of r) /\
  exists T',
    w_files (world_of r) !! "./../template.json"
    = Some (Text (dumps_indent2 (H := no_floats) T')) /\
    wf_json T'.
Proof.
  intros w r.
  assert (Hrun : r = Ret true (world_of r)) by (vm_compute; reflexivity).
  split; [ exact Hrun | ].
  destruct (written_document_has_unique_keys (H := no_floats) _ _ _ _ _ Hrun)
    as (T' & Hfile & Hwf & _).
  exists T'. split; [ | exact Hwf ]. rewrite Hfile.
  do 2 f_equal. unfold translate_newlines.
  generalize (dumps_indent2 (H := no_floats) T').
  intros s. induction s as [ | c s IH ]; [ reflexivity | ].
  cbn [flat_map]. rewrite IH. cbn [w_os w world_with linesep].
  destruct (c =? 10) eqn:E; [ | reflexivity ].
  apply N.eqb_eq in E. by subst c.
Defined.

Lemma escape_char_no_control c : Forall (fun x => 32 <= x) (escape_char c).
Proof.
  unfold escape_char. destruct (escape_dct c) as [ e | ] eqn:E.
  - revert E. unfold escape_dct.
    repeat match goal with
           | |- context [ N.eqb c ?k ] =>
               destruct (N.eqb_spec c k) as [ -> | ? ];
               [ intros [= <-]; repeat (apply Forall_cons_2; [ simpl; lia | ]);
                 apply Forall_nil_2 | ]
           end.
    destruct (c <? 32); [ | done ]. intros [= <-].
    eapply Forall_impl; [ apply u_escape_ascii | ]. simpl. lia.
  - destruct (escape_dct_none c E) as (_ & _ & H32).
    apply Forall_cons_2; [ done | apply Forall_nil_2 ].
Qed.

Lemma translate_newlines_no_lf os s :
  Forall (fun c => c <> 10) s -> translate_newlines os s = s.
Proof.
  induction 1 as [ | c s Hc Hs IH ]; [ done | ].
  unfold translate_newlines in *. cbn [flat_map]. rewrite IH.
  by rewrite (proj2 (N.eqb_neq c 10)).
Qed.

(** X17.  A string is written on one line, the same on every platform:
    the literal [json.dump] writes for it has no control character, so the
    line ends of the embedded script are written as the two characters
    [\n] and the translation of line feeds to [os.linesep] does not touch
    them. *)
Theorem string_literal_on_one_line (os : platform) (s : pystr) :
  Forall (fun c => 32 <= c) (encode_basestring s) /\
  translate_newlines os (encode_basestring s) = encode_basestring s.
Proof.
  assert (Hall : Forall (fun c => 32 <= c) (encode_basestring s)).
  { unfold encode_basestring. apply Forall_cons_2; [ done | ].
    apply Forall_app_2; [ | by repeat constructor ].
    induction s as [ | c s IH ]; [ constructor | ]. cbn [flat_map].
    apply Forall_app_2; [ apply escape_char_no_control | done ]. }
  split; [ done | ]. apply translate_newlines_no_lf.
  eapply Forall_impl; [ exact Hall | ]. simpl. lia.
Qed.

Lemma translate_newlines_app os a b :
  translate_newlines os (a ++ b)
  = translate_newlines os a ++ translate_newlines os b.
Proof. apply flat_map_app. Qed.

(** X18.  The written file is one object with no line end after it: when
    [update_template] returns [True], the text of the output starts with
    an opening brace and ends with a line end and the closing brace, and
    nothing follows the brace. *)
Theorem written_file_ends_with_brace
    `{Interpreter} (tp sp op : string) (w w' : world) :
  update_template tp sp op w = Ret true w' ->
  exists body,
    w_files w' !! op
    = Some (Text (ch_lbrace :: body ++ linesep (w_os w) ++ [ch_rbrace])).
Proof.
  intros Hrun.
  destruct (update_template_success tp sp op w w' Hrun)
    as (S & tpl & T & T' & HS & Htpl & Hload & Htarget & Hset & Henc & Hop & ->).
  destruct (assign_target_has_target _ _ _ Hset) as (new & Hnew).
  destruct (target_value_shape _ _ Hnew) as (d' & vars' & -> & Hv & _).
  cbn [w_files logged set_file]. rewrite lookup_insert_eq.
  destruct d' as [ | [ k0 x0 ] kxs ]; [ done | ].
  unfold dumps_indent2. cbn [dumps_at].
  rewrite !app_assoc. rewrite <- (app_assoc _ (newline_indent 0)).
  match goal with
  | |- context [ ch_lbrace :: ?X ++ newline_indent 0 ++ [ch_rbrace] ] =>
      exists (translate_newlines (w_os w) X);
      change (ch_lbrace :: X ++ newline_indent 0 ++ [ch_rbrace])
        with ([ch_lbrace] ++ X ++ [ch_lf] ++ [ch_rbrace])
  end.
  rewrite !translate_newlines_app. do 2 f_equal.
  unfold translate_newlines. cbn. by rewrite app_nil_r.
Qed.

Lemma written_file_witness :
  let w := world_with Windows script_crlf tpl_number in
  let r := update_template (H := no_floats) "./../template.json"
             "./uploadSettings-enhanced.ps1" "./../template.json" w in
  r = Ret true (world_of r) /\
  exists body,
    w_files (world_of r) !! "./../template.json"
    = Some (Text (ch_lbrace :: body ++ [ch_cr; ch_lf; ch_rbrace])).
Proof.
  intros w r.
  assert (Hrun : r = Ret true (world_of r)) by (vm_compute; reflexivity).
  split; [ exact Hrun | ].
  exact (written_file_ends_with_brace (H := no_floats) _ _ _ _ _ Hrun).
Defined.

(** *** A template that cannot be written, and the limits of the interpreter *)

(** X19.  A template that can be read and not opened for writing -- the
    file or its directory is read-only -- stops the run at
    [open(output_path, 'w')]: the run has read both files, found the
    target, printed [[SUCCESS] Successfully updated $fxv#2] and announced
    the write, and ends with status 1 on [PermissionError], every file as
    it was. *)
Theorem read_only_template_refused
    `{Interpreter} (sys_path0 : string) (argv : list string) (w : world)
    (S tpl : pystr) (T : json) :
  let tp := template_path_of sys_path0 in
  let sp := script_path_of sys_path0 in
  w_files w !! sp = Some (Text S) ->
  w_files w !! tp = Some (Text tpl) ->
  json_loads (universal_newlines tpl) = Got T [] ->
  has_target T ->
  w_refused w !! tp = Some ReadOnly ->
  main sys_path0 argv w
  = Exit 1 (Some PermissionError)
      (logged (read_events tp sp
               ++ [Print "Updating $fxv#2 variable...";
                   Print "[SUCCESS] Successfully updated $fxv#2";
                   Print ("Writing updated template to: " +:+ tp)]) w).
Proof.
  intros tp sp Hsp Htp Hload Htarget Hro.
  destruct (main_on_target sys_path0 argv w S tpl T Hsp Htp Hload Htarget)
    as (T' & _ & _ & ->).
  fold tp. by rewrite Hro.
Qed.

Lemma read_only_template_witness :
  let w := world_read_only Posix script_lf tpl_old in
  let e := main (H := no_floats) "" [] w in
  status e = 1%Z /\ uncaught e = Some PermissionError /\
  w_files (final e) = w_files w.
Proof.
  intros w e. subst e.
  rewrite (read_only_template_refused (H := no_floats) "" [] w
             script_lf tpl_old
             (JDict [(K_variables, JDict [(K_fxv2, JStr (py "old"))])])).
  - repeat split.
  - reflexivity.
  - reflexivity.
  - vm_compute. reflexivity.
  - eexists. reflexivity.
  - reflexivity.
Defined.

(** X20.  A template on which [json.loads] hits a limit of the
    interpreter -- an integer of more digits than [int()] converts, or
    arrays and objects nested deeper than the interpreter recurses -- is
    refused with the exception of that limit, [ValueError] or
    [RecursionError]: the run ends with status 1 right after the parsing
    line, every file as it was, although the text may be valid JSON. *)
Theorem interpreter_limit_stops_run
    `{Interpreter} (sys_path0 : string) (argv : list string) (w : world)
    (S tpl : pystr) (x : exn) :
  let tp := template_path_of sys_path0 in
  let sp := script_path_of sys_path0 in
  w_files w !! sp = Some (Text S) ->
  w_files w !! tp = Some (Text tpl) ->
  json_loads (universal_newlines tpl) = Raised x ->
  main sys_path0 argv w = Exit 1 (Some x) (logged (read_events tp sp) w) /\
  (x = ValueError \/ x = RecursionError).
Proof.
  intros tp sp Hsp Htp Hload. rewrite main_unfold. fold tp sp.
  rewrite (run_undecodable tp sp tp w S _ Hsp Htp), Hload.
  - split; [ done | by apply (json_loads_raises _ _ Hload) ].
  - intros T r. by rewrite Hload.
Qed.

Lemma interpreter_limit_witness :
  let w1 := world_with Posix script_lf tpl_long_integer in
  let w2 := world_with Posix script_lf tpl_deep in
  (valid_json (H := no_floats) (universal_newlines tpl_long_integer) = true /\
   uncaught (main (H := no_floats) "" [] w1) = Some ValueError /\
   w_files (final (main (H := no_floats) "" [] w1)) = w_files w1) /\
  (valid_json (H := no_floats) (universal_newlines tpl_deep) = true /\
   uncaught (main (H := no_floats) "" [] w2) = Some RecursionError /\
   w_files (final (main (H := no_floats) "" [] w2)) = w_files w2).
Proof.
  intros w1 w2. split.
  - split; [ vm_compute; reflexivity | ].
    destruct (interpreter_limit_stops_run (H := no_floats) "" [] w1
                script_lf tpl_long_integer ValueError) as [ -> _ ].
    + reflexivity.
    + reflexivity.
    + vm_compute. reflexivity.
    + split; reflexivity.
  - split; [ vm_compute; reflexivity | ].
    destruct (interpreter_limit_stops_run (H := no_floats) "" [] w2
                script_lf tpl_deep RecursionError) as [ -> _ ].
    + reflexivity.
    + reflexivity.
    + vm_compute. reflexivity.
    + split; reflexivity.
Defined.
